(** * link-decision-transformer: decision_transformer/utils.py

    A shallow embedding of the data preparation and evaluation helpers of
    [decision_transformer/utils.py], followed by the properties of them that
    the specification states.

    Modelling conventions.
    - Numbers.  Array and tensor elements are exact rationals ([Q]).
      Rounding is outside the model, and so are [inf] and [nan] except as
      the results of a numpy division by zero; so are element types: a
      conversion such as [.to(dtype=torch.float32)] changes the
      representation of a value, not the value the model holds.  A score is
      a Python number or a numpy scalar, which divide by zero differently.
      Structural results are stated with Leibniz equality; results that need
      the field laws are stated with [Qeq] ([==]).
    - Arrays.  A one-dimensional array is a [list Q]; a two-dimensional array
      is the list of its rows.  The leading batch axis of size one
      ([eval_batch_size = 1]) is dropped, and so is the trailing unit axis of
      [rewards_to_go].  The environment and the policy return vectors of the
      shapes they declare, and the statistics have one entry per feature, so
      that no elementwise operation is refused for its shapes.
    - Exceptions.  Fallible code returns a [result]: [Ok v], or [Raise e] for
      the Python exception [e].
    - Dictionaries.  A trajectory is a [dict] with the keys ['observations'],
      ['actions'], ['rewards'] and ['returns_to_go']; it is a record of
      optional fields, [None] for an absent key.  The records of a collection
      are distinct objects.  The reference score tables are finite maps from
      environment names.
    - Collaborators.  [np.mean] and [np.std], the reference score tables, the
      policy and the environment are parameters. *)

From Stdlib Require Import QArith.
From stdpp Require Import base list strings gmap.

Set Default Proof Using "Type".

(** * Part I: the program *)

(** ** Exceptions *)

Inductive error : Type :=
  | KeyError (key : string)
  | IndexError
  | ZeroDivisionError
  | ValueError.

Inductive result (A : Type) : Type :=
  | Ok (a : A)
  | Raise (e : error).
Arguments Ok {A} a.
Arguments Raise {A} e.

Definition bind {A B : Type} (m : result A) (k : A -> result B) : result B :=
  match m with
  | Ok a => k a
  | Raise e => Raise e
  end.

Notation "'let*' x := m 'in' k" := (bind m (fun x => k))
  (at level 10, x pattern, m at level 100, k at level 200).

(** [d[key]] on a dictionary entry. *)
Definition getitem_key {A : Type} (key : string) (entry : option A) : result A :=
  match entry with
  | Some v => Ok v
  | None => Raise (KeyError key)
  end.

(** [a / b] on two Python scalars. *)
Definition py_div (a b : Q) : result Q :=
  if Qeq_bool b 0 then Raise ZeroDivisionError else Ok (a / b)%Q.

(** ** Scalars *)

(** A number as a caller passes it: a Python [int] or [float], or a numpy
    scalar such as [np.float64].  The reference scores are Python floats. *)
Inductive scalar : Type :=
  | PyNumber (value : Q)
  | NpNumber (value : Q).

Definition scalar_value (s : scalar) : Q :=
  match s with
  | PyNumber value => value
  | NpNumber value => value
  end.

(** A float as a division returns it: a finite value, [inf] or [-inf], or
    [nan]. *)
Inductive float64 : Type :=
  | Finite (value : Q)
  | Infinity (positive : bool)
  | NaN.

(** [a / b] for a numpy scalar [a] and a Python float [b]: a zero divisor
    gives [nan], [inf] or [-inf] (with a [RuntimeWarning]), no exception. *)
Definition np_div (a b : Q) : float64 :=
  if Qeq_bool b 0 then
    if Qeq_bool a 0 then NaN else Infinity (negb (Qle_bool a 0))
  else Finite (a / b)%Q.

(** [a - b] for a Python float [b]: a numpy scalar stays one. *)
Definition scalar_sub (a : scalar) (b : Q) : scalar :=
  match a with
  | PyNumber a => PyNumber (a - b)%Q
  | NpNumber a => NpNumber (a - b)%Q
  end.

(** [a / b] for a Python float [b]. *)
Definition scalar_div (a : scalar) (b : Q) : result float64 :=
  match a with
  | PyNumber a => let* v := py_div a b in Ok (Finite v)
  | NpNumber a => Ok (np_div a b)
  end.

(** ** Arrays *)

(** The position a Python index [i] denotes in a sequence of length [n]:
    negative indices count from the end. *)
Definition py_index (n : nat) (i : Z) : result nat :=
  if decide (0 <= i < Z.of_nat n)%Z then Ok (Z.to_nat i)
  else if decide (- Z.of_nat n <= i < 0)%Z then Ok (Z.to_nat (i + Z.of_nat n))
  else Raise IndexError.

(** [a[i]] *)
Definition py_getitem {A : Type} (a : list A) (i : Z) : result A :=
  let* p := py_index (length a) i in
  match a !! p with
  | Some v => Ok v
  | None => Raise IndexError
  end.

(** [a[i] = v] *)
Definition py_setitem {A : Type} (a : list A) (i : Z) (v : A) : result (list A) :=
  let* p := py_index (length a) i in
  Ok (<[p := v]> a).

(** [a[lo:hi]] for [0 <= lo] and [0 <= hi]: clipped to the array, empty when
    [hi <= lo]. *)
Definition slice {A : Type} (lo hi : nat) (a : list A) : list A :=
  take (hi - lo) (drop lo a).

(** [a[i]] for an index that the surrounding loop keeps in range; [0] stands
    for the read that cannot happen. *)
Definition at_index (a : list Q) (i : nat) : Q := default 0%Q (a !! i).

(** [torch.sum] of a one-dimensional tensor. *)
Definition tensor_sum (a : list Q) : Q := foldl Qplus 0%Q a.

(** ** discount_cumsum *)

(** One iteration of the reverse scan:
    [disc_cumsum[t] = x[t] + gamma * disc_cumsum[t+1]]. *)
Definition discount_step (x : list Q) (gamma : Q) (disc_cumsum : list Q) (t : nat)
  : list Q :=
  <[t := (at_index x t + gamma * at_index disc_cumsum (t + 1))%Q]> disc_cumsum.

Definition discount_cumsum (x : list Q) (gamma : Q) : result (list Q) :=
  let disc_cumsum := replicate (length x) 0%Q in
  let* x_last := py_getitem x (-1) in
  let* disc_cumsum := py_setitem disc_cumsum (-1) x_last in
  Ok (foldl (discount_step x gamma) disc_cumsum (reverse (seq 0 (length x - 1)))).

(** ** get_d4rl_normalized_score *)

Section ReferenceScores.
(** [d4rl_infos.REF_MIN_SCORE] and [d4rl_infos.REF_MAX_SCORE]. *)
Variables REF_MIN_SCORE REF_MAX_SCORE : gmap string Q.

Definition get_d4rl_normalized_score (score : scalar) (env_name : string)
  : result float64 :=
  let* ref_min := getitem_key env_name (REF_MIN_SCORE !! env_name) in
  let numerator := scalar_sub score ref_min in
  let* ref_max := getitem_key env_name (REF_MAX_SCORE !! env_name) in
  let* ref_min := getitem_key env_name (REF_MIN_SCORE !! env_name) in
  scalar_div numerator (ref_max - ref_min).

End ReferenceScores.

(** ** Trajectories and the dataset *)

(** One record of the pickled collection.  ['returns_to_go'] is the key that
    [__init__] adds. *)
Record trajectory : Type := {
  observations : option (list (list Q));
  actions : option (list (list Q));
  rewards : option (list Q);
  returns_to_go : option (list Q)
}.

(** [traj['returns_to_go'] = v] *)
Definition set_returns_to_go (traj : trajectory) (v : list Q) : trajectory :=
  {| observations := observations traj; actions := actions traj;
     rewards := rewards traj; returns_to_go := Some v |}.

(** [traj['observations'] = v] *)
Definition set_observations (traj : trajectory) (v : list (list Q)) : trajectory :=
  {| observations := Some v; actions := actions traj;
     rewards := rewards traj; returns_to_go := returns_to_go traj |}.

Record D4RLTrajectoryDataset : Type := {
  context_len : nat;
  discrete_action : bool;
  trajectories : list trajectory;
  state_mean : list Q;
  state_std : list Q
}.

(** *** __init__ *)

(** The literal [1e-6]. *)
Definition epsilon : Q := 1 # 1000000.

(** [a / s] for an array [a] and a scalar [s]. *)
Definition array_div_scalar (a : list Q) (s : Q) : list Q :=
  (fun v => (v / s)%Q) <$> a.

(** [a + s] for an array [a] and a scalar [s]. *)
Definition array_add_scalar (a : list Q) (s : Q) : list Q :=
  (fun v => (v + s)%Q) <$> a.

(** [(row - mean) / std], element by element. *)
Definition normalize_state (mean std row : list Q) : list Q :=
  zip_with Qdiv (zip_with Qminus row mean) std.

(** [(observations - mean) / std], broadcast over the rows. *)
Definition normalize_observations (mean std : list Q) (obs : list (list Q))
  : list (list Q) :=
  normalize_state mean std <$> obs.

(** The rows of the arrays have one width. *)
Definition row_widths_agree (states : list (list (list Q))) : bool :=
  match concat states with
  | [] => true
  | row :: rows => forallb (fun r => length r =? length row) rows
  end.

(** [np.concatenate(states, axis=0)]: it needs at least one array, and arrays
    of one row width. *)
Definition np_concatenate (states : list (list (list Q))) : result (list (list Q)) :=
  match states with
  | [] => Raise ValueError
  | _ => if row_widths_agree states then Ok (concat states) else Raise ValueError
  end.

(** The first loop over [self.trajectories]: the lengths, the raw
    observations and the returns-to-go. *)
Fixpoint init_returns (rtg_scale : Q) (trajs : list trajectory)
    (min_len : Z) (states : list (list (list Q)))
  : result (list trajectory * Z * list (list (list Q))) :=
  match trajs with
  | [] => Ok ([], min_len, states)
  | traj :: rest =>
      let* obs := getitem_key "observations" (observations traj) in
      let traj_len := length obs in
      let min_len := Z.min min_len (Z.of_nat traj_len) in
      let* obs := getitem_key "observations" (observations traj) in
      let states := states ++ [obs] in
      let* rews := getitem_key "rewards" (rewards traj) in
      let* disc := discount_cumsum rews 1 in
      let traj := set_returns_to_go traj (array_div_scalar disc rtg_scale) in
      let* (rest, min_len, states) := init_returns rtg_scale rest min_len states in
      Ok (traj :: rest, min_len, states)
  end.

(** The second loop over [self.trajectories]: the normalization. *)
Fixpoint init_normalize (mean std : list Q) (trajs : list trajectory)
  : result (list trajectory) :=
  match trajs with
  | [] => Ok []
  | traj :: rest =>
      let* obs := getitem_key "observations" (observations traj) in
      let traj := set_observations traj (normalize_observations mean std obs) in
      let* rest := init_normalize mean std rest in
      Ok (traj :: rest)
  end.

Section Store.
(** [np.mean(_, axis=0)] and [np.std(_, axis=0)]. *)
Variables np_mean np_std : list (list Q) -> list Q.

(** [__init__], given the collection that [pickle.load] returns. *)
Definition __init__ (pickled : list trajectory) (context_len : nat)
    (rtg_scale : Q) (discrete_action : bool) : result D4RLTrajectoryDataset :=
  let min_len := (10 ^ 6)%Z in
  let states := [] in
  let* (trajs, min_len, states) := init_returns rtg_scale pickled min_len states in
  let* states := np_concatenate states in
  let mean := np_mean states in
  let std := array_add_scalar (np_std states) epsilon in
  let* trajs := init_normalize mean std trajs in
  Ok {| context_len := context_len; discrete_action := discrete_action;
        trajectories := trajs; state_mean := mean; state_std := std |}.

Definition get_state_stats (self : D4RLTrajectoryDataset) : list Q * list Q :=
  (state_mean self, state_std self).

End Store.

(** *** __getitem__ *)

(** The tuple [__getitem__] returns. *)
Record window : Type := {
  w_timesteps : list nat;
  w_states : list (list Q);
  w_actions : list (list Q);
  w_returns_to_go : list Q;
  w_traj_mask : list Q
}.

(** [random.randint(a, b)] for [a <= b]: the uniform distribution on the
    integers [a, a+1, ..., b], as the list of its equally likely outcomes. *)
Definition randint (a b : nat) : list nat := seq a (S b - a).

(** [list(a.shape[1:])] of a two-dimensional array: the width of its rows.
    An array without rows keeps no width in this representation. *)
Definition row_shape (a : list (list Q)) : nat :=
  match a with
  | [] => 0
  | row :: _ => length row
  end.

(** [torch.zeros([n] + list(a.shape[1:]))] *)
Definition zeros_like_rows (n : nat) (a : list (list Q)) : list (list Q) :=
  replicate n (replicate (row_shape a) 0%Q).

(** The branch [traj_len >= self.context_len] once [si] is drawn. *)
Definition getitem_at (ctx : nat) (traj : trajectory) (si : nat) : result window :=
  let* obs := getitem_key "observations" (observations traj) in
  let states := slice si (si + ctx) obs in
  let* acts := getitem_key "actions" (actions traj) in
  let actions := slice si (si + ctx) acts in
  let* rtg := getitem_key "returns_to_go" (returns_to_go traj) in
  let returns_to_go := slice si (si + ctx) rtg in
  let timesteps := seq si ctx in
  let traj_mask := replicate ctx 1%Q in
  Ok {| w_timesteps := timesteps; w_states := states; w_actions := actions;
        w_returns_to_go := returns_to_go; w_traj_mask := traj_mask |}.

(** The branch [traj_len < self.context_len]. *)
Definition getitem_padded (ctx traj_len : nat) (traj : trajectory) : result window :=
  let padding_len := ctx - traj_len in
  let* states := getitem_key "observations" (observations traj) in
  let states := states ++ zeros_like_rows padding_len states in
  let* actions := getitem_key "actions" (actions traj) in
  let actions := actions ++ zeros_like_rows padding_len actions in
  let* returns_to_go := getitem_key "returns_to_go" (returns_to_go traj) in
  let returns_to_go := returns_to_go ++ replicate padding_len 0%Q in
  let timesteps := seq 0 ctx in
  let traj_mask := replicate traj_len 1%Q ++ replicate padding_len 0%Q in
  Ok {| w_timesteps := timesteps; w_states := states; w_actions := actions;
        w_returns_to_go := returns_to_go; w_traj_mask := traj_mask |}.

(** [__getitem__]: the equally likely outcomes of one call, one for every
    value [random.randint] can return; a call that draws nothing has one
    outcome.  The conversions of the returned tuple to [int32] and [float32]
    do not change the values held here: the timesteps and the mask are
    integers, the actions of a dataset with [discrete_action] set are
    integers, and rounding to single precision is outside the model. *)
Definition __getitem__ (self : D4RLTrajectoryDataset) (idx : Z)
  : list (result window) :=
  match py_getitem (trajectories self) idx with
  | Raise e => [Raise e]
  | Ok traj =>
      match getitem_key "observations" (observations traj) with
      | Raise e => [Raise e]
      | Ok obs =>
          let traj_len := length obs in
          if decide (context_len self <= traj_len) then
            getitem_at (context_len self) traj
              <$> randint 0 (traj_len - context_len self)
          else
            [getitem_padded (context_len self) traj_len traj]
      end
  end.

(** ** evaluate_on_env *)

(** The three placeholders of one episode. *)
Record rollout : Type := {
  buf_actions : list (list Q);
  buf_states : list (list Q);
  buf_rewards_to_go : list Q
}.

(** One call of [model.forward]: its four arguments and the position of
    [act_preds] that is read afterwards.  The step [t], the observation
    [running_state] of that step and the placeholders at the time of the call
    are recorded with it. *)
Record forward_call : Type := {
  fc_t : nat;
  fc_running_state : list Q;
  fc_rollout : rollout;
  fc_timesteps : list nat;
  fc_states : list (list Q);
  fc_actions : list (list Q);
  fc_rewards_to_go : list Q;
  fc_index : Z
}.

(** What the evaluator does to its collaborators, in order. *)
Inductive event : Type :=
  | EvReset (state : list Q)
  | EvForward (call : forward_call)
  | EvStep (act : list Q) (state : list Q) (reward : Q) (terminated truncated : bool).

(** The dictionary [results]. *)
Record results : Type := {
  avg_score : Q;
  avg_ep_len : Q
}.

(** The local variables of one episode. *)
Record episode : Type := {
  ep_rollout : rollout;
  running_state : list Q;
  running_reward : Q;
  running_rtg : Q
}.

(** [total_reward] and [total_timesteps]. *)
Record totals : Type := {
  total_reward : Q;
  total_timesteps : nat
}.

Section Evaluator.
(** The environment: its state, [env.reset()], [env.step(action)] (returning
    the state, the reward and the flags [terminated] and [truncated]),
    [env.observation_space.shape[0]] and [env.action_space.shape[0]]. *)
Variable Env : Type.
Variable env_reset : Env -> list Q * Env.
Variable env_step : Env -> list Q -> (list Q * Q * bool * bool) * Env.
Variable observation_shape : nat.
Variable action_shape : nat.
(** [model.forward(timesteps, states, actions, returns_to_go)]: the action
    predictions, one per position of the window. *)
Variable forward : list nat -> list (list Q) -> list (list Q) -> list Q -> list (list Q).

(** The environment and the events so far; an exception leaves both as they
    are. *)
Record world : Type := {
  w_env : Env;
  w_trace : list event
}.

Definition prog (A : Type) : Type := world -> world * result A.

Definition ret {A : Type} (a : A) : prog A := fun w => (w, Ok a).

Definition lift {A : Type} (m : result A) : prog A := fun w => (w, m).

Definition pbind {A B : Type} (m : prog A) (k : A -> prog B) : prog B :=
  fun w =>
    match m w with
    | (w', Ok a) => k a w'
    | (w', Raise e) => (w', Raise e)
    end.

Notation "'let!' x := m 'in' k" := (pbind m (fun x => k))
  (at level 10, x pattern, m at level 100, k at level 200).

Definition emit (e : event) (w : world) : world :=
  {| w_env := w_env w; w_trace := w_trace w ++ [e] |}.

(** [env.reset()] *)
Definition do_reset : prog (list Q) :=
  fun w =>
    let '(state, env) := env_reset (w_env w) in
    (emit (EvReset state) {| w_env := env; w_trace := w_trace w |}, Ok state).

(** [env.step(act)] *)
Definition do_step (act : list Q) : prog (list Q * Q * bool * bool) :=
  fun w =>
    let '(state, reward, terminated, truncated, env) := env_step (w_env w) act in
    (emit (EvStep act state reward terminated truncated)
       {| w_env := env; w_trace := w_trace w |},
     Ok (state, reward, terminated, truncated)).

(** [model.forward(...)] followed by the read [act_preds[0, index]]. *)
Definition do_forward (call : forward_call) : prog (list Q) :=
  fun w =>
    let act_preds :=
      forward (fc_timesteps call) (fc_states call) (fc_actions call)
        (fc_rewards_to_go call) in
    (emit (EvForward call) w, py_getitem act_preds (fc_index call)).

(** The defaults of [state_mean] and [state_std]. *)
Definition state_mean_or_zeros (state_mean : option (list Q)) : list Q :=
  match state_mean with
  | None => replicate observation_shape 0%Q
  | Some mean => mean
  end.

Definition state_std_or_ones (state_std : option (list Q)) : list Q :=
  match state_std with
  | None => replicate observation_shape 1%Q
  | Some std => std
  end.

(** The window and the position chosen at step [t]. *)
Definition select_context (context_len : nat) (timesteps : list nat)
    (running_state : list Q) (r : rollout) (t : nat) : forward_call :=
  if decide (t < context_len) then
    {| fc_t := t; fc_running_state := running_state; fc_rollout := r;
       fc_timesteps := slice 0 context_len timesteps;
       fc_states := slice 0 context_len (buf_states r);
       fc_actions := slice 0 context_len (buf_actions r);
       fc_rewards_to_go := slice 0 context_len (buf_rewards_to_go r);
       fc_index := Z.of_nat t |}
  else
    {| fc_t := t; fc_running_state := running_state; fc_rollout := r;
       fc_timesteps := slice (t - context_len + 1) (t + 1) timesteps;
       fc_states := slice (t - context_len + 1) (t + 1) (buf_states r);
       fc_actions := slice (t - context_len + 1) (t + 1) (buf_actions r);
       fc_rewards_to_go := slice (t - context_len + 1) (t + 1) (buf_rewards_to_go r);
       fc_index := (-1)%Z |}.

Section Run.
Variables (context_len : nat) (rtg_target rtg_scale : Q)
  (num_eval_ep max_test_ep_len : nat)
  (state_mean state_std : list Q) (timesteps : list nat).

(** The body of [for t in range(max_test_ep_len)]; the flag tells whether the
    loop breaks. *)
Definition eval_step (t : nat) (ep : episode) (tot : totals)
  : prog (episode * totals * bool) :=
  let total_timesteps := total_timesteps tot + 1 in
  let tot := {| total_reward := total_reward tot; total_timesteps := total_timesteps |} in
  let actions := buf_actions (ep_rollout ep) in
  let states := buf_states (ep_rollout ep) in
  let rewards_to_go := buf_rewards_to_go (ep_rollout ep) in
  let states := <[t := running_state ep]> states in
  let states := <[t := normalize_state state_mean state_std (default [] (states !! t))]> states in
  let! scaled := lift (py_div (running_reward ep) rtg_scale) in
  let running_rtg := (running_rtg ep - scaled)%Q in
  let rewards_to_go := <[t := running_rtg]> rewards_to_go in
  let r := {| buf_actions := actions; buf_states := states;
              buf_rewards_to_go := rewards_to_go |} in
  let! act := do_forward (select_context context_len timesteps (running_state ep) r t) in
  let! (running_state, running_reward, terminated, truncated) := do_step act in
  let actions := <[t := act]> actions in
  let total_reward := (total_reward tot + running_reward)%Q in
  let tot := {| total_reward := total_reward; total_timesteps := total_timesteps |} in
  let ep := {| ep_rollout := {| buf_actions := actions; buf_states := states;
                                buf_rewards_to_go := rewards_to_go |};
               running_state := running_state; running_reward := running_reward;
               running_rtg := running_rtg |} in
  ret (ep, tot, terminated || truncated).

(** [for t in ts: ...], left at the first [break]. *)
Fixpoint eval_steps (ts : list nat) (ep : episode) (tot : totals) : prog totals :=
  match ts with
  | [] => ret tot
  | t :: ts =>
      let! (ep, tot, stop) := eval_step t ep tot in
      if (stop : bool) then ret tot else eval_steps ts ep tot
  end.

(** The body of [for _ in range(num_eval_ep)]. *)
Definition eval_episode (act_dim state_dim : nat) (tot : totals) : prog totals :=
  let actions := replicate max_test_ep_len (replicate act_dim 0%Q) in
  let states := replicate max_test_ep_len (replicate state_dim 0%Q) in
  let rewards_to_go := replicate max_test_ep_len 0%Q in
  let! running_state := do_reset in
  let running_reward := 0%Q in
  let! running_rtg := lift (py_div rtg_target rtg_scale) in
  eval_steps (seq 0 max_test_ep_len)
    {| ep_rollout := {| buf_actions := actions; buf_states := states;
                        buf_rewards_to_go := rewards_to_go |};
       running_state := running_state; running_reward := running_reward;
       running_rtg := running_rtg |}
    tot.

Fixpoint eval_episodes (n : nat) (act_dim state_dim : nat) (tot : totals)
  : prog totals :=
  match n with
  | 0 => ret tot
  | S n =>
      let! tot := eval_episode act_dim state_dim tot in
      eval_episodes n act_dim state_dim tot
  end.

End Run.

Definition evaluate_on_env (context_len : nat) (rtg_target rtg_scale : Q)
    (num_eval_ep max_test_ep_len : nat)
    (state_mean state_std : option (list Q)) (discrete_action : bool)
  : prog results :=
  let state_dim := observation_shape in
  let act_dim := if discrete_action then 1 else action_shape in
  let state_mean := state_mean_or_zeros state_mean in
  let state_std := state_std_or_ones state_std in
  let timesteps := seq 0 max_test_ep_len in
  let! tot :=
    eval_episodes context_len rtg_target rtg_scale max_test_ep_len
      state_mean state_std timesteps num_eval_ep act_dim state_dim
      {| total_reward := 0%Q; total_timesteps := 0 |} in
  let! avg_score :=
    lift (py_div (total_reward tot) (inject_Z (Z.of_nat num_eval_ep))) in
  let! avg_ep_len :=
    lift (py_div (inject_Z (Z.of_nat (total_timesteps tot)))
            (inject_Z (Z.of_nat num_eval_ep))) in
  ret {| avg_score := avg_score; avg_ep_len := avg_ep_len |}.

End Evaluator.

Arguments w_env {Env} _.
Arguments w_trace {Env} _.
Arguments Build_world {Env} _ _.
Arguments emit {Env} _ _.

(** *** The events of an evaluation *)

(** The rewards of the environment steps, in order. *)
Definition step_reward (e : event) : option Q :=
  match e with
  | EvStep _ _ reward _ _ => Some reward
  | _ => None
  end.

Definition step_rewards (evs : list event) : list Q := omap step_reward evs.

(** The initial states of the episodes begun, in order. *)
Definition reset_state (e : event) : option (list Q) :=
  match e with
  | EvReset state => Some state
  | _ => None
  end.

Definition reset_states (evs : list event) : list (list Q) := omap reset_state evs.

(** The state that the environment returned last, starting from [s]. *)
Definition current_state (s : list Q) (evs : list event) : list Q :=
  foldl (fun s e => match e with
                    | EvReset state => state
                    | EvForward _ => s
                    | EvStep _ state _ _ _ => state
                    end) s evs.

(** The number of environment steps since the last reset, counting from
    [n]. *)
Definition steps_since_reset (n : nat) (evs : list event) : nat :=
  foldl (fun n e => match e with
                    | EvReset _ => 0
                    | EvForward _ => n
                    | EvStep _ _ _ _ _ => S n
                    end) n evs.

Section Trace.
Variable forward : list nat -> list (list Q) -> list (list Q) -> list Q -> list (list Q).
Variables (context_len max_test_ep_len : nat) (state_mean state_std : list Q).

(** [act_preds] of a call. *)
Definition predictions (call : forward_call) : list (list Q) :=
  forward (fc_timesteps call) (fc_states call) (fc_actions call)
    (fc_rewards_to_go call).

(** A call as [eval_step] makes it at step [t]: the placeholders have
    [max_test_ep_len] rows, the normalized state and the return-to-go of the
    step have been written at row [t], and the window and the position are
    those of [select_context]. *)
Definition made_call (t : nat) (call : forward_call) : Prop :=
  exists running_state actions states rewards_to_go running_rtg,
    t < max_test_ep_len
    /\ length actions = max_test_ep_len
    /\ length states = max_test_ep_len
    /\ length rewards_to_go = max_test_ep_len
    /\ call =
         select_context context_len (seq 0 max_test_ep_len) running_state
           {| buf_actions := actions;
              buf_states :=
                <[t := normalize_state state_mean state_std running_state]> states;
              buf_rewards_to_go := <[t := running_rtg]> rewards_to_go |}
           t.

(** The events of completed steps: every environment step follows the call
    of its step and takes the action read from it; the call is made on the
    state that the environment returned last; the steps of an episode are
    numbered from [0].  [steps_ok n s evs m s']: after [n] steps of the
    current episode, in the state [s], the events [evs] leave [m] steps
    done and the state [s']. *)
Inductive steps_ok : nat -> list Q -> list event -> nat -> list Q -> Prop :=
  | steps_ok_nil n s : steps_ok n s [] n s
  | steps_ok_reset n s state evs m s' :
      steps_ok 0 state evs m s' -> steps_ok n s (EvReset state :: evs) m s'
  | steps_ok_step n s call act state reward terminated truncated evs m s' :
      made_call n call ->
      fc_running_state call = s ->
      py_getitem (predictions call) (fc_index call) = Ok act ->
      steps_ok (S n) state evs m s' ->
      steps_ok n s
        (EvForward call :: EvStep act state reward terminated truncated :: evs) m s'.

(** A call whose read of [act_preds] failed ends the events. *)
Definition dangling (m : nat) (s : list Q) (tail : list event) : Prop :=
  tail = []
  \/ exists call, tail = [EvForward call] /\ made_call m call
                  /\ fc_running_state call = s.

End Trace.

(** The placeholders of an episode have [max_test_ep_len] rows. *)
Definition episode_ok (max_test_ep_len : nat) (ep : episode) : Prop :=
  length (buf_actions (ep_rollout ep)) = max_test_ep_len
  /\ length (buf_states (ep_rollout ep)) = max_test_ep_len
  /\ length (buf_rewards_to_go (ep_rollout ep)) = max_test_ep_len.

(** [tot] after the environment steps of [evs]. *)
Definition add_steps (tot : totals) (evs : list event) : totals :=
  {| total_reward := foldl Qplus (total_reward tot) (step_rewards evs);
     total_timesteps := total_timesteps tot + length (step_rewards evs) |}.

(** The contract of the policy: one prediction per position of the
    window. *)
Definition policy_contract
    (forward : list nat -> list (list Q) -> list (list Q) -> list Q -> list (list Q))
  : Prop :=
  forall timesteps states actions rewards_to_go,
    length (forward timesteps states actions rewards_to_go) = length timesteps.

(** *** A stub environment and a stub policy *)

(** The environment counts its steps; every step has reward [1], and the
    fourth step of an episode terminates it. *)
Definition stub_reset (steps : nat) : list Q * nat := ([0%Q], 0).

Definition stub_step (steps : nat) (act : list Q)
  : (list Q * Q * bool * bool) * nat :=
  (([inject_Z (Z.of_nat (S steps))], 1%Q, Nat.eqb (S steps) 4, false), S steps).

(** The policy predicts, at every position, the state of that position. *)
Definition stub_forward (timesteps : list nat) (states actions : list (list Q))
    (rewards_to_go : list Q) : list (list Q) :=
  take (length timesteps) (states ++ replicate (length timesteps) []).

(** ** Invariants and example inputs *)

(** What the reverse scan of [discount_cumsum] has established once it has
    filled the positions from [k] on. *)
Record scanned (x : list Q) (gamma : Q) (k : nat) (d : list Q) : Prop := {
  scanned_length : length d = length x;
  scanned_last : d !! (length x - 1) = x !! (length x - 1);
  scanned_rec : forall t, k <= t -> t + 1 < length x ->
    d !! t = Some (at_index x t + gamma * at_index d (t + 1))%Q
}.

(** A trajectory of length [L]: its sequences are present and share the
    length [L]. *)
Record traj_of_length (traj : trajectory) (L : nat)
    (obs acts : list (list Q)) (rtg : list Q) : Prop := {
  tl_observations : observations traj = Some obs;
  tl_actions : actions traj = Some acts;
  tl_returns_to_go : returns_to_go traj = Some rtg;
  tl_obs_length : length obs = L;
  tl_acts_length : length acts = L;
  tl_rtg_length : length rtg = L
}.

Definition example_dataset : D4RLTrajectoryDataset :=
  {| context_len := 2; discrete_action := false;
     trajectories :=
       [ {| observations := Some [[1]; [2]; [3]]%Q;
            actions := Some [[4]; [5]; [6]]%Q;
            rewards := Some [1; 1; 1]%Q;
            returns_to_go := Some [3; 2; 1]%Q |} ];
     state_mean := [0]%Q; state_std := [1]%Q |}.

Definition example_short_dataset : D4RLTrajectoryDataset :=
  {| context_len := 8; discrete_action := false;
     trajectories :=
       [ {| observations := Some [[1; 2]; [3; 4]; [5; 6]]%Q;
            actions := Some [[7]; [8]; [9]]%Q;
            rewards := Some [1; 1; 1]%Q;
            returns_to_go := Some [3; 2; 1]%Q |} ];
     state_mean := [0; 0]%Q; state_std := [1; 1]%Q |}.

(** The record [__init__] leaves for a pickled record [traj0]: the
    returns-to-go of its rewards with discount [1], divided by [rtg_scale],
    and its observations normalized with [mean] and [std]; the other keys
    are kept. *)
Definition stored (rtg_scale : Q) (mean std : list Q)
    (traj0 traj : trajectory) : Prop :=
  exists obs rews disc,
    observations traj0 = Some obs
    /\ rewards traj0 = Some rews
    /\ discount_cumsum rews 1 = Ok disc
    /\ traj = {| observations := Some (normalize_observations mean std obs);
                 actions := actions traj0;
                 rewards := Some rews;
                 returns_to_go := Some (array_div_scalar disc rtg_scale) |}.

(** A record that [__init__] can process: ['observations'] is present, its
    rows have [width] features, and ['rewards'] is present and not empty. *)
Definition loadable (width : nat) (traj : trajectory) : Prop :=
  (exists obs, observations traj = Some obs
               /\ Forall (fun row => length row = width) obs)
  /\ exists rews, rewards traj = Some rews /\ rews <> [].

(** [np.mean(a, axis=0)], computed exactly. *)
Definition column (a : list (list Q)) (j : nat) : list Q :=
  (fun row => at_index row j) <$> a.

Definition mean_of (c : list Q) : Q :=
  (tensor_sum c / inject_Z (Z.of_nat (length c)))%Q.

Definition np_mean_exact (a : list (list Q)) : list Q :=
  (fun j => mean_of (column a j)) <$> seq 0 (row_shape a).

(** [np.std(a, axis=0)] for inputs whose variances are squares of rationals:
    the root is exact there. *)
Definition sqrt_of_square (q : Q) : Q :=
  Z.sqrt (Qnum (Qred q)) # Pos.sqrt (Qden (Qred q)).

Definition std_of (c : list Q) : Q :=
  sqrt_of_square (mean_of ((fun v => (v - mean_of c) * (v - mean_of c))%Q <$> c)).

Definition np_std_exact (a : list (list Q)) : list Q :=
  (fun j => std_of (column a j)) <$> seq 0 (row_shape a).

(** A collection of two complete records. *)
Definition example_pickled : list trajectory :=
  [ {| observations := Some [[1]; [3]; [1]]%Q;
       actions := Some [[0]; [1]; [0]]%Q;
       rewards := Some [1; 1; 1]%Q;
       returns_to_go := None |};
    {| observations := Some [[3]]%Q;
       actions := Some [[1]]%Q;
       rewards := Some [1]%Q;
       returns_to_go := None |} ].

(** A record without ['actions'] whose observations and rewards differ in
    length. *)
Definition malformed_record : trajectory :=
  {| observations := Some [[1]; [3]]%Q;
     actions := None;
     rewards := Some [1; 1; 1]%Q;
     returns_to_go := None |}.

(** Reference score tables with one registered environment. *)
Definition example_ref_min : gmap string Q := {[ "hopper" := (-20)%Q ]}.
Definition example_ref_max : gmap string Q := {[ "hopper" := 3234%Q ]}.

(** Reference score tables whose one environment has equal bounds. *)
Definition flat_ref_min : gmap string Q := {[ "flat" := 5%Q ]}.
Definition flat_ref_max : gmap string Q := {[ "flat" := 5%Q ]}.

(** The stores that [__init__] builds from [example_pickled] and from
    [malformed_record], with [context_len = 2] and [rtg_scale = 1]. *)
Definition example_store : D4RLTrajectoryDataset :=
  {| context_len := 2; discrete_action := false;
     trajectories :=
       [ {| observations :=
              Some [[-4000000 # 4000004]; [4000000 # 4000004];
                    [-4000000 # 4000004]]%Q;
            actions := Some [[0]; [1]; [0]]%Q;
            rewards := Some [1; 1; 1]%Q;
            returns_to_go := Some [3; 2; 1]%Q |};
         {| observations := Some [[4000000 # 4000004]]%Q;
            actions := Some [[1]]%Q;
            rewards := Some [1]%Q;
            returns_to_go := Some [1]%Q |} ];
     state_mean := [8 # 4]%Q;
     state_std := [1000001 # 1000000]%Q |}.

Definition malformed_store : D4RLTrajectoryDataset :=
  {| context_len := 2; discrete_action := false;
     trajectories :=
       [ {| observations := Some [[-2000000 # 2000002]; [2000000 # 2000002]]%Q;
            actions := None;
            rewards := Some [1; 1; 1]%Q;
            returns_to_go := Some [3; 2; 1]%Q |} ];
     state_mean := [4 # 2]%Q;
     state_std := [1000001 # 1000000]%Q |}.

(** ** The remaining functions *)

(** [__len__] *)
Definition __len__ (self : D4RLTrajectoryDataset) : nat :=
  length (trajectories self).

Section DatasetStats.
(** [d4rl_infos.D4RL_DATASET_STATS] and the type of its entries. *)
Variable Stats : Type.
Variable D4RL_DATASET_STATS : gmap string Stats.

Definition get_d4rl_dataset_stats (env_d4rl_name : string) : result Stats :=
  getitem_key env_d4rl_name (D4RL_DATASET_STATS !! env_d4rl_name).

End DatasetStats.

(** ** Reference quantities *)

(** [q] to the power [n]. *)
Fixpoint Qpow (q : Q) (n : nat) : Q :=
  match n with
  | 0 => 1%Q
  | S n => (q * Qpow q n)%Q
  end.

(** The discounted return of a reward sequence:
    [r[0] + gamma * r[1] + gamma^2 * r[2] + ...]. *)
Definition discounted_return (gamma : Q) (r : list Q) : Q :=
  tensor_sum (imap (fun k r_k => (Qpow gamma k * r_k)%Q) r).

(** A record whose ['observations'] are present and whose ['rewards'] are
    present and not empty: the first loop of [__init__] passes it. *)
Definition readable (traj : trajectory) : Prop :=
  is_Some (observations traj)
  /\ exists rews, rewards traj = Some rews /\ rews <> [].

(** A record whose observations, actions and rewards are present and have
    one entry per time step. *)
Definition aligned (traj : trajectory) : Prop :=
  exists obs acts rews,
    observations traj = Some obs
    /\ actions traj = Some acts
    /\ rewards traj = Some rews
    /\ length acts = length obs
    /\ length rews = length obs.

(** Two records that differ at most in the key ['returns_to_go']. *)
Definition same_data (traj1 traj2 : trajectory) : Prop :=
  observations traj1 = observations traj2
  /\ actions traj1 = actions traj2
  /\ rewards traj1 = rewards traj2.

(** Rows of different widths, and a record with no reward. *)
Definition ragged_pickled : list trajectory :=
  [ {| observations := Some [[1]; [3]]%Q; actions := Some [[0]; [1]]%Q;
       rewards := Some [1; 1]%Q; returns_to_go := None |};
    {| observations := Some [[3; 4]]%Q; actions := Some [[1]]%Q;
       rewards := Some [1]%Q; returns_to_go := None |} ].

Definition empty_record : trajectory :=
  {| observations := Some []; actions := Some [];
     rewards := Some []; returns_to_go := None |}.

(** *** The history of an episode *)

(** The actions taken, the states observed (the initial one first) and the
    rewards received since the last reset, starting from [acc]. *)
Definition episode_actions (acc : list (list Q)) (evs : list event)
  : list (list Q) :=
  foldl (fun acc e => match e with
                      | EvReset _ => []
                      | EvForward _ => acc
                      | EvStep act _ _ _ _ => acc ++ [act]
                      end) acc evs.

Definition episode_states (acc : list (list Q)) (evs : list event)
  : list (list Q) :=
  foldl (fun acc e => match e with
                      | EvReset state => [state]
                      | EvForward _ => acc
                      | EvStep _ state _ _ _ => acc ++ [state]
                      end) acc evs.

Definition episode_rewards (acc : list Q) (evs : list event) : list Q :=
  foldl (fun acc e => match e with
                      | EvReset _ => []
                      | EvForward _ => acc
                      | EvStep _ _ reward _ _ => acc ++ [reward]
                      end) acc evs.

(** An event after which the episode goes on: a reset, or a step that
    neither terminated nor truncated it. *)
Definition may_continue (e : event) : bool :=
  match e with
  | EvReset _ => true
  | EvForward _ => false
  | EvStep _ _ _ terminated truncated => negb (terminated || truncated)
  end.

(** The calls of [evs], each with the events before it, after [pre]. *)
Definition calls_sat (P : list event -> forward_call -> Prop)
    (pre evs : list event) : Prop :=
  forall p call post, evs = p ++ EvForward call :: post -> P (pre ++ p) call.

Section History.
Variables (rtg_target rtg_scale : Q) (max_test_ep_len : nat)
  (state_mean state_std : list Q) (act_dim state_dim : nat).

(** The return still to be collected after [rewards], in units of
    [rtg_scale]. *)
Definition remaining_return (rewards : list Q) : Q :=
  ((rtg_target - tensor_sum rewards) / rtg_scale)%Q.

(** The placeholders at the call that follows the events [pre]: up to the
    current step they hold the history of the episode, after it zeros. *)
Record call_history (pre : list event) (call : forward_call) : Prop := {
  ch_step : length (episode_actions [] pre) = steps_since_reset 0 pre;
  ch_rewards : length (episode_rewards [] pre) = steps_since_reset 0 pre;
  ch_states : length (episode_states [] pre) = S (steps_since_reset 0 pre);
  ch_actions_past : forall k, k < steps_since_reset 0 pre ->
    buf_actions (fc_rollout call) !! k = episode_actions [] pre !! k;
  ch_actions_rest : forall k, steps_since_reset 0 pre <= k < max_test_ep_len ->
    buf_actions (fc_rollout call) !! k = Some (replicate act_dim 0%Q);
  ch_states_past : forall k, k <= steps_since_reset 0 pre ->
    is_Some (episode_states [] pre !! k)
    /\ buf_states (fc_rollout call) !! k
       = normalize_state state_mean state_std <$> episode_states [] pre !! k;
  ch_states_rest : forall k, steps_since_reset 0 pre < k < max_test_ep_len ->
    buf_states (fc_rollout call) !! k = Some (replicate state_dim 0%Q);
  ch_rtg_past : forall k, k <= steps_since_reset 0 pre ->
    exists v, buf_rewards_to_go (fc_rollout call) !! k = Some v
      /\ (v == remaining_return (take k (episode_rewards [] pre)))%Q;
  ch_rtg_rest : forall k, steps_since_reset 0 pre < k < max_test_ep_len ->
    buf_rewards_to_go (fc_rollout call) !! k = Some 0%Q;
  ch_previous : exists pre' e, pre = pre' ++ [e] /\ may_continue e = true
}.

(** The local variables at the head of the inner loop, before step [t],
    after the events [pre]. *)
Record loop_history (pre : list event) (t : nat) (ep : episode) : Prop := {
  lh_step : steps_since_reset 0 pre = t;
  lh_actions : length (episode_actions [] pre) = t;
  lh_rewards : length (episode_rewards [] pre) = t;
  lh_states : length (episode_states [] pre) = S t;
  lh_state : episode_states [] pre !! t = Some (running_state ep);
  lh_actions_past : forall k, k < t ->
    buf_actions (ep_rollout ep) !! k = episode_actions [] pre !! k;
  lh_actions_rest : forall k, t <= k < max_test_ep_len ->
    buf_actions (ep_rollout ep) !! k = Some (replicate act_dim 0%Q);
  lh_states_past : forall k, k < t ->
    buf_states (ep_rollout ep) !! k
    = normalize_state state_mean state_std <$> episode_states [] pre !! k;
  lh_states_rest : forall k, t <= k < max_test_ep_len ->
    buf_states (ep_rollout ep) !! k = Some (replicate state_dim 0%Q);
  lh_rtg_past : forall k, k < t ->
    exists v, buf_rewards_to_go (ep_rollout ep) !! k = Some v
      /\ (v == remaining_return (take k (episode_rewards [] pre)))%Q;
  lh_rtg_rest : forall k, t <= k < max_test_ep_len ->
    buf_rewards_to_go (ep_rollout ep) !! k = Some 0%Q;
  lh_running : (running_rtg ep - running_reward ep / rtg_scale
                == remaining_return (episode_rewards [] pre))%Q;
  lh_previous : exists pre' e, pre = pre' ++ [e] /\ may_continue e = true;
  lh_ok : episode_ok max_test_ep_len ep
}.


End History.

(** *** The shape of a run *)


Section Shape.
Variable forward : list nat -> list (list Q) -> list (list Q) -> list Q -> list (list Q).
Variable max_test_ep_len : nat.



End Shape.

(** *** An environment that replays a trajectory *)

(** The reset returns the first row of [obs]; step [k] returns row [k + 1]
    with reward [1] and terminates the episode at the last row. *)
Definition replay_reset (obs : list (list Q)) (position : nat) : list Q * nat :=
  (default [] (obs !! 0), 0).

Definition replay_step (obs : list (list Q)) (position : nat) (act : list Q)
  : (list Q * Q * bool * bool) * nat :=
  ((default [] (obs !! S position), 1%Q, Nat.eqb (S (S position)) (length obs), false),
   S position).

(** * Part II: properties *)

(** ** Python indexing *)

Lemma py_index_nonneg (n i : nat) :
  i < n -> py_index n (Z.of_nat i) = Ok i.
Proof.
  intros H. unfold py_index. rewrite decide_True by lia. by rewrite Nat2Z.id.
Qed.

Lemma py_index_last (n : nat) :
  0 < n -> py_index n (-1) = Ok (n - 1).
Proof.
  intros H. unfold py_index.
  rewrite decide_False by lia. rewrite decide_True by lia.
  f_equal. lia.
Qed.

Lemma py_getitem_nonneg {A : Type} (a : list A) (i : nat) (v : A) :
  a !! i = Some v -> py_getitem a (Z.of_nat i) = Ok v.
Proof.
  intros H. unfold py_getitem.
  rewrite py_index_nonneg by (by eapply lookup_lt_Some). simpl. by rewrite H.
Qed.

Lemma py_getitem_last {A : Type} (a : list A) (v : A) :
  last a = Some v -> py_getitem a (-1) = Ok v.
Proof.
  intros H. rewrite last_lookup in H.
  assert (0 < length a) by (apply lookup_lt_Some in H; lia).
  unfold py_getitem. rewrite py_index_last by done. simpl.
  replace (length a - 1) with (Init.Nat.pred (length a)) by lia. by rewrite H.
Qed.

Lemma py_setitem_last {A : Type} (a : list A) (v : A) :
  0 < length a -> py_setitem a (-1) v = Ok (<[length a - 1 := v]> a).
Proof. intros H. unfold py_setitem. by rewrite py_index_last. Qed.

Lemma slice_length {A : Type} (lo hi : nat) (a : list A) :
  hi <= length a -> length (slice lo hi a) = hi - lo.
Proof. intros H. unfold slice. rewrite length_take, length_drop. lia. Qed.

Lemma slice_all {A : Type} (n : nat) (a : list A) :
  length a <= n -> slice 0 n a = a.
Proof. intros H. unfold slice. rewrite drop_0. apply take_ge. lia. Qed.

(** ** discount_cumsum *)

Lemma scanned_step x gamma k d :
  S k < length x -> scanned x gamma (S k) d ->
  scanned x gamma k (discount_step x gamma d k).
Proof.
  intros Hk [Hlen Hlast Hrec]. unfold discount_step. split.
  - by rewrite length_insert.
  - rewrite list_lookup_insert_ne; [done | lia].
  - intros t Hkt Ht. destruct (decide (t = k)) as [->|Hne].
    + rewrite list_lookup_insert_eq by lia.
      unfold at_index. rewrite list_lookup_insert_ne; [done | lia].
    + rewrite list_lookup_insert_ne by lia.
      rewrite Hrec by lia. unfold at_index.
      rewrite list_lookup_insert_ne; [done | lia].
Qed.

Lemma scanned_loop x gamma n d :
  n < length x -> scanned x gamma n d ->
  scanned x gamma 0 (foldl (discount_step x gamma) d (reverse (seq 0 n))).
Proof.
  revert d. induction n as [|n IH]; intros d Hn Hd; [done|].
  rewrite seq_S, reverse_app. simpl.
  apply IH; [lia|]. by apply scanned_step.
Qed.

Lemma scanned_init x gamma x_last :
  last x = Some x_last ->
  scanned x gamma (length x - 1)
    (<[length x - 1 := x_last]> (replicate (length x) 0%Q)).
Proof.
  intros Hl. rewrite last_lookup in Hl.
  assert (length x - 1 < length x) by (apply lookup_lt_Some in Hl; lia).
  replace (Init.Nat.pred (length x)) with (length x - 1) in Hl by lia.
  split.
  - by rewrite length_insert, length_replicate.
  - rewrite list_lookup_insert_eq; [done | by rewrite length_replicate].
  - intros t ? ?. lia.
Qed.

(** The scan succeeds exactly on non-empty input, and its output satisfies
    the recurrence everywhere. *)
Lemma discount_cumsum_scanned x gamma :
  x <> [] -> exists g, discount_cumsum x gamma = Ok g /\ scanned x gamma 0 g.
Proof.
  intros Hne. unfold discount_cumsum.
  destruct (last x) as [x_last|] eqn:Hl.
  2:{ by apply last_None in Hl. }
  assert (0 < length x) by (destruct x; simpl in *; [done | lia]).
  rewrite (py_getitem_last _ _ Hl). simpl.
  rewrite py_setitem_last by (by rewrite length_replicate). simpl.
  rewrite length_replicate. eexists. split; [done|].
  apply scanned_loop; [lia|]. by apply scanned_init.
Qed.

Lemma discount_cumsum_empty gamma : discount_cumsum [] gamma = Raise IndexError.
Proof. reflexivity. Qed.

(** C4. For a non-empty reward sequence [x] of length [L] and any discount
    factor [gamma], [discount_cumsum] returns an array [g] of length [L] with
    [g[L-1] = x[L-1]] and [g[t] = x[t] + gamma * g[t+1]] for every
    [t < L-1]. *)
Theorem discount_cumsum_recurrence (x : list Q) (gamma : Q) :
  x <> [] ->
  exists g, discount_cumsum x gamma = Ok g
    /\ length g = length x
    /\ g !! (length x - 1) = x !! (length x - 1)
    /\ forall t x_t g_t1, t + 1 < length x ->
         x !! t = Some x_t -> g !! (t + 1) = Some g_t1 ->
         g !! t = Some (x_t + gamma * g_t1)%Q.
Proof.
  intros Hne.
  destruct (discount_cumsum_scanned x gamma Hne) as (g & Hg & [Hlen Hlast Hrec]).
  exists g. repeat split; try done.
  intros t x_t g_t1 Ht Hx Hg1. rewrite Hrec by lia.
  unfold at_index. by rewrite Hx, Hg1.
Qed.

Lemma discount_cumsum_recurrence_witness :
  exists g, discount_cumsum [1; 2; 3]%Q (1 # 2)%Q = Ok g
    /\ length g = 3
    /\ g !! 2 = Some 3%Q
    /\ forall t x_t g_t1, t + 1 < 3 ->
         [1; 2; 3]%Q !! t = Some x_t -> g !! (t + 1) = Some g_t1 ->
         g !! t = Some (x_t + (1 # 2) * g_t1)%Q.
Proof.
  apply (discount_cumsum_recurrence [1; 2; 3]%Q (1 # 2)%Q). discriminate.
Defined.

(** ** Window extraction *)

Lemma inject_Z_plus_1 (k : Z) : (inject_Z k + 1)%Q = inject_Z (k + 1).
Proof. unfold Qplus, inject_Z. simpl. f_equal. lia. Qed.

Lemma inject_Z_plus_0 (k : Z) : (inject_Z k + 0)%Q = inject_Z k.
Proof. unfold Qplus, inject_Z. simpl. f_equal. lia. Qed.

Lemma foldl_Qplus_ones (n : nat) (k : Z) :
  foldl Qplus (inject_Z k) (replicate n 1%Q) = inject_Z (k + Z.of_nat n).
Proof.
  revert k. induction n as [|n IH]; intros k; simpl.
  - f_equal. lia.
  - rewrite inject_Z_plus_1, IH. f_equal. lia.
Qed.

Lemma foldl_Qplus_zeros (n : nat) (k : Z) :
  foldl Qplus (inject_Z k) (replicate n 0%Q) = inject_Z k.
Proof.
  induction n as [|n IH]; simpl; [done|]. by rewrite inject_Z_plus_0.
Qed.

Lemma tensor_sum_mask (n m : nat) :
  tensor_sum (replicate n 1%Q ++ replicate m 0%Q) = inject_Z (Z.of_nat n).
Proof.
  unfold tensor_sum. rewrite foldl_app.
  change 0%Q with (inject_Z 0) at 1.
  rewrite foldl_Qplus_ones. simpl. apply foldl_Qplus_zeros.
Qed.

Lemma getitem_unfold self idx traj obs :
  py_getitem (trajectories self) idx = Ok traj ->
  observations traj = Some obs ->
  __getitem__ self idx =
    if decide (context_len self <= length obs) then
      getitem_at (context_len self) traj
        <$> randint 0 (length obs - context_len self)
    else [getitem_padded (context_len self) (length obs) traj].
Proof. intros Ht Ho. unfold __getitem__. by rewrite Ht, Ho. Qed.

(** C2. For a trajectory of length [L >= context_len], [__getitem__] draws
    the start offset [si] uniformly from [0 .. L - context_len] (the equally
    likely outcomes are one for each of these offsets) and returns the slices
    [[si, si + context_len)] of the stored observations, actions and
    returns-to-go, the timesteps [si, ..., si + context_len - 1] and a mask
    of ones.  When [L = context_len] the only outcome is the whole trajectory
    at offset [0], unmasked. *)
Theorem getitem_window_of_long_trajectory
    (self : D4RLTrajectoryDataset) (idx : Z) (traj : trajectory) (L : nat)
    (obs acts : list (list Q)) (rtg : list Q) :
  py_getitem (trajectories self) idx = Ok traj ->
  traj_of_length traj L obs acts rtg ->
  context_len self <= L ->
  let ctx := context_len self in
  __getitem__ self idx =
    (fun si => Ok {| w_timesteps := seq si ctx;
                     w_states := slice si (si + ctx) obs;
                     w_actions := slice si (si + ctx) acts;
                     w_returns_to_go := slice si (si + ctx) rtg;
                     w_traj_mask := replicate ctx 1%Q |})
      <$> randint 0 (L - ctx)
  /\ (NoDup (randint 0 (L - ctx))
      /\ forall si, si ∈ randint 0 (L - ctx) <-> si <= L - ctx)
  /\ (forall si, si <= L - ctx ->
        length (slice si (si + ctx) obs) = ctx
        /\ length (slice si (si + ctx) acts) = ctx
        /\ length (slice si (si + ctx) rtg) = ctx)
  /\ (L = ctx ->
      __getitem__ self idx =
        [Ok {| w_timesteps := seq 0 ctx; w_states := obs; w_actions := acts;
               w_returns_to_go := rtg; w_traj_mask := replicate ctx 1%Q |}]).
Proof.
  intros Hidx [Ho Ha Hr Hlo Hla Hlr] Hctx ctx.
  assert (Hget : __getitem__ self idx =
    (fun si => Ok {| w_timesteps := seq si ctx;
                     w_states := slice si (si + ctx) obs;
                     w_actions := slice si (si + ctx) acts;
                     w_returns_to_go := slice si (si + ctx) rtg;
                     w_traj_mask := replicate ctx 1%Q |})
      <$> randint 0 (L - ctx)).
  { rewrite (getitem_unfold _ _ _ _ Hidx Ho), Hlo.
    rewrite decide_True by done.
    apply list_fmap_ext. intros _ si _.
    unfold getitem_at. by rewrite Ho, Ha, Hr. }
  split; [done|]. split; [|split].
  - unfold randint. split; [apply NoDup_seq|].
    intros si. rewrite elem_of_seq. lia.
  - intros si Hsi.
    rewrite !slice_length by lia. lia.
  - intros ->. rewrite Hget. unfold randint.
    replace (S (ctx - ctx) - 0) with 1 by lia. simpl.
    by rewrite !slice_all by lia.
Qed.

Lemma getitem_window_of_long_trajectory_witness :
  __getitem__ example_dataset 0 =
    [ Ok {| w_timesteps := [0; 1]; w_states := [[1]; [2]]%Q;
            w_actions := [[4]; [5]]%Q; w_returns_to_go := [3; 2]%Q;
            w_traj_mask := [1; 1]%Q |};
      Ok {| w_timesteps := [1; 2]; w_states := [[2]; [3]]%Q;
            w_actions := [[5]; [6]]%Q; w_returns_to_go := [2; 1]%Q;
            w_traj_mask := [1; 1]%Q |} ].
Proof.
  refine (proj1 (getitem_window_of_long_trajectory example_dataset 0 _ 3
                   [[1]; [2]; [3]]%Q [[4]; [5]; [6]]%Q [3; 2; 1]%Q _ _ _)).
  - reflexivity.
  - split; reflexivity.
  - simpl. lia.
Defined.

(** C3. For a trajectory of length [L < context_len], [__getitem__] has one
    outcome: sequences of length [context_len] whose first [L] positions are
    the stored trajectory and whose padded positions are zero, the mask
    [L] ones followed by [context_len - L] zeros (summing to [L]), and the
    timesteps [0, 1, ..., context_len - 1]. *)
Theorem getitem_window_of_short_trajectory
    (self : D4RLTrajectoryDataset) (idx : Z) (traj : trajectory) (L : nat)
    (obs acts : list (list Q)) (rtg : list Q) :
  py_getitem (trajectories self) idx = Ok traj ->
  traj_of_length traj L obs acts rtg ->
  L < context_len self ->
  let ctx := context_len self in
  exists w, __getitem__ self idx = [Ok w]
    /\ (length (w_timesteps w) = ctx /\ length (w_states w) = ctx
        /\ length (w_actions w) = ctx /\ length (w_returns_to_go w) = ctx
        /\ length (w_traj_mask w) = ctx)
    /\ (take L (w_states w) = obs /\ take L (w_actions w) = acts
        /\ take L (w_returns_to_go w) = rtg)
    /\ (forall i row, L <= i -> w_states w !! i = Some row ->
          row = replicate (row_shape obs) 0%Q)
    /\ (forall i row, L <= i -> w_actions w !! i = Some row ->
          row = replicate (row_shape acts) 0%Q)
    /\ (forall i v, L <= i -> w_returns_to_go w !! i = Some v -> v = 0%Q)
    /\ w_traj_mask w = replicate L 1%Q ++ replicate (ctx - L) 0%Q
    /\ tensor_sum (w_traj_mask w) = inject_Z (Z.of_nat L)
    /\ w_timesteps w = seq 0 ctx.
Proof.
  intros Hidx [Ho Ha Hr Hlo Hla Hlr] Hctx ctx.
  rewrite (getitem_unfold _ _ _ _ Hidx Ho), Hlo.
  rewrite decide_False by lia.
  unfold getitem_padded. rewrite Ho, Ha, Hr. simpl.
  eexists. split; [reflexivity|]. simpl. unfold zeros_like_rows.
  repeat split.
  - by rewrite length_seq.
  - rewrite length_app, length_replicate. subst ctx. lia.
  - rewrite length_app, length_replicate. subst ctx. lia.
  - rewrite length_app, length_replicate. subst ctx. lia.
  - rewrite length_app, !length_replicate. subst ctx. lia.
  - by rewrite take_app_length' by done.
  - by rewrite take_app_length' by done.
  - by rewrite take_app_length' by done.
  - intros i row Hi Hrow. rewrite lookup_app_r in Hrow by lia.
    by apply lookup_replicate in Hrow as [-> _].
  - intros i row Hi Hrow. rewrite lookup_app_r in Hrow by lia.
    by apply lookup_replicate in Hrow as [-> _].
  - intros i v Hi Hv. rewrite lookup_app_r in Hv by lia.
    by apply lookup_replicate in Hv as [-> _].
  - apply tensor_sum_mask.
Qed.

Lemma getitem_window_of_short_trajectory_witness :
  exists w, __getitem__ example_short_dataset 0 = [Ok w]
    /\ (length (w_timesteps w) = 8 /\ length (w_states w) = 8
        /\ length (w_actions w) = 8 /\ length (w_returns_to_go w) = 8
        /\ length (w_traj_mask w) = 8)
    /\ (take 3 (w_states w) = [[1; 2]; [3; 4]; [5; 6]]%Q
        /\ take 3 (w_actions w) = [[7]; [8]; [9]]%Q
        /\ take 3 (w_returns_to_go w) = [3; 2; 1]%Q)
    /\ (forall i row, 3 <= i -> w_states w !! i = Some row -> row = [0; 0]%Q)
    /\ (forall i row, 3 <= i -> w_actions w !! i = Some row -> row = [0]%Q)
    /\ (forall i v, 3 <= i -> w_returns_to_go w !! i = Some v -> v = 0%Q)
    /\ w_traj_mask w = [1; 1; 1; 0; 0; 0; 0; 0]%Q
    /\ tensor_sum (w_traj_mask w) = 3%Q
    /\ w_timesteps w = [0; 1; 2; 3; 4; 5; 6; 7].
Proof.
  refine (getitem_window_of_short_trajectory example_short_dataset 0 _ 3
            [[1; 2]; [3; 4]; [5; 6]]%Q [[7]; [8]; [9]]%Q [3; 2; 1]%Q _ _ _).
  - reflexivity.
  - split; reflexivity.
  - simpl. lia.
Defined.

(** ** get_d4rl_normalized_score *)

Lemma py_div_nonzero (a b : Q) : ~ (b == 0)%Q -> py_div a b = Ok (a / b)%Q.
Proof.
  intros Hb. unfold py_div.
  destruct (Qeq_bool b 0) eqn:E; [|done].
  by apply Qeq_bool_eq in E.
Qed.

Lemma py_div_zero (a b : Q) : (b == 0)%Q -> py_div a b = Raise ZeroDivisionError.
Proof. intros Hb. unfold py_div. by rewrite (Qeq_eq_bool _ _ Hb). Qed.

Lemma np_div_nonzero (a b : Q) : ~ (b == 0)%Q -> np_div a b = Finite (a / b)%Q.
Proof.
  intros Hb. unfold np_div.
  destruct (Qeq_bool b 0) eqn:E; [|done].
  by apply Qeq_bool_eq in E.
Qed.

Lemma np_div_zero (a b : Q) :
  (b == 0)%Q ->
  np_div a b = if Qeq_bool a 0 then NaN else Infinity (negb (Qle_bool a 0)).
Proof. intros Hb. unfold np_div. by rewrite (Qeq_eq_bool _ _ Hb). Qed.

Lemma Qminus_zero_eq (a b : Q) : (a - b == 0)%Q -> (a == b)%Q.
Proof.
  intros H. assert (E : (a == (a - b) + b)%Q) by ring.
  rewrite E, H. ring.
Qed.

Lemma scalar_value_sub (a : scalar) (b : Q) :
  scalar_value (scalar_sub a b) = (scalar_value a - b)%Q.
Proof. by destruct a. Qed.

Lemma scalar_div_nonzero (a : scalar) (b : Q) :
  ~ (b == 0)%Q -> scalar_div a b = Ok (Finite (scalar_value a / b)%Q).
Proof.
  intros Hb. destruct a as [a|a]; simpl.
  - by rewrite py_div_nonzero.
  - by rewrite np_div_nonzero.
Qed.

Lemma normalized_score_registered REF_MIN_SCORE REF_MAX_SCORE score env_name ref_min ref_max :
  REF_MIN_SCORE !! env_name = Some ref_min ->
  REF_MAX_SCORE !! env_name = Some ref_max ->
  get_d4rl_normalized_score REF_MIN_SCORE REF_MAX_SCORE score env_name
    = scalar_div (scalar_sub score ref_min) (ref_max - ref_min).
Proof.
  intros Hmin Hmax. unfold get_d4rl_normalized_score. by rewrite Hmin, Hmax.
Qed.

Lemma normalized_score_value REF_MIN_SCORE REF_MAX_SCORE score env_name ref_min ref_max :
  REF_MIN_SCORE !! env_name = Some ref_min ->
  REF_MAX_SCORE !! env_name = Some ref_max ->
  ~ (ref_max == ref_min)%Q ->
  get_d4rl_normalized_score REF_MIN_SCORE REF_MAX_SCORE score env_name
    = Ok (Finite ((scalar_value score - ref_min) / (ref_max - ref_min))%Q).
Proof.
  intros Hmin Hmax Hne.
  rewrite (normalized_score_registered _ _ _ _ _ _ Hmin Hmax).
  rewrite scalar_div_nonzero, scalar_value_sub; [done|].
  intros H. apply Hne. by apply Qminus_zero_eq.
Qed.

Lemma normalized_score_python_equal REF_MIN_SCORE REF_MAX_SCORE score env_name ref_min ref_max :
  REF_MIN_SCORE !! env_name = Some ref_min ->
  REF_MAX_SCORE !! env_name = Some ref_max ->
  (ref_max == ref_min)%Q ->
  get_d4rl_normalized_score REF_MIN_SCORE REF_MAX_SCORE (PyNumber score) env_name
    = Raise ZeroDivisionError.
Proof.
  intros Hmin Hmax Heq.
  rewrite (normalized_score_registered _ _ _ _ _ _ Hmin Hmax). simpl.
  rewrite py_div_zero; [done|]. rewrite Heq. ring.
Qed.

Lemma normalized_score_numpy_equal REF_MIN_SCORE REF_MAX_SCORE score env_name ref_min ref_max :
  REF_MIN_SCORE !! env_name = Some ref_min ->
  REF_MAX_SCORE !! env_name = Some ref_max ->
  (ref_max == ref_min)%Q ->
  get_d4rl_normalized_score REF_MIN_SCORE REF_MAX_SCORE (NpNumber score) env_name
    = Ok (if Qeq_bool (score - ref_min) 0 then NaN
          else Infinity (negb (Qle_bool (score - ref_min) 0))).
Proof.
  intros Hmin Hmax Heq.
  rewrite (normalized_score_registered _ _ _ _ _ _ Hmin Hmax). simpl.
  rewrite np_div_zero; [done|]. rewrite Heq. ring.
Qed.

(** C9, as the code has it.  For an environment whose registered reference
    scores differ, [get_d4rl_normalized_score] returns
    [(score - ref_min) / (ref_max - ref_min)], which is [0] at
    [score = ref_min] and [1] at [score = ref_max].  When the registered
    reference scores are equal it returns no such value: a Python number
    as score raises [ZeroDivisionError], a numpy scalar gives [nan] or an
    infinity.  For an environment that one of the tables does not list, it
    fails with the [KeyError] of that environment name. *)
Theorem normalized_score_contract
    (REF_MIN_SCORE REF_MAX_SCORE : gmap string Q) (env_name : string) :
  (forall ref_min ref_max,
     REF_MIN_SCORE !! env_name = Some ref_min ->
     REF_MAX_SCORE !! env_name = Some ref_max ->
     (~ (ref_max == ref_min)%Q ->
        (forall score,
           get_d4rl_normalized_score REF_MIN_SCORE REF_MAX_SCORE score env_name
             = Ok (Finite ((scalar_value score - ref_min) / (ref_max - ref_min))%Q))
        /\ (forall score, scalar_value score = ref_min ->
              exists v,
                get_d4rl_normalized_score REF_MIN_SCORE REF_MAX_SCORE score env_name
                  = Ok (Finite v) /\ (v == 0)%Q)
        /\ (forall score, scalar_value score = ref_max ->
              exists v,
                get_d4rl_normalized_score REF_MIN_SCORE REF_MAX_SCORE score env_name
                  = Ok (Finite v) /\ (v == 1)%Q))
     /\ ((ref_max == ref_min)%Q ->
        (forall score,
           get_d4rl_normalized_score REF_MIN_SCORE REF_MAX_SCORE (PyNumber score) env_name
             = Raise ZeroDivisionError)
        /\ (forall score,
              exists v,
                get_d4rl_normalized_score REF_MIN_SCORE REF_MAX_SCORE (NpNumber score)
                  env_name = Ok v
                /\ forall x, v <> Finite x)))
  /\ (REF_MIN_SCORE !! env_name = None \/ REF_MAX_SCORE !! env_name = None ->
      forall score,
        get_d4rl_normalized_score REF_MIN_SCORE REF_MAX_SCORE score env_name
          = Raise (KeyError env_name)).
Proof.
  split.
  - intros ref_min ref_max Hmin Hmax. split.
    + intros Hne.
      assert (Hd : ~ (ref_max - ref_min == 0)%Q).
      { intros H. apply Hne. by apply Qminus_zero_eq. }
      split; [|split].
      * intros score. by apply normalized_score_value.
      * intros score Hs. eexists. split; [by apply normalized_score_value|].
        rewrite Hs. field. done.
      * intros score Hs. eexists. split; [by apply normalized_score_value|].
        rewrite Hs. field. done.
    + intros Heq. split.
      * intros score. by eapply normalized_score_python_equal.
      * intros score. eexists. split; [by eapply normalized_score_numpy_equal|].
        intros x. by destruct (Qeq_bool (score - ref_min) 0).
  - intros Hnone score. unfold get_d4rl_normalized_score.
    destruct (REF_MIN_SCORE !! env_name) as [ref_min|] eqn:Hmin; simpl; [|done].
    destruct Hnone as [?|Hmax]; [done|]. by rewrite Hmax.
Qed.

Lemma normalized_score_contract_witness :
  ((~ (3234 == -20)%Q ->
      (forall score,
         get_d4rl_normalized_score example_ref_min example_ref_max score "hopper"
           = Ok (Finite ((scalar_value score - (-20)) / (3234 - (-20)))%Q))
      /\ (forall score, scalar_value score = (-20)%Q ->
            exists v,
              get_d4rl_normalized_score example_ref_min example_ref_max score "hopper"
                = Ok (Finite v) /\ (v == 0)%Q)
      /\ (forall score, scalar_value score = 3234%Q ->
            exists v,
              get_d4rl_normalized_score example_ref_min example_ref_max score "hopper"
                = Ok (Finite v) /\ (v == 1)%Q))
   /\ ((3234 == -20)%Q ->
      (forall score,
         get_d4rl_normalized_score example_ref_min example_ref_max (PyNumber score)
           "hopper" = Raise ZeroDivisionError)
      /\ (forall score,
            exists v,
              get_d4rl_normalized_score example_ref_min example_ref_max (NpNumber score)
                "hopper" = Ok v
              /\ forall x, v <> Finite x)))
  /\ (forall score,
        get_d4rl_normalized_score example_ref_min example_ref_max score "walker"
          = Raise (KeyError "walker")).
Proof.
  split.
  - refine (proj1 (normalized_score_contract example_ref_min example_ref_max "hopper")
              (-20)%Q 3234%Q _ _).
    + apply lookup_singleton_eq.
    + apply lookup_singleton_eq.
  - refine (proj2 (normalized_score_contract example_ref_min example_ref_max "walker") _).
    left. apply lookup_singleton_ne. discriminate.
Defined.

(** C9, as the specification has it, fails: an environment can be registered
    with equal reference scores, and then the score [ref_min] is not
    normalized to [0.0], nor to any number: the call raises
    [ZeroDivisionError] for a Python number and returns [nan] for a numpy
    scalar. *)
Lemma normalized_score_undefined_for_equal_bounds :
  flat_ref_min !! "flat" = Some 5%Q
  /\ flat_ref_max !! "flat" = Some 5%Q
  /\ get_d4rl_normalized_score flat_ref_min flat_ref_max (PyNumber 5) "flat"
     = Raise ZeroDivisionError
  /\ get_d4rl_normalized_score flat_ref_min flat_ref_max (NpNumber 5) "flat"
     = Ok NaN.
Proof. by vm_compute. Qed.

(** ** __init__ *)

Lemma init_returns_ok rtg_scale trajs min_len states out_trajs out_min out_states :
  init_returns rtg_scale trajs min_len states = Ok (out_trajs, out_min, out_states) ->
  exists raws,
    Forall2 (fun traj obs => observations traj = Some obs) trajs raws
    /\ out_states = states ++ raws
    /\ Forall2 (fun traj0 traj => exists rews disc,
                  rewards traj0 = Some rews
                  /\ discount_cumsum rews 1 = Ok disc
                  /\ traj = set_returns_to_go traj0 (array_div_scalar disc rtg_scale))
         trajs out_trajs.
Proof.
  revert min_len states out_trajs out_min out_states.
  induction trajs as [|traj rest IH]; intros min_len states out_trajs out_min out_states H.
  - simpl in H. injection H as <- <- <-. exists [].
    rewrite app_nil_r. by repeat constructor.
  - simpl in H.
    destruct (observations traj) as [obs|] eqn:Ho; [|done]. simpl in H.
    destruct (rewards traj) as [rews|] eqn:Hr; [|done]. simpl in H.
    destruct (discount_cumsum rews 1) as [disc|] eqn:Hd; [|done]. simpl in H.
    destruct (init_returns rtg_scale rest _ _) as [[[r m] s]|] eqn:E; [|done].
    simpl in H. injection H as <- <- <-.
    destruct (IH _ _ _ _ _ E) as (raws & Hraws & -> & Hrest).
    exists (obs :: raws). split; [by constructor|].
    split; [by rewrite <- app_assoc|].
    constructor; [|done]. by exists rews, disc.
Qed.

Lemma init_normalize_ok mean std trajs out_trajs :
  init_normalize mean std trajs = Ok out_trajs ->
  Forall2 (fun traj0 traj => exists obs,
             observations traj0 = Some obs
             /\ traj = set_observations traj0 (normalize_observations mean std obs))
    trajs out_trajs.
Proof.
  revert out_trajs. induction trajs as [|traj rest IH]; intros out_trajs H.
  - simpl in H. injection H as <-. constructor.
  - simpl in H.
    destruct (observations traj) as [obs|] eqn:Ho; [|done]. simpl in H.
    destruct (init_normalize mean std rest) as [r|] eqn:E; [|done].
    simpl in H. injection H as <-.
    constructor; [by exists obs | by apply IH].
Qed.

Lemma row_widths_agree_uniform width states :
  Forall (Forall (fun row => length row = width)) states ->
  row_widths_agree states = true.
Proof.
  intros Hall. unfold row_widths_agree.
  assert (Hcat : Forall (fun row : list Q => length row = width) (concat states)).
  { induction Hall; simpl; [constructor | by apply Forall_app]. }
  destruct (concat states) as [|row rows]; [done|].
  apply Forall_cons in Hcat as [Hrow Hrows].
  induction Hrows as [|r rows Hr _ IH]; simpl; [done|].
  rewrite IH. rewrite Hr, Hrow. by rewrite Nat.eqb_refl.
Qed.

Lemma init_returns_loadable width rtg_scale trajs min_len states :
  Forall (loadable width) trajs ->
  exists out_trajs out_min raws,
    init_returns rtg_scale trajs min_len states
      = Ok (out_trajs, out_min, states ++ raws)
    /\ length raws = length trajs
    /\ Forall (Forall (fun row => length row = width)) raws
    /\ Forall (fun traj => is_Some (observations traj)) out_trajs.
Proof.
  intros Hall. revert min_len states.
  induction Hall as [|traj rest [(obs & Ho & Hw) (rews & Hr & Hne)] _ IH];
    intros min_len states.
  - exists [], min_len, []. by rewrite app_nil_r.
  - simpl. rewrite Ho, Hr. simpl.
    destruct (discount_cumsum_scanned rews 1 Hne) as (disc & -> & _). simpl.
    destruct (IH (Z.min min_len (Z.of_nat (length obs))) (states ++ [obs]))
      as (r & m & raws & E & Hlen & Hraws & Hobs).
    rewrite E. simpl.
    exists (set_returns_to_go traj (array_div_scalar disc rtg_scale) :: r), m,
      (obs :: raws).
    split; [by rewrite <- app_assoc|]. split; [simpl; lia|].
    split; [by constructor|].
    constructor; [|done]. simpl. by rewrite Ho.
Qed.

Lemma init_normalize_present mean std trajs :
  Forall (fun traj => is_Some (observations traj)) trajs ->
  exists out_trajs, init_normalize mean std trajs = Ok out_trajs.
Proof.
  induction 1 as [|traj rest [obs Ho] _ [r IH]]; simpl.
  - by eexists.
  - rewrite Ho. simpl. rewrite IH. simpl. by eexists.
Qed.

Lemma init_returns_missing rtg_scale trajs min_len states :
  Exists (fun traj => observations traj = None \/ rewards traj = None) trajs ->
  exists e, init_returns rtg_scale trajs min_len states = Raise e
    /\ (e = KeyError "observations" \/ e = KeyError "rewards" \/ e = IndexError).
Proof.
  intros Hex. revert min_len states.
  induction trajs as [|traj rest IH]; intros min_len states.
  - by apply Exists_nil in Hex.
  - simpl.
    destruct (observations traj) as [obs|] eqn:Ho; simpl; [|by eauto].
    destruct (rewards traj) as [rews|] eqn:Hr; simpl; [|by eauto].
    destruct (discount_cumsum rews 1) as [disc|e] eqn:Hd; simpl.
    + apply Exists_cons in Hex as [[?|?]|Hex]; [congruence|congruence|].
      destruct (IH Hex (Z.min min_len (Z.of_nat (length obs))) (states ++ [obs]))
        as (e & -> & He).
      by exists e.
    + destruct rews as [|r rews].
      * rewrite discount_cumsum_empty in Hd. injection Hd as <-. by eauto.
      * destruct (discount_cumsum_scanned (r :: rews) 1) as (g & Hg & _); [done|].
        congruence.
Qed.

Section StoreProperties.
Variables np_mean np_std : list (list Q) -> list Q.

(** What a successful [__init__] has built. *)
Lemma init_stored pickled ctx rtg_scale discrete self :
  __init__ np_mean np_std pickled ctx rtg_scale discrete = Ok self ->
  exists raws,
    Forall2 (fun traj obs => observations traj = Some obs) pickled raws
    /\ state_mean self = np_mean (concat raws)
    /\ state_std self = array_add_scalar (np_std (concat raws)) epsilon
    /\ Forall2 (stored rtg_scale (state_mean self) (state_std self))
         pickled (trajectories self)
    /\ context_len self = ctx
    /\ discrete_action self = discrete.
Proof.
  unfold __init__. intros H.
  destruct (init_returns rtg_scale pickled _ _) as [[[trajs m] states]|] eqn:E1; [|done].
  simpl in H.
  apply init_returns_ok in E1 as (raws & Hraws & -> & Hret). simpl in H.
  destruct (np_concatenate raws) as [cat|] eqn:E2; [|done]. simpl in H.
  assert (cat = concat raws) as ->.
  { unfold np_concatenate in E2. destruct raws; [done|].
    destruct (row_widths_agree _); [|done]. by injection E2 as <-. }
  destruct (init_normalize _ _ trajs) as [out|] eqn:E3; [|done]. simpl in H.
  injection H as <-. simpl.
  apply init_normalize_ok in E3.
  exists raws. repeat split; try done.
  clear Hraws E2.
  revert trajs out Hret E3. induction pickled as [|traj0 rest IH]; intros trajs out Hret E3.
  - apply Forall2_nil_inv_l in Hret as ->. apply Forall2_nil_inv_l in E3 as ->.
    constructor.
  - apply Forall2_cons_inv_l in Hret as (traj1 & trajs' & (rews & disc & Hr & Hd & ->) & Hret & ->).
    apply Forall2_cons_inv_l in E3 as (traj2 & out' & (obs & Ho & ->) & E3 & ->).
    constructor; [|by apply IH with trajs'].
    exists obs, rews, disc. simpl in Ho. repeat split; try done.
    unfold set_observations, set_returns_to_go. simpl. by rewrite Hr.
Qed.

(** [__init__] succeeds on every non-empty collection of loadable records. *)
Lemma init_loadable width pickled ctx rtg_scale discrete :
  pickled <> [] -> Forall (loadable width) pickled ->
  exists self, __init__ np_mean np_std pickled ctx rtg_scale discrete = Ok self.
Proof.
  intros Hne Hall. unfold __init__.
  destruct (init_returns_loadable width rtg_scale pickled (10 ^ 6)%Z [] Hall)
    as (trajs & m & raws & -> & Hlen & Hraws & Hobs). simpl.
  unfold np_concatenate.
  rewrite (row_widths_agree_uniform width raws Hraws).
  destruct raws as [|raw raws]; [by destruct pickled|]. simpl.
  destruct (init_normalize_present
              (np_mean (concat (raw :: raws)))
              (array_add_scalar (np_std (concat (raw :: raws))) epsilon) trajs Hobs)
    as [out Hout].
  simpl in Hout. rewrite Hout. simpl. by eexists.
Qed.

End StoreProperties.

(** *** Returns-to-go *)

#[local] Instance foldl_Qplus_proper : Proper (Qeq ==> eq ==> Qeq) (foldl Qplus).
Proof.
  intros a b Hab l ? <-. revert a b Hab.
  induction l as [|x l IH]; intros a b Hab; simpl; [done|].
  apply IH. by rewrite Hab.
Qed.

Lemma foldl_Qplus_acc (a : Q) (l : list Q) :
  (foldl Qplus a l == a + tensor_sum l)%Q.
Proof.
  unfold tensor_sum. revert a. induction l as [|x l IH]; intros a; simpl.
  - ring.
  - rewrite (IH (a + x)%Q), (IH (0 + x)%Q). ring.
Qed.

Lemma tensor_sum_cons (x : Q) (l : list Q) :
  (tensor_sum (x :: l) == x + tensor_sum l)%Q.
Proof.
  unfold tensor_sum at 1. simpl. rewrite foldl_Qplus_acc. ring.
Qed.

(** With discount [1] the scan computes the suffix sums. *)
Lemma scanned_suffix_sum x g :
  scanned x 1 0 g ->
  forall k t, t + k + 1 = length x ->
    exists v, g !! t = Some v /\ (v == tensor_sum (drop t x))%Q.
Proof.
  intros [Hlen Hlast Hrec]. induction k as [|k IH]; intros t Ht.
  - replace (length x - 1) with t in Hlast by lia.
    destruct (lookup_lt_is_Some_2 x t ltac:(lia)) as [x_t Hx].
    exists x_t. split; [by rewrite Hlast|].
    rewrite (drop_S _ _ _ Hx), drop_ge by lia.
    rewrite tensor_sum_cons. unfold tensor_sum. simpl. ring.
  - destruct (IH (S t) ltac:(lia)) as (v & Hv & Hsum).
    destruct (lookup_lt_is_Some_2 x t ltac:(lia)) as [x_t Hx].
    eexists. split; [apply Hrec; lia|].
    unfold at_index. replace (t + 1) with (S t) by lia.
    rewrite Hx, Hv. simpl.
    rewrite (drop_S _ _ _ Hx), tensor_sum_cons, Hsum. ring.
Qed.

Lemma discount_cumsum_suffix_sum x g t v :
  discount_cumsum x 1 = Ok g -> g !! t = Some v ->
  (v == tensor_sum (drop t x))%Q.
Proof.
  intros Hg Hv. destruct x as [|x0 x].
  { by rewrite discount_cumsum_empty in Hg. }
  destruct (discount_cumsum_scanned (x0 :: x) 1) as (g' & Hg' & Hsc); [done|].
  assert (g' = g) as -> by congruence.
  assert (t < length (x0 :: x)).
  { rewrite <- (scanned_length _ _ _ _ Hsc). by eapply lookup_lt_Some. }
  destruct (scanned_suffix_sum _ _ Hsc (length (x0 :: x) - t - 1) t ltac:(lia))
    as (v' & Hv' & Hsum).
  by assert (v' = v) as -> by congruence.
Qed.

Lemma discount_cumsum_length x gamma g :
  discount_cumsum x gamma = Ok g -> length g = length x.
Proof.
  intros Hg. destruct x as [|x0 x].
  { by rewrite discount_cumsum_empty in Hg. }
  destruct (discount_cumsum_scanned (x0 :: x) gamma) as (g' & Hg' & Hsc); [done|].
  assert (g' = g) as -> by congruence. apply Hsc.
Qed.

(** C5. After [__init__], the returns-to-go of every trajectory are the
    undiscounted suffix sums of its rewards divided by [rtg_scale]:
    [returns_to_go[t] = sum(rewards[t:]) / rtg_scale], with the one
    [rtg_scale] of the call; rewards [[1, 1, 1]] with [rtg_scale = 1] give
    [[3, 2, 1]]. *)
Theorem returns_to_go_suffix_sums
    (np_mean np_std : list (list Q) -> list Q)
    (pickled : list trajectory) (ctx : nat) (rtg_scale : Q) (discrete : bool)
    (self : D4RLTrajectoryDataset) :
  __init__ np_mean np_std pickled ctx rtg_scale discrete = Ok self ->
  length (trajectories self) = length pickled
  /\ forall i traj0, pickled !! i = Some traj0 ->
       exists traj rews rtg,
         trajectories self !! i = Some traj
         /\ rewards traj0 = Some rews
         /\ rewards traj = Some rews
         /\ returns_to_go traj = Some rtg
         /\ length rtg = length rews
         /\ (forall t v, rtg !! t = Some v ->
               (v == tensor_sum (drop t rews) / rtg_scale)%Q)
         /\ (rtg_scale = 1%Q -> rews = [1; 1; 1]%Q -> rtg = [3; 2; 1]%Q).
Proof.
  intros Hinit.
  destruct (init_stored _ _ _ _ _ _ _ Hinit) as (raws & _ & _ & _ & Hst & _).
  split; [symmetry; by eapply Forall2_length|].
  intros i traj0 Hi.
  destruct (Forall2_lookup_l _ _ _ _ _ Hst Hi)
    as (traj & Htraj & obs & rews & disc & Ho & Hr & Hd & ->).
  eexists _, rews, _.
  split; [done|]. split; [done|]. split; [done|]. split; [done|].
  split; [|split].
  - unfold array_div_scalar. rewrite length_fmap.
    by eapply discount_cumsum_length.
  - intros t v Hv. unfold array_div_scalar in Hv.
    rewrite list_lookup_fmap in Hv.
    destruct (disc !! t) as [d|] eqn:Hdt; [|done]. simpl in Hv.
    injection Hv as <-.
    by rewrite (discount_cumsum_suffix_sum _ _ _ _ Hd Hdt).
  - intros -> ->. vm_compute in Hd. by injection Hd as <-.
Qed.


Lemma example_store_init :
  __init__ np_mean_exact np_std_exact example_pickled 2 1 false = Ok example_store.
Proof. vm_compute. reflexivity. Qed.

Lemma returns_to_go_suffix_sums_witness :
  length (trajectories example_store) = length example_pickled
  /\ forall i traj0, example_pickled !! i = Some traj0 ->
       exists traj rews rtg,
         trajectories example_store !! i = Some traj
         /\ rewards traj0 = Some rews
         /\ rewards traj = Some rews
         /\ returns_to_go traj = Some rtg
         /\ length rtg = length rews
         /\ (forall t v, rtg !! t = Some v ->
               (v == tensor_sum (drop t rews) / 1)%Q)
         /\ (1%Q = 1%Q -> rews = [1; 1; 1]%Q -> rtg = [3; 2; 1]%Q).
Proof.
  exact (returns_to_go_suffix_sums np_mean_exact np_std_exact example_pickled
           2 1 false example_store example_store_init).
Defined.

(** *** Statistics and normalization *)

(** C6. After [__init__], [state_mean] and [state_std] are the per-feature
    mean and the per-feature standard deviation plus [1e-6] of the
    concatenation of the raw observations of all trajectories, and the
    stored observations of every trajectory are
    [(raw - state_mean) / state_std]: the normalization is applied to the
    raw observations, once. *)
Theorem state_statistics_and_normalization
    (np_mean np_std : list (list Q) -> list Q)
    (pickled : list trajectory) (ctx : nat) (rtg_scale : Q) (discrete : bool)
    (self : D4RLTrajectoryDataset) :
  __init__ np_mean np_std pickled ctx rtg_scale discrete = Ok self ->
  exists raws,
    Forall2 (fun traj0 raw => observations traj0 = Some raw) pickled raws
    /\ state_mean self = np_mean (concat raws)
    /\ state_std self = (fun s => (s + (1 # 1000000))%Q) <$> np_std (concat raws)
    /\ get_state_stats self = (state_mean self, state_std self)
    /\ Forall2 (fun raw traj =>
                  observations traj
                    = Some ((fun row =>
                               zip_with Qdiv (zip_with Qminus row (state_mean self))
                                 (state_std self)) <$> raw))
         raws (trajectories self).
Proof.
  intros Hinit.
  destruct (init_stored _ _ _ _ _ _ _ Hinit) as (raws & Hraws & Hm & Hs & Hst & _).
  exists raws. repeat split; try done.
  clear Hm Hs Hinit. revert raws Hraws.
  induction Hst as [|traj0 traj rest out (obs & rews & disc & Ho & _ & _ & ->) _ IH];
    intros raws Hraws.
  - apply Forall2_nil_inv_l in Hraws as ->. constructor.
  - apply Forall2_cons_inv_l in Hraws as (raw & raws' & Hraw & Hraws & ->).
    constructor; [|by apply IH].
    simpl. by assert (raw = obs) as -> by congruence.
Qed.

Lemma state_statistics_and_normalization_witness :
  exists raws,
    Forall2 (fun traj0 raw => observations traj0 = Some raw) example_pickled raws
    /\ state_mean example_store = np_mean_exact (concat raws)
    /\ state_std example_store
         = (fun s => (s + (1 # 1000000))%Q) <$> np_std_exact (concat raws)
    /\ get_state_stats example_store
         = (state_mean example_store, state_std example_store)
    /\ Forall2 (fun raw traj =>
                  observations traj
                    = Some ((fun row =>
                               zip_with Qdiv
                                 (zip_with Qminus row (state_mean example_store))
                                 (state_std example_store)) <$> raw))
         raws (trajectories example_store).
Proof.
  exact (state_statistics_and_normalization np_mean_exact np_std_exact
           example_pickled 2 1 false example_store example_store_init).
Defined.

(** *** Malformed records *)

(** C8, as the code has it.  [__init__] fails, building no store, whenever a
    record lacks ['observations'] or ['rewards'] (with the lookup error of
    the missing key, unless an earlier record with empty rewards has already
    failed the scan).  The other fields and the lengths are not checked: a
    non-empty collection whose records all have observations of one feature
    width and non-empty rewards is loaded, whether or not a record has
    ['actions'] and whatever the lengths of its sequences. *)
Theorem init_rejects_only_missing_observations_or_rewards
    (np_mean np_std : list (list Q) -> list Q)
    (pickled : list trajectory) (ctx : nat) (rtg_scale : Q) (discrete : bool) :
  (Exists (fun traj => observations traj = None \/ rewards traj = None) pickled ->
   exists e, __init__ np_mean np_std pickled ctx rtg_scale discrete = Raise e
     /\ (e = KeyError "observations" \/ e = KeyError "rewards" \/ e = IndexError))
  /\ (forall width, pickled <> [] -> Forall (loadable width) pickled ->
      exists self, __init__ np_mean np_std pickled ctx rtg_scale discrete = Ok self).
Proof.
  split.
  - intros Hex. unfold __init__.
    destruct (init_returns_missing rtg_scale pickled (10 ^ 6)%Z [] Hex) as (e & -> & He).
    by exists e.
  - intros width. apply init_loadable.
Qed.

Lemma malformed_store_init :
  __init__ np_mean_exact np_std_exact [malformed_record] 2 1 false = Ok malformed_store.
Proof. vm_compute. reflexivity. Qed.

Lemma init_rejects_only_missing_observations_or_rewards_witness :
  (exists e,
     __init__ np_mean_exact np_std_exact
       [ {| observations := None; actions := Some [[0]]%Q;
            rewards := Some [1]%Q; returns_to_go := None |} ] 2 1 false = Raise e
     /\ (e = KeyError "observations" \/ e = KeyError "rewards" \/ e = IndexError))
  /\ (exists self,
        __init__ np_mean_exact np_std_exact [malformed_record] 2 1 false = Ok self).
Proof.
  split.
  - refine (proj1 (init_rejects_only_missing_observations_or_rewards
                     np_mean_exact np_std_exact _ 2 1 false) _).
    apply Exists_cons_hd. by left.
  - refine (proj2 (init_rejects_only_missing_observations_or_rewards
                     np_mean_exact np_std_exact [malformed_record] 2 1 false) 1 _ _).
    + discriminate.
    + constructor; [|constructor]. split.
      * exists [[1]; [3]]%Q. split; [reflexivity|]. by repeat constructor.
      * exists [1; 1; 1]%Q. split; [reflexivity | discriminate].
Defined.

(** C8, as the specification has it, fails: a record without ['actions'],
    whose observations and rewards differ in length, is loaded. *)
Lemma init_accepts_malformed_record :
  actions malformed_record = None
  /\ observations malformed_record = Some [[1]; [3]]%Q
  /\ rewards malformed_record = Some [1; 1; 1]%Q
  /\ __init__ np_mean_exact np_std_exact [malformed_record] 2 1 false
       = Ok malformed_store.
Proof.
  split; [reflexivity|]. split; [reflexivity|]. split; [reflexivity|].
  apply malformed_store_init.
Qed.

(** ** evaluate_on_env *)

(** *** The events of a run *)

Section TraceProperties.
Variable forward : list nat -> list (list Q) -> list (list Q) -> list Q -> list (list Q).
Variables (context_len max_test_ep_len : nat) (state_mean state_std : list Q).

Abbreviation made' := (made_call context_len max_test_ep_len state_mean state_std).
Abbreviation completed' :=
  (steps_ok forward context_len max_test_ep_len state_mean state_std).
Abbreviation dangles' := (dangling context_len max_test_ep_len state_mean state_std).

(** Every call is the call of its step, on the state returned last. *)
Lemma completed_calls n s evs m s' tail :
  completed' n s evs m s' -> dangles' m s' tail ->
  forall pre call post, evs ++ tail = pre ++ EvForward call :: post ->
    made' (steps_since_reset n pre) call
    /\ fc_running_state call = current_state s pre.
Proof.
  intros Hc Hd. induction Hc as [n s|n s state evs m s' Hc IH
    |n s c act state reward terminated truncated evs m s' Hmade Hrs Hread Hc IH];
    intros pre call post Heq.
  - destruct Hd as [->|(c & -> & Hmade & Hrs)]; simpl in Heq.
    + by destruct pre.
    + destruct pre as [|e pre]; simpl in Heq.
      * by injection Heq as <- _.
      * injection Heq as _ Heq. by destruct pre.
  - destruct pre as [|e pre]; simpl in Heq; [done|].
    injection Heq as <- Heq. simpl. eapply IH; eauto.
  - destruct pre as [|e1 [|e2 pre]]; simpl in Heq.
    + by injection Heq as <- _.
    + by injection Heq as _ Heq.
    + injection Heq as <- <- Heq. simpl. eapply IH; eauto.
Qed.

(** Every environment step follows a call and takes the action read from
    it. *)
Lemma completed_steps n s evs m s' tail :
  completed' n s evs m s' -> dangles' m s' tail ->
  forall pre act state reward terminated truncated post,
    evs ++ tail = pre ++ EvStep act state reward terminated truncated :: post ->
    exists pre' call,
      pre = pre' ++ [EvForward call]
      /\ py_getitem (predictions forward call) (fc_index call) = Ok act.
Proof.
  intros Hc Hd. induction Hc as [n s|n s state0 evs m s' Hc IH
    |n s c act0 state0 reward0 terminated0 truncated0 evs m s' Hmade Hrs Hread Hc IH];
    intros pre act state reward terminated truncated post Heq.
  - destruct Hd as [->|(c & -> & Hmade & Hrs)]; simpl in Heq.
    + by destruct pre.
    + destruct pre as [|e pre]; simpl in Heq; [done|].
      injection Heq as _ Heq. by destruct pre.
  - destruct pre as [|e pre]; simpl in Heq; [done|].
    injection Heq as <- Heq.
    destruct (IH Hd _ _ _ _ _ _ _ Heq) as (pre' & call & -> & Hact).
    by exists (EvReset state0 :: pre'), call.
  - destruct pre as [|e1 [|e2 pre]]; simpl in Heq.
    + done.
    + injection Heq as <- <- _ _ _ _ _. by exists [], c.
    + injection Heq as <- <- Heq.
      destruct (IH Hd _ _ _ _ _ _ _ Heq) as (pre' & call & -> & Hact).
      by exists (EvForward c :: EvStep act0 state0 reward0 terminated0 truncated0 :: pre'),
           call.
Qed.

(** The window and the position of the call of step [t]. *)
Lemma made_call_context t call :
  made' t call ->
  fc_t call = t /\ t < max_test_ep_len
  /\ (t < context_len ->
      fc_timesteps call = slice 0 context_len (seq 0 max_test_ep_len)
      /\ fc_states call = slice 0 context_len (buf_states (fc_rollout call))
      /\ fc_actions call = slice 0 context_len (buf_actions (fc_rollout call))
      /\ fc_rewards_to_go call
           = slice 0 context_len (buf_rewards_to_go (fc_rollout call))
      /\ fc_index call = Z.of_nat t
      /\ fc_timesteps call !! t = Some t)
  /\ (context_len <= t ->
      fc_timesteps call
        = slice (t - context_len + 1) (t + 1) (seq 0 max_test_ep_len)
      /\ fc_states call
           = slice (t - context_len + 1) (t + 1) (buf_states (fc_rollout call))
      /\ fc_actions call
           = slice (t - context_len + 1) (t + 1) (buf_actions (fc_rollout call))
      /\ fc_rewards_to_go call
           = slice (t - context_len + 1) (t + 1)
               (buf_rewards_to_go (fc_rollout call))
      /\ fc_index call = (-1)%Z
      /\ length (fc_timesteps call) = context_len
      /\ (0 < context_len -> last (fc_timesteps call) = Some t)).
Proof.
  intros (rs & acts & sts & rtgs & rtg & Ht & Ha & Hs & Hr & ->).
  unfold select_context. case_decide as Hlt; simpl.
  - split; [done|]. split; [done|]. split; [|intros; lia].
    intros _. split_and!; try done.
    unfold slice. rewrite drop_0, lookup_take_lt by lia.
    by apply lookup_seq_lt.
  - split; [done|]. split; [done|]. split; [intros; lia|].
    intros _. split_and!; try done.
    + rewrite slice_length by (rewrite length_seq; lia). lia.
    + intros Hctx. rewrite last_lookup.
      rewrite slice_length by (rewrite length_seq; lia).
      unfold slice. rewrite lookup_take_lt by lia.
      rewrite lookup_drop, lookup_seq_lt by lia. f_equal. lia.
Qed.

(** The state written at step [t]. *)
Lemma made_call_state t call :
  made' t call ->
  buf_states (fc_rollout call) !! t
    = Some (normalize_state state_mean state_std (fc_running_state call))
  /\ length (buf_states (fc_rollout call)) = max_test_ep_len.
Proof.
  intros (rs & acts & sts & rtgs & rtg & Ht & Ha & Hs & Hr & ->).
  unfold select_context. case_decide; simpl.
  - rewrite list_lookup_insert_eq by lia. by rewrite length_insert.
  - rewrite list_lookup_insert_eq by lia. by rewrite length_insert.
Qed.

(** Under the contract of the policy the read of [act_preds] succeeds. *)
Lemma made_call_read t call :
  policy_contract forward -> 0 < context_len -> made' t call ->
  exists act, py_getitem (predictions forward call) (fc_index call) = Ok act.
Proof.
  intros Hpol Hctx Hmade.
  destruct (made_call_context t call Hmade) as (_ & Ht & Hlt & Hge).
  assert (Hlen : length (predictions forward call) = length (fc_timesteps call))
    by apply Hpol.
  destruct (decide (t < context_len)) as [H|H].
  - destruct (Hlt H) as (_ & _ & _ & _ & -> & Hpos).
    apply lookup_lt_Some in Hpos. rewrite <- Hlen in Hpos.
    apply lookup_lt_is_Some_2 in Hpos as [act Hact].
    exists act. by apply py_getitem_nonneg.
  - destruct (Hge ltac:(lia)) as (_ & _ & _ & _ & -> & Hwin & _).
    destruct (last (predictions forward call)) as [act|] eqn:Hlast.
    + exists act. by apply py_getitem_last.
    + apply last_None in Hlast. rewrite Hlast in Hlen. simpl in Hlen. lia.
Qed.

End TraceProperties.

(** *** The loops *)

Section EvaluatorProperties.
Variable Env : Type.
Variable env_reset : Env -> list Q * Env.
Variable env_step : Env -> list Q -> (list Q * Q * bool * bool) * Env.
Variable forward : list nat -> list (list Q) -> list (list Q) -> list Q -> list (list Q).
Variables (context_len : nat) (rtg_target rtg_scale : Q) (max_test_ep_len : nat)
  (state_mean state_std : list Q).

Abbreviation step :=
  (eval_step Env env_step forward context_len rtg_scale state_mean state_std
     (seq 0 max_test_ep_len)).
Abbreviation steps :=
  (eval_steps Env env_step forward context_len rtg_scale state_mean state_std
     (seq 0 max_test_ep_len)).
Abbreviation episode_run :=
  (eval_episode Env env_reset env_step forward context_len rtg_target rtg_scale
     max_test_ep_len state_mean state_std (seq 0 max_test_ep_len)).
Abbreviation episodes_run :=
  (eval_episodes Env env_reset env_step forward context_len rtg_target rtg_scale
     max_test_ep_len state_mean state_std (seq 0 max_test_ep_len)).
Abbreviation made := (made_call context_len max_test_ep_len state_mean state_std).
Abbreviation completed :=
  (steps_ok forward context_len max_test_ep_len state_mean state_std).
Abbreviation dangles := (dangling context_len max_test_ep_len state_mean state_std).

(** The three ways one iteration can end. *)
Lemma eval_step_cases t ep tot w :
  t < max_test_ep_len -> episode_ok max_test_ep_len ep ->
  (exists e, step t ep tot w = (w, Raise e)
     /\ py_div (running_reward ep) rtg_scale = Raise e)
  \/ (exists call e,
        step t ep tot w = (emit (EvForward call) w, Raise e)
        /\ made t call
        /\ fc_running_state call = running_state ep
        /\ py_getitem (predictions forward call) (fc_index call) = Raise e)
  \/ (exists call act state reward terminated truncated env ep',
        step t ep tot w =
          ({| w_env := env;
              w_trace := w_trace w ++ [EvForward call;
                                       EvStep act state reward terminated truncated] |},
           Ok (ep',
               {| total_reward := (total_reward tot + reward)%Q;
                  total_timesteps := total_timesteps tot + 1 |},
               terminated || truncated))
        /\ made t call
        /\ fc_running_state call = running_state ep
        /\ py_getitem (predictions forward call) (fc_index call) = Ok act
        /\ env_step (w_env w) act = (state, reward, terminated, truncated, env)
        /\ episode_ok max_test_ep_len ep'
        /\ running_state ep' = state
        /\ running_reward ep' = reward).
Proof.
  intros Ht (Ha & Hs & Hr).
  unfold eval_step, pbind, lift.
  destruct (py_div (running_reward ep) rtg_scale) as [scaled|e] eqn:Hdiv.
  2:{ left. by exists e. }
  right.
  rewrite list_lookup_insert_eq by lia. simpl.
  rewrite list_insert_insert_eq.
  set (r := {| buf_actions := buf_actions (ep_rollout ep);
               buf_states := <[t := normalize_state state_mean state_std (running_state ep)]>
                               (buf_states (ep_rollout ep));
               buf_rewards_to_go := <[t := (running_rtg ep - scaled)%Q]>
                                      (buf_rewards_to_go (ep_rollout ep)) |}).
  set (call := select_context context_len (seq 0 max_test_ep_len) (running_state ep) r t).
  assert (Hrun : fc_running_state call = running_state ep).
  { subst call. unfold select_context. by case_decide. }
  assert (Hmade : made t call).
  { exists (running_state ep), (buf_actions (ep_rollout ep)),
      (buf_states (ep_rollout ep)), (buf_rewards_to_go (ep_rollout ep)),
      (running_rtg ep - scaled)%Q. done. }
  unfold do_forward. fold (predictions forward call).
  destruct (py_getitem (predictions forward call) (fc_index call)) as [act|e] eqn:Hread.
  2:{ left. by exists call, e. }
  right. unfold do_step, ret. simpl.
  destruct (env_step (w_env w) act) as [[[[state reward] terminated] truncated] env] eqn:Hstep.
  eexists call, act, state, reward, terminated, truncated, env, _.
  split.
  { unfold emit. simpl. rewrite <- app_assoc. reflexivity. }
  split; [done|]. split; [done|].
  split; [done|]. split; [done|]. split; [|done].
  repeat split; simpl; by rewrite length_insert.
Qed.

Lemma completed_app n s evs1 m s1 evs2 k s2 :
  completed n s evs1 m s1 -> completed m s1 evs2 k s2 ->
  completed n s (evs1 ++ evs2) k s2.
Proof.
  intros H1 H2. induction H1; simpl; [done| |].
  - constructor. by apply IHsteps_ok.
  - constructor; try done. by apply IHsteps_ok.
Qed.

Lemma reset_states_app evs1 evs2 :
  reset_states (evs1 ++ evs2) = reset_states evs1 ++ reset_states evs2.
Proof. apply omap_app. Qed.

Lemma step_rewards_app evs1 evs2 :
  step_rewards (evs1 ++ evs2) = step_rewards evs1 ++ step_rewards evs2.
Proof. apply omap_app. Qed.

Lemma add_steps_app tot evs1 evs2 :
  add_steps (add_steps tot evs1) evs2 = add_steps tot (evs1 ++ evs2).
Proof.
  unfold add_steps. simpl. rewrite step_rewards_app, foldl_app, length_app.
  f_equal. lia.
Qed.

Lemma eval_steps_cons t ts ep tot w :
  steps (t :: ts) ep tot w =
    match step t ep tot w with
    | (w', Ok (ep', tot', stop)) =>
        if (stop : bool) then (w', Ok tot') else steps ts ep' tot' w'
    | (w', Raise e) => (w', Raise e)
    end.
Proof.
  simpl. unfold pbind.
  by destruct (step t ep tot w) as [w' [[[ep' tot'] []]|e]].
Qed.

(** The inner loop, from step [t0] on. *)
Lemma eval_steps_spec k : forall t0 ep tot w,
  t0 + k <= max_test_ep_len -> episode_ok max_test_ep_len ep ->
  exists evs m s1 tail,
    w_trace (steps (seq t0 k) ep tot w).1 = w_trace w ++ evs ++ tail
    /\ completed t0 (running_state ep) evs m s1
    /\ dangles m s1 tail
    /\ reset_states (evs ++ tail) = []
    /\ forall tot', (steps (seq t0 k) ep tot w).2 = Ok tot' ->
         tail = [] /\ tot' = add_steps tot evs.
Proof.
  induction k as [|k IH]; intros t0 ep tot w Hk Hep.
  - exists [], t0, (running_state ep), [].
    split; [by rewrite app_nil_r|]. split; [constructor|].
    split; [by left|]. split; [done|].
    intros tot' H. injection H as <-.
    split; [done|]. unfold add_steps. simpl. destruct tot. simpl. f_equal. lia.
  - rewrite <- cons_seq, eval_steps_cons.
    destruct (eval_step_cases t0 ep tot w ltac:(lia) Hep)
      as [(e & -> & _)|[(call & e & -> & Hmade & Hrs & Hread)
         |(call & act & state & reward & terminated & truncated & env & ep'
           & -> & Hmade & Hrs & Hread & Hstep & Hep' & Hst & Hrw)]].
    + exists [], t0, (running_state ep), [].
      split; [by rewrite app_nil_r|]. split; [constructor|].
      split; [by left|]. by split.
    + exists [], t0, (running_state ep), [EvForward call].
      split; [done|]. split; [constructor|]. split; [|by split].
      right. by exists call.
    + destruct (terminated || truncated) eqn:Hstop.
      * exists [EvForward call; EvStep act state reward terminated truncated],
          (S t0), state, [].
        split; [by rewrite app_nil_r|]. split.
        { constructor; try done. constructor. }
        split; [by left|]. split; [done|].
        intros tot' H. by injection H as <-.
      * set (w1 := {| w_env := env; w_trace := _ |}).
        set (tot1 := {| total_reward := _; total_timesteps := _ |}).
        destruct (IH (S t0) ep' tot1 w1 ltac:(lia) Hep')
          as (evs & m & s1 & tail & Htr & Hc & Hd & Hres & Hok).
        exists ([EvForward call; EvStep act state reward terminated truncated] ++ evs),
          m, s1, tail.
        split.
        { rewrite Htr. subst w1. simpl. by rewrite <- !app_assoc. }
        split.
        { simpl. constructor; try done. by rewrite <- Hst. }
        split; [done|]. split; [done|].
        intros tot' Htot. destruct (Hok tot' Htot) as [-> ->].
        split; [done|].
        unfold add_steps. subst tot1. simpl. f_equal. lia.
Qed.

(** One episode. *)
Lemma eval_episode_spec act_dim state_dim tot w n0 s0 :
  exists evs m s1 tail,
    w_trace (episode_run act_dim state_dim tot w).1 = w_trace w ++ evs ++ tail
    /\ completed n0 s0 evs m s1
    /\ dangles m s1 tail
    /\ forall tot', (episode_run act_dim state_dim tot w).2 = Ok tot' ->
         tail = [] /\ tot' = add_steps tot evs /\ length (reset_states evs) = 1.
Proof.
  unfold eval_episode, pbind, do_reset, lift.
  destruct (env_reset (w_env w)) as [state env] eqn:Hreset. simpl.
  destruct (py_div rtg_target rtg_scale) as [rtg|e] eqn:Hdiv.
  - set (ep := {| ep_rollout := _; running_state := state;
                  running_reward := _; running_rtg := _ |}).
    set (w1 := emit (EvReset state) _).
    destruct (eval_steps_spec max_test_ep_len 0 ep tot w1 ltac:(lia))
      as (evs & m & s1 & tail & Htr & Hc & Hd & Hres & Hok).
    { subst ep. repeat split; simpl; by rewrite length_replicate. }
    exists (EvReset state :: evs), m, s1, tail.
    split.
    { rewrite Htr. subst w1. simpl. by rewrite <- app_assoc. }
    split; [by constructor|]. split; [done|].
    intros tot' Htot. destruct (Hok tot' Htot) as [-> ->].
    split; [done|]. split.
    + unfold add_steps. simpl. done.
    + rewrite app_nil_r in Hres. change (reset_states (EvReset state :: evs))
        with (state :: reset_states evs). by rewrite Hres.
  - exists [EvReset state], 0, state, []. simpl.
    split; [done|]. split; [repeat constructor|]. split; [by left|]. done.
Qed.

Lemma eval_episodes_S n act_dim state_dim tot w :
  episodes_run (S n) act_dim state_dim tot w =
    match episode_run act_dim state_dim tot w with
    | (w', Ok tot') => episodes_run n act_dim state_dim tot' w'
    | (w', Raise e) => (w', Raise e)
    end.
Proof.
  simpl. unfold pbind.
  by destruct (episode_run act_dim state_dim tot w) as [w' [tot'|e]].
Qed.

(** All episodes. *)
Lemma eval_episodes_spec n act_dim state_dim : forall tot w n0 s0,
  exists evs m s1 tail,
    w_trace (episodes_run n act_dim state_dim tot w).1 = w_trace w ++ evs ++ tail
    /\ completed n0 s0 evs m s1
    /\ dangles m s1 tail
    /\ forall tot', (episodes_run n act_dim state_dim tot w).2 = Ok tot' ->
         tail = [] /\ tot' = add_steps tot evs /\ length (reset_states evs) = n.
Proof.
  induction n as [|n IH]; intros tot w n0 s0.
  - exists [], n0, s0, []. simpl.
    split; [by rewrite app_nil_r|]. split; [constructor|]. split; [by left|].
    intros tot' H. injection H as <-. split; [done|]. split; [|done].
    unfold add_steps. simpl. destruct tot. simpl. f_equal. lia.
  - rewrite eval_episodes_S.
    destruct (eval_episode_spec act_dim state_dim tot w n0 s0)
      as (evs1 & m1 & s1 & tail1 & Htr1 & Hc1 & Hd1 & Hok1).
    destruct (episode_run act_dim state_dim tot w) as [w1 [tot1|e]] eqn:Hrun.
    + destruct (Hok1 tot1 eq_refl) as (-> & -> & Hres1).
      destruct (IH (add_steps tot evs1) w1 m1 s1)
        as (evs2 & m2 & s2 & tail2 & Htr2 & Hc2 & Hd2 & Hok2).
      exists (evs1 ++ evs2), m2, s2, tail2.
      split.
      { rewrite Htr2. simpl in Htr1. rewrite Htr1, app_nil_r. by rewrite <- !app_assoc. }
      split; [by eapply completed_app|]. split; [done|].
      intros tot' Htot. destruct (Hok2 tot' Htot) as (-> & -> & Hres2).
      split; [done|]. split; [by rewrite add_steps_app|].
      rewrite reset_states_app, length_app. lia.
    + exists evs1, m1, s1, tail1. by split_and!.
Qed.

(** With a policy that keeps its contract and a non-zero [rtg_scale], an
    iteration completes. *)
Lemma eval_step_ok t ep tot w :
  policy_contract forward -> 0 < context_len -> ~ (rtg_scale == 0)%Q ->
  t < max_test_ep_len -> episode_ok max_test_ep_len ep ->
  exists call act state reward terminated truncated env ep',
    step t ep tot w =
      ({| w_env := env;
          w_trace := w_trace w ++ [EvForward call;
                                   EvStep act state reward terminated truncated] |},
       Ok (ep',
           {| total_reward := (total_reward tot + reward)%Q;
              total_timesteps := total_timesteps tot + 1 |},
           terminated || truncated))
    /\ env_step (w_env w) act = (state, reward, terminated, truncated, env)
    /\ episode_ok max_test_ep_len ep'.
Proof.
  intros Hpol Hctx Hscale Ht Hep.
  destruct (eval_step_cases t ep tot w Ht Hep)
    as [(e & _ & Hdiv)|[(call & e & _ & Hmade & _ & Hread)
       |(call & act & state & reward & terminated & truncated & env & ep'
         & Hrun & _ & _ & _ & Hstep & Hep' & _)]].
  - by rewrite py_div_nonzero in Hdiv.
  - destruct (made_call_read forward context_len max_test_ep_len state_mean
                state_std t call Hpol Hctx Hmade) as [act Hact].
    congruence.
  - by exists call, act, state, reward, terminated, truncated, env, ep'.
Qed.

(** With such a policy the loops run to their end. *)
Lemma eval_steps_returns k : forall t0 ep tot w,
  policy_contract forward -> 0 < context_len -> ~ (rtg_scale == 0)%Q ->
  t0 + k <= max_test_ep_len -> episode_ok max_test_ep_len ep ->
  exists tot', (steps (seq t0 k) ep tot w).2 = Ok tot'.
Proof.
  induction k as [|k IH]; intros t0 ep tot w Hpol Hctx Hscale Hk Hep.
  - by exists tot.
  - rewrite <- cons_seq, eval_steps_cons.
    destruct (eval_step_ok t0 ep tot w Hpol Hctx Hscale ltac:(lia) Hep)
      as (call & act & state & reward & terminated & truncated & env & ep'
          & -> & _ & Hep').
    destruct (terminated || truncated); [by eexists|].
    apply IH; try done. lia.
Qed.

Lemma eval_episode_returns act_dim state_dim tot w :
  policy_contract forward -> 0 < context_len -> ~ (rtg_scale == 0)%Q ->
  exists tot', (episode_run act_dim state_dim tot w).2 = Ok tot'.
Proof.
  intros Hpol Hctx Hscale.
  unfold eval_episode, pbind, do_reset, lift.
  destruct (env_reset (w_env w)) as [state env]. simpl.
  rewrite (py_div_nonzero _ _ Hscale).
  apply eval_steps_returns; try done.
  repeat split; simpl; by rewrite length_replicate.
Qed.

Lemma eval_episodes_returns n act_dim state_dim : forall tot w,
  policy_contract forward -> 0 < context_len -> ~ (rtg_scale == 0)%Q ->
  exists tot', (episodes_run n act_dim state_dim tot w).2 = Ok tot'.
Proof.
  induction n as [|n IH]; intros tot w Hpol Hctx Hscale.
  - by exists tot.
  - rewrite eval_episodes_S.
    destruct (eval_episode_returns act_dim state_dim tot w Hpol Hctx Hscale)
      as [tot1 Htot1].
    destruct (episode_run act_dim state_dim tot w) as [w1 r]. simpl in Htot1.
    rewrite Htot1. by apply IH.
Qed.

End EvaluatorProperties.

(** *** The whole evaluation *)

Lemma evaluate_on_env_unfold
    (Env : Type) (env_reset : Env -> list Q * Env)
    (env_step : Env -> list Q -> (list Q * Q * bool * bool) * Env)
    (observation_shape action_shape : nat)
    (forward : list nat -> list (list Q) -> list (list Q) -> list Q -> list (list Q))
    (context_len : nat) (rtg_target rtg_scale : Q)
    (num_eval_ep max_test_ep_len : nat)
    (state_mean state_std : option (list Q)) (discrete_action : bool)
    (w : world Env) :
  evaluate_on_env Env env_reset env_step observation_shape action_shape forward
    context_len rtg_target rtg_scale num_eval_ep max_test_ep_len
    state_mean state_std discrete_action w =
  match
    eval_episodes Env env_reset env_step forward context_len rtg_target rtg_scale
      max_test_ep_len (state_mean_or_zeros observation_shape state_mean)
      (state_std_or_ones observation_shape state_std) (seq 0 max_test_ep_len)
      num_eval_ep (if discrete_action then 1 else action_shape) observation_shape
      {| total_reward := 0%Q; total_timesteps := 0 |} w
  with
  | (w', Raise e) => (w', Raise e)
  | (w', Ok tot) =>
      match py_div (total_reward tot) (inject_Z (Z.of_nat num_eval_ep)) with
      | Raise e => (w', Raise e)
      | Ok score =>
          match py_div (inject_Z (Z.of_nat (total_timesteps tot)))
                  (inject_Z (Z.of_nat num_eval_ep)) with
          | Raise e => (w', Raise e)
          | Ok len => (w', Ok {| avg_score := score; avg_ep_len := len |})
          end
      end
  end.
Proof.
  unfold evaluate_on_env, pbind, lift, ret.
  destruct (eval_episodes _ _ _ _ _ _ _ _ _ _ _ _ _ _ _ w) as [w' [tot|e]]; [|done].
  destruct (py_div (total_reward tot) _); [|done].
  by destruct (py_div (inject_Z _) _).
Qed.

Lemma evaluate_on_env_spec
    (Env : Type) (env_reset : Env -> list Q * Env)
    (env_step : Env -> list Q -> (list Q * Q * bool * bool) * Env)
    (observation_shape action_shape : nat)
    (forward : list nat -> list (list Q) -> list (list Q) -> list Q -> list (list Q))
    (context_len : nat) (rtg_target rtg_scale : Q)
    (num_eval_ep max_test_ep_len : nat)
    (state_mean state_std : option (list Q)) (discrete_action : bool)
    (w : world Env) :
  let run :=
    evaluate_on_env Env env_reset env_step observation_shape action_shape forward
      context_len rtg_target rtg_scale num_eval_ep max_test_ep_len
      state_mean state_std discrete_action w in
  let mean := state_mean_or_zeros observation_shape state_mean in
  let std := state_std_or_ones observation_shape state_std in
  exists evs m s tail,
    w_trace run.1 = w_trace w ++ evs ++ tail
    /\ steps_ok forward context_len max_test_ep_len mean std 0 [] evs m s
    /\ dangling context_len max_test_ep_len mean std m s tail
    /\ forall res, run.2 = Ok res ->
         tail = []
         /\ length (reset_states evs) = num_eval_ep
         /\ py_div (tensor_sum (step_rewards evs))
              (inject_Z (Z.of_nat num_eval_ep)) = Ok (avg_score res)
         /\ py_div (inject_Z (Z.of_nat (length (step_rewards evs))))
              (inject_Z (Z.of_nat num_eval_ep)) = Ok (avg_ep_len res).
Proof.
  intros run mean std. subst run. rewrite evaluate_on_env_unfold.
  fold mean std.
  set (act_dim := if discrete_action then 1 else action_shape).
  set (tot0 := {| total_reward := 0%Q; total_timesteps := 0 |}).
  destruct (eval_episodes_spec Env env_reset env_step forward context_len
              rtg_target rtg_scale max_test_ep_len mean std num_eval_ep
              act_dim observation_shape tot0 w 0 [])
    as (evs & m & s & tail & Htr & Hc & Hd & Hok).
  exists evs, m, s, tail.
  destruct (eval_episodes _ _ _ _ _ _ _ _ _ _ _ _ _ _ _ w) as [w1 [tot|e]] eqn:Hrun.
  2:{ by split_and!. }
  destruct (Hok tot eq_refl) as (-> & -> & Hres).
  simpl in Htr. unfold add_steps, tot0. simpl.
  fold (tensor_sum (step_rewards evs)).
  destruct (py_div (tensor_sum (step_rewards evs)) _) as [score|e] eqn:Hscore.
  2:{ by split_and!. }
  destruct (py_div (inject_Z (Z.of_nat (length (step_rewards evs)))) _)
    as [len|e] eqn:Hlen.
  2:{ by split_and!. }
  split_and!; try done.
  intros res [= <-]. simpl. by split_and!.
Qed.

Lemma inject_nat_nonzero (n : nat) :
  n <> 0 -> ~ (inject_Z (Z.of_nat n) == 0)%Q.
Proof.
  intros Hn H. unfold Qeq in H. simpl in H. lia.
Qed.

(** With a policy that keeps its contract, a non-zero [rtg_scale] and at
    least one episode, the evaluation returns its results. *)
Lemma evaluate_on_env_returns
    (Env : Type) (env_reset : Env -> list Q * Env)
    (env_step : Env -> list Q -> (list Q * Q * bool * bool) * Env)
    (observation_shape action_shape : nat)
    (forward : list nat -> list (list Q) -> list (list Q) -> list Q -> list (list Q))
    (context_len : nat) (rtg_target rtg_scale : Q)
    (num_eval_ep max_test_ep_len : nat)
    (state_mean state_std : option (list Q)) (discrete_action : bool)
    (w : world Env) :
  policy_contract forward -> 0 < context_len -> ~ (rtg_scale == 0)%Q ->
  num_eval_ep <> 0 ->
  exists res,
    (evaluate_on_env Env env_reset env_step observation_shape action_shape forward
       context_len rtg_target rtg_scale num_eval_ep max_test_ep_len
       state_mean state_std discrete_action w).2 = Ok res.
Proof.
  intros Hpol Hctx Hscale Hnum. rewrite evaluate_on_env_unfold.
  match goal with
  | |- context [eval_episodes _ _ _ _ _ _ _ _ ?m ?s _ ?n ?a ?d ?tot ?w0] =>
      destruct (eval_episodes_returns Env env_reset env_step forward context_len
                  rtg_target rtg_scale max_test_ep_len m s n a d tot w0
                  Hpol Hctx Hscale) as [tot' Htot]
  end.
  destruct (eval_episodes _ _ _ _ _ _ _ _ _ _ _ _ _ _ _ w) as [w1 r].
  simpl in Htot. rewrite Htot.
  rewrite !py_div_nonzero by (by apply inject_nat_nonzero).
  by eexists.
Qed.

(** *** The averages *)

Lemma py_div_Ok (a b v : Q) :
  py_div a b = Ok v -> v = (a / b)%Q /\ ~ (b == 0)%Q.
Proof.
  unfold py_div. destruct (Qeq_bool b 0) eqn:E; [done|].
  intros [= <-]. split; [done|]. by apply Qeq_bool_neq.
Qed.

(** An episode of the stub environment: the loop stops after the step that
    brings the count to four. *)
Lemma stub_eval_steps forward context_len rtg_scale max_test_ep_len state_mean state_std :
  policy_contract forward -> 0 < context_len -> ~ (rtg_scale == 0)%Q ->
  forall j k t0 ep tot (w : world nat),
    w_env w + S j = 4 -> S j <= k -> t0 + k <= max_test_ep_len ->
    episode_ok max_test_ep_len ep ->
    (eval_steps nat stub_step forward context_len rtg_scale state_mean state_std
       (seq 0 max_test_ep_len) (seq t0 k) ep tot w).2
      = Ok {| total_reward := foldl Qplus (total_reward tot) (replicate (S j) 1%Q);
              total_timesteps := total_timesteps tot + S j |}.
Proof.
  intros Hpol Hctx Hscale.
  induction j as [|j IH]; intros k t0 ep tot w Henv Hk Ht Hep;
    (destruct k as [|k]; [lia|]);
    rewrite <- cons_seq, eval_steps_cons;
    destruct (eval_step_ok nat stub_step forward context_len rtg_scale
                max_test_ep_len state_mean state_std t0 ep tot w
                Hpol Hctx Hscale ltac:(lia) Hep)
      as (call & act & state & reward & terminated & truncated & env & ep'
          & -> & Hstep & Hep');
    unfold stub_step in Hstep; injection Hstep as <- <- <- <- <-.
  - assert (Hw : w_env w = 3) by lia. rewrite Hw. reflexivity.
  - assert (Hw : (w_env w =? 3) = false) by (apply Nat.eqb_neq; lia).
    rewrite Hw. simpl orb. cbv iota.
    rewrite (IH k (S t0) ep' _ _); simpl; try done; try lia.
    do 2 f_equal. lia.
Qed.

Lemma stub_evaluate_on_env observation_shape action_shape forward context_len
    rtg_target rtg_scale max_test_ep_len state_mean state_std discrete_action
    (w : world nat) :
  policy_contract forward -> 0 < context_len -> ~ (rtg_scale == 0)%Q ->
  4 <= max_test_ep_len ->
  (evaluate_on_env nat stub_reset stub_step observation_shape action_shape forward
     context_len rtg_target rtg_scale 1 max_test_ep_len
     state_mean state_std discrete_action w).2
    = Ok {| avg_score := 4; avg_ep_len := 4 |}.
Proof.
  intros Hpol Hctx Hscale Hmax.
  rewrite evaluate_on_env_unfold, eval_episodes_S.
  unfold eval_episode at 1. unfold pbind, do_reset, lift. simpl.
  rewrite (py_div_nonzero _ _ Hscale).
  match goal with
  | |- context [eval_steps _ _ _ _ _ ?m ?s _ _ ?ep ?tot ?w0] =>
      pose proof (stub_eval_steps forward context_len rtg_scale max_test_ep_len
                    m s Hpol Hctx Hscale 3 max_test_ep_len 0 ep tot w0
                    eq_refl Hmax ltac:(lia)) as Hsteps
  end.
  simpl in Hsteps.
  destruct (eval_steps _ _ _ _ _ _ _ _ _ _ _ _) as [w1 r].
  simpl in Hsteps. rewrite Hsteps.
  { reflexivity. }
  repeat split; simpl; by rewrite length_replicate.
Qed.

Lemma stub_forward_contract : policy_contract stub_forward.
Proof.
  intros timesteps states actions rewards_to_go. unfold stub_forward.
  rewrite length_take, length_app, length_replicate. lia.
Qed.

(** C7.  [evaluate_on_env] returns [avg_score], the sum of the rewards of all
    environment steps of all [num_eval_ep] episodes divided by
    [num_eval_ep], and [avg_ep_len], the number of those steps divided by
    [num_eval_ep]; it does return them when the policy keeps its contract,
    [rtg_scale] is not zero and there is an episode.  Against the stub
    environment, whose episodes end at the fourth step with reward [1] at
    every step, one episode gives [avg_ep_len = 4] and [avg_score = 4]. *)
Theorem evaluation_averages :
  (forall (Env : Type) (env_reset : Env -> list Q * Env)
     (env_step : Env -> list Q -> (list Q * Q * bool * bool) * Env)
     (observation_shape action_shape : nat)
     (forward : list nat -> list (list Q) -> list (list Q) -> list Q -> list (list Q))
     (context_len : nat) (rtg_target rtg_scale : Q)
     (num_eval_ep max_test_ep_len : nat)
     (state_mean state_std : option (list Q)) (discrete_action : bool)
     (w : world Env),
     let run :=
       evaluate_on_env Env env_reset env_step observation_shape action_shape
         forward context_len rtg_target rtg_scale num_eval_ep max_test_ep_len
         state_mean state_std discrete_action w in
     exists evs,
       w_trace run.1 = w_trace w ++ evs
       /\ (forall res, run.2 = Ok res ->
             length (reset_states evs) = num_eval_ep
             /\ num_eval_ep <> 0
             /\ avg_score res
                  = (tensor_sum (step_rewards evs)
                     / inject_Z (Z.of_nat num_eval_ep))%Q
             /\ avg_ep_len res
                  = (inject_Z (Z.of_nat (length (step_rewards evs)))
                     / inject_Z (Z.of_nat num_eval_ep))%Q)
       /\ (policy_contract forward -> 0 < context_len ->
           ~ (rtg_scale == 0)%Q -> num_eval_ep <> 0 ->
           exists res, run.2 = Ok res))
  /\ (forall (observation_shape action_shape : nat)
        (forward : list nat -> list (list Q) -> list (list Q) -> list Q -> list (list Q))
        (context_len : nat) (rtg_target rtg_scale : Q) (max_test_ep_len : nat)
        (state_mean state_std : option (list Q)) (discrete_action : bool)
        (w : world nat),
        policy_contract forward -> 0 < context_len -> ~ (rtg_scale == 0)%Q ->
        4 <= max_test_ep_len ->
        (evaluate_on_env nat stub_reset stub_step observation_shape action_shape
           forward context_len rtg_target rtg_scale 1 max_test_ep_len
           state_mean state_std discrete_action w).2
          = Ok {| avg_score := 4; avg_ep_len := 4 |}).
Proof.
  split.
  - intros Env env_reset env_step observation_shape action_shape forward ctx
      rtg_target rtg_scale num_eval_ep max_test_ep_len mean std discrete w run.
    subst run.
    destruct (evaluate_on_env_spec Env env_reset env_step observation_shape
                action_shape forward ctx rtg_target rtg_scale num_eval_ep
                max_test_ep_len mean std discrete w)
      as (evs & m & s & tail & Htr & _ & _ & Hok).
    exists (evs ++ tail). split; [done|]. split.
    + intros res Hres. destruct (Hok res Hres) as (-> & Hn & Hscore & Hlen).
      rewrite app_nil_r.
      apply py_div_Ok in Hscore as [Hscore Hnz]. apply py_div_Ok in Hlen as [Hlen _].
      split_and!; try done.
      intros ->. by apply Hnz.
    + apply evaluate_on_env_returns.
  - intros. by apply stub_evaluate_on_env.
Qed.

Lemma evaluation_averages_witness :
  (evaluate_on_env nat stub_reset stub_step 1 1 stub_forward 2 10 1 1 6
     None None false {| w_env := 0; w_trace := [] |}).2
    = Ok {| avg_score := 4; avg_ep_len := 4 |}.
Proof.
  apply (proj2 evaluation_averages 1 1 stub_forward 2 10%Q 1%Q 6 None None false).
  - apply stub_forward_contract.
  - lia.
  - discriminate.
  - lia.
Defined.

(** *** The defaults of the statistics *)

Lemma Qminus_0_r (x : Q) : (x - 0)%Q = x.
Proof.
  destruct x as [n d]. unfold Qminus, Qplus, Qopp. simpl.
  f_equal; [lia | apply Pos.mul_1_r].
Qed.

Lemma Qdiv_1_r (x : Q) : (x / 1)%Q = x.
Proof.
  destruct x as [n d]. unfold Qdiv, Qmult, Qinv. simpl.
  f_equal; [lia | apply Pos.mul_1_r].
Qed.

Lemma zip_with_Qminus_zeros (row : list Q) (n : nat) :
  length row <= n -> zip_with Qminus row (replicate n 0%Q) = row.
Proof.
  revert n. induction row as [|x row IH]; intros n Hn; [done|].
  destruct n as [|n]; simpl in *; [lia|].
  rewrite Qminus_0_r, IH; [done | lia].
Qed.

Lemma zip_with_Qdiv_ones (row : list Q) (n : nat) :
  length row <= n -> zip_with Qdiv row (replicate n 1%Q) = row.
Proof.
  revert n. induction row as [|x row IH]; intros n Hn; [done|].
  destruct n as [|n]; simpl in *; [lia|].
  rewrite Qdiv_1_r, IH; [done | lia].
Qed.

(** C10, as the code has it.  A [state_mean] of [None] is replaced by the
    zero vector and a [state_std] of [None] by the ones vector, each on its
    own and without an error of its own.  At every step of every episode the
    state written into the placeholder is [(state - mean) / std] with these
    vectors: the state itself when both are [None], [state / state_std] when
    only [state_mean] is [None], and [state - state_mean] when only
    [state_std] is [None]. *)
Theorem default_state_statistics
    (Env : Type) (env_reset : Env -> list Q * Env)
    (env_step : Env -> list Q -> (list Q * Q * bool * bool) * Env)
    (observation_shape action_shape : nat)
    (forward : list nat -> list (list Q) -> list (list Q) -> list Q -> list (list Q))
    (context_len : nat) (rtg_target rtg_scale : Q)
    (num_eval_ep max_test_ep_len : nat)
    (state_mean state_std : option (list Q)) (discrete_action : bool)
    (w : world Env) :
  let run :=
    evaluate_on_env Env env_reset env_step observation_shape action_shape forward
      context_len rtg_target rtg_scale num_eval_ep max_test_ep_len
      state_mean state_std discrete_action w in
  (state_mean = None ->
   state_mean_or_zeros observation_shape state_mean = replicate observation_shape 0%Q)
  /\ (state_std = None ->
      state_std_or_ones observation_shape state_std = replicate observation_shape 1%Q)
  /\ (exists evs,
        w_trace run.1 = w_trace w ++ evs
        /\ forall pre call post, evs = pre ++ EvForward call :: post ->
             let t := steps_since_reset 0 pre in
             let state := current_state [] pre in
             fc_t call = t
             /\ fc_running_state call = state
             /\ exists written,
                  buf_states (fc_rollout call) !! t = Some written
                  /\ written
                       = zip_with Qdiv
                           (zip_with Qminus state
                              (state_mean_or_zeros observation_shape state_mean))
                           (state_std_or_ones observation_shape state_std)
                  /\ (length state = observation_shape ->
                      (state_mean = None -> state_std = None -> written = state)
                      /\ (forall std, state_mean = None -> state_std = Some std ->
                            written = zip_with Qdiv state std)
                      /\ (forall mean, state_mean = Some mean -> state_std = None ->
                            written = zip_with Qminus state mean)))
  /\ (policy_contract forward -> 0 < context_len -> ~ (rtg_scale == 0)%Q ->
      num_eval_ep <> 0 -> exists res, run.2 = Ok res).
Proof.
  intros run. split; [by intros ->|]. split; [by intros ->|]. split.
  2:{ apply evaluate_on_env_returns. }
  destruct (evaluate_on_env_spec Env env_reset env_step observation_shape
              action_shape forward context_len rtg_target rtg_scale num_eval_ep
              max_test_ep_len state_mean state_std discrete_action w)
    as (evs & m & s & tail & Htr & Hc & Hd & _).
  exists (evs ++ tail). split; [done|].
  intros pre call post Heq t state.
  destruct (completed_calls _ _ _ _ _ _ _ _ _ _ _ Hc Hd pre call post Heq)
    as [Hmade Hstate].
  destruct (made_call_context _ _ _ _ _ _ Hmade) as (Ht & _).
  destruct (made_call_state _ _ _ _ _ _ Hmade) as (Hwritten & _).
  split; [done|]. split; [done|].
  eexists. split; [exact Hwritten|]. fold state in Hstate. rewrite Hstate.
  split; [done|].
  intros Hlen. unfold normalize_state. split_and!.
  - intros -> ->. simpl.
    rewrite zip_with_Qminus_zeros by lia. by rewrite zip_with_Qdiv_ones by lia.
  - intros std -> ->. simpl. by rewrite zip_with_Qminus_zeros by lia.
  - intros mean -> ->. simpl. apply zip_with_Qdiv_ones.
    rewrite length_zip_with. lia.
Qed.

Lemma default_state_statistics_witness :
  exists res,
    (evaluate_on_env nat stub_reset stub_step 1 1 stub_forward 2 10 1 1 6
       None None false {| w_env := 0; w_trace := [] |}).2 = Ok res.
Proof.
  refine (proj2 (proj2 (proj2
            (default_state_statistics nat stub_reset stub_step 1 1 stub_forward
               2 10 1 1 6 None None false {| w_env := 0; w_trace := [] |})))
            _ _ _ _).
  - apply stub_forward_contract.
  - lia.
  - discriminate.
  - lia.
Defined.

(** C10, as stated, fails: with [state_mean = None] and
    [state_std = [2]], the state [[1]] of step [1] is written as [[1/2]]. *)
Lemma default_mean_alone_still_scales :
  exists call,
    w_trace (evaluate_on_env nat stub_reset stub_step 1 1 stub_forward 2 10 1 1 6
               None (Some [2%Q]) false {| w_env := 0; w_trace := [] |}).1 !! 3
      = Some (EvForward call)
    /\ fc_t call = 1
    /\ fc_running_state call = [1%Q]
    /\ buf_states (fc_rollout call) !! 1 = Some [1 # 2]%Q
    /\ Some [1 # 2]%Q <> Some (fc_running_state call).
Proof.
  eexists. split; [vm_compute; reflexivity|].
  split; [reflexivity|]. split; [reflexivity|]. split; [reflexivity|].
  discriminate.
Qed.

(** * Part III: further properties *)

(** ** discount_cumsum *)

(** X1.  [discount_cumsum] raises [IndexError] on an empty sequence and on
    no other; on a non-empty one it returns an array of the same length. *)
Theorem discount_cumsum_defined (x : list Q) (gamma : Q) :
  (x = [] /\ discount_cumsum x gamma = Raise IndexError)
  \/ (x <> [] /\ exists g, discount_cumsum x gamma = Ok g /\ length g = length x).
Proof.
  destruct x as [|x0 x].
  - left. by rewrite discount_cumsum_empty.
  - right. split; [done|].
    destruct (discount_cumsum_scanned (x0 :: x) gamma) as (g & Hg & Hsc); [done|].
    exists g. split; [done|]. apply Hsc.
Qed.

Lemma tensor_sum_imap_scale (c : Q) (l : list Q) : forall f g : nat -> Q -> Q,
  (forall k r, f k r == c * g k r)%Q ->
  (tensor_sum (imap f l) == c * tensor_sum (imap g l))%Q.
Proof.
  induction l as [|a l IH]; intros f g Hfg; simpl.
  - unfold tensor_sum. simpl. ring.
  - rewrite !tensor_sum_cons, Hfg.
    rewrite (IH (f ∘ S) (g ∘ S)) by (intros k r; apply Hfg). ring.
Qed.

Lemma discounted_return_cons (gamma a : Q) (l : list Q) :
  (discounted_return gamma (a :: l) == a + gamma * discounted_return gamma l)%Q.
Proof.
  unfold discounted_return. simpl. rewrite tensor_sum_cons.
  rewrite (tensor_sum_imap_scale gamma l _ (fun k r_k => (Qpow gamma k * r_k)%Q)).
  - ring.
  - intros k r. simpl. ring.
Qed.

Lemma scanned_discounted_return x gamma g :
  scanned x gamma 0 g ->
  forall k t, t + k + 1 = length x ->
    exists v, g !! t = Some v /\ (v == discounted_return gamma (drop t x))%Q.
Proof.
  intros [Hlen Hlast Hrec]. induction k as [|k IH]; intros t Ht.
  - replace (length x - 1) with t in Hlast by lia.
    destruct (lookup_lt_is_Some_2 x t ltac:(lia)) as [x_t Hx].
    exists x_t. split; [by rewrite Hlast|].
    rewrite (drop_S _ _ _ Hx), drop_ge by lia.
    rewrite discounted_return_cons. unfold discounted_return, tensor_sum. simpl. ring.
  - destruct (IH (S t) ltac:(lia)) as (v & Hv & Hsum).
    destruct (lookup_lt_is_Some_2 x t ltac:(lia)) as [x_t Hx].
    eexists. split; [apply Hrec; lia|].
    unfold at_index. replace (t + 1) with (S t) by lia.
    rewrite Hx, Hv. simpl.
    rewrite (drop_S _ _ _ Hx), discounted_return_cons, Hsum. ring.
Qed.

(** X2.  Every entry of the array that [discount_cumsum] returns is the
    discounted return of the rewards from its position on:
    [g[t] = x[t] + gamma * x[t+1] + gamma^2 * x[t+2] + ...], so that [g[t]]
    depends on the rewards [x[t:]] only. *)
Theorem discount_cumsum_discounted_return (x : list Q) (gamma : Q) (g : list Q) :
  discount_cumsum x gamma = Ok g ->
  forall t, t < length x ->
    exists v, g !! t = Some v /\ (v == discounted_return gamma (drop t x))%Q.
Proof.
  intros Hg t Ht. destruct x as [|x0 x]; [simpl in Ht; lia|].
  destruct (discount_cumsum_scanned (x0 :: x) gamma) as (g' & Hg' & Hsc); [done|].
  assert (g' = g) as -> by congruence.
  apply (scanned_discounted_return _ _ _ Hsc (length (x0 :: x) - t - 1) t). lia.
Qed.

Lemma discount_cumsum_discounted_return_witness :
  exists v, [(7 # 4); (3 # 2); 1]%Q !! 1 = Some v
    /\ (v == discounted_return (1 # 2) (drop 1 [1; 1; 1]%Q))%Q.
Proof.
  refine (discount_cumsum_discounted_return [1; 1; 1]%Q (1 # 2)%Q
            [(7 # 4); (3 # 2); 1]%Q _ 1 _).
  - vm_compute. reflexivity.
  - simpl. lia.
Defined.

(** ** get_d4rl_normalized_score, further *)

Lemma scalar_div_Finite (a : scalar) (b v : Q) :
  scalar_div a b = Ok (Finite v) ->
  v = (scalar_value a / b)%Q /\ ~ (b == 0)%Q.
Proof.
  destruct a as [a|a]; simpl.
  - destruct (py_div a b) as [q|] eqn:E; [|done]. simpl. intros [= <-].
    by apply py_div_Ok.
  - unfold np_div. destruct (Qeq_bool b 0) eqn:E.
    + by destruct (Qeq_bool a 0).
    + intros [= <-]. split; [done|]. by apply Qeq_bool_neq.
Qed.

Lemma normalized_score_Ok REF_MIN_SCORE REF_MAX_SCORE score env_name v :
  get_d4rl_normalized_score REF_MIN_SCORE REF_MAX_SCORE score env_name = Ok (Finite v) ->
  exists ref_min ref_max,
    REF_MIN_SCORE !! env_name = Some ref_min
    /\ REF_MAX_SCORE !! env_name = Some ref_max
    /\ v = ((scalar_value score - ref_min) / (ref_max - ref_min))%Q
    /\ ~ (ref_max - ref_min == 0)%Q.
Proof.
  unfold get_d4rl_normalized_score.
  destruct (REF_MIN_SCORE !! env_name) as [ref_min|]; simpl; [|done].
  destruct (REF_MAX_SCORE !! env_name) as [ref_max|]; simpl; [|done].
  intros H. apply scalar_div_Finite in H as [-> Hne].
  rewrite scalar_value_sub. by exists ref_min, ref_max.
Qed.

(** X3.  When the two reference scores of an environment are equal,
    [get_d4rl_normalized_score] raises [ZeroDivisionError] for every score
    that is a Python number; for a score that is a numpy scalar it raises
    nothing and returns [nan] at the reference score, [inf] above it and
    [-inf] below it. *)
Theorem normalized_score_equal_bounds
    (REF_MIN_SCORE REF_MAX_SCORE : gmap string Q) (env_name : string)
    (ref_min ref_max score : Q) :
  REF_MIN_SCORE !! env_name = Some ref_min ->
  REF_MAX_SCORE !! env_name = Some ref_max ->
  (ref_max == ref_min)%Q ->
  get_d4rl_normalized_score REF_MIN_SCORE REF_MAX_SCORE (PyNumber score) env_name
    = Raise ZeroDivisionError
  /\ ((score == ref_min)%Q ->
      get_d4rl_normalized_score REF_MIN_SCORE REF_MAX_SCORE (NpNumber score) env_name
        = Ok NaN)
  /\ ((ref_min < score)%Q ->
      get_d4rl_normalized_score REF_MIN_SCORE REF_MAX_SCORE (NpNumber score) env_name
        = Ok (Infinity true))
  /\ ((score < ref_min)%Q ->
      get_d4rl_normalized_score REF_MIN_SCORE REF_MAX_SCORE (NpNumber score) env_name
        = Ok (Infinity false)).
Proof.
  intros Hmin Hmax Heq.
  split; [by eapply normalized_score_python_equal|].
  rewrite (normalized_score_numpy_equal _ _ _ _ _ _ Hmin Hmax Heq).
  split; [|split].
  - intros Hs. rewrite (Qeq_eq_bool (score - ref_min) 0); [done|].
    rewrite Hs. ring.
  - intros Hlt.
    assert (Hpos : (0 < score - ref_min)%Q).
    { rewrite <- (Qplus_opp_r ref_min). apply Qplus_lt_le_compat; [done|apply Qle_refl]. }
    destruct (Qeq_bool (score - ref_min) 0) eqn:E.
    { apply Qeq_bool_eq in E. rewrite E in Hpos. by apply Qlt_irrefl in Hpos. }
    destruct (Qle_bool (score - ref_min) 0) eqn:E'; [|done].
    apply Qle_bool_imp_le in E'. by apply Qlt_not_le in Hpos.
  - intros Hlt.
    assert (Hneg : (score - ref_min < 0)%Q).
    { rewrite <- (Qplus_opp_r ref_min). apply Qplus_lt_le_compat; [done|apply Qle_refl]. }
    destruct (Qeq_bool (score - ref_min) 0) eqn:E.
    { apply Qeq_bool_eq in E. rewrite E in Hneg. by apply Qlt_irrefl in Hneg. }
    destruct (Qle_bool (score - ref_min) 0) eqn:E'; [done|].
    assert (Hle : Qle_bool (score - ref_min) 0 = true)
      by (by apply Qle_bool_iff, Qlt_le_weak).
    congruence.
Qed.

Lemma normalized_score_equal_bounds_witness :
  get_d4rl_normalized_score flat_ref_min flat_ref_max (PyNumber 7) "flat"
    = Raise ZeroDivisionError
  /\ ((7 == 5)%Q ->
      get_d4rl_normalized_score flat_ref_min flat_ref_max (NpNumber 7) "flat" = Ok NaN)
  /\ ((5 < 7)%Q ->
      get_d4rl_normalized_score flat_ref_min flat_ref_max (NpNumber 7) "flat"
        = Ok (Infinity true))
  /\ ((7 < 5)%Q ->
      get_d4rl_normalized_score flat_ref_min flat_ref_max (NpNumber 7) "flat"
        = Ok (Infinity false)).
Proof.
  apply (normalized_score_equal_bounds flat_ref_min flat_ref_max "flat"
           5%Q 5%Q 7%Q).
  - apply lookup_singleton_eq.
  - apply lookup_singleton_eq.
  - reflexivity.
Defined.

(** X4.  A normalized score determines the raw score it came from:
    whenever [get_d4rl_normalized_score] returns a number [v], the score is
    [ref_min + v * (ref_max - ref_min)] for the registered bounds. *)
Theorem normalized_score_inverse
    (REF_MIN_SCORE REF_MAX_SCORE : gmap string Q) (env_name : string)
    (score : scalar) (v : Q) :
  get_d4rl_normalized_score REF_MIN_SCORE REF_MAX_SCORE score env_name = Ok (Finite v) ->
  exists ref_min ref_max,
    REF_MIN_SCORE !! env_name = Some ref_min
    /\ REF_MAX_SCORE !! env_name = Some ref_max
    /\ (scalar_value score == ref_min + v * (ref_max - ref_min))%Q.
Proof.
  intros H. apply normalized_score_Ok in H as (ref_min & ref_max & Hmin & Hmax & -> & Hne).
  exists ref_min, ref_max. split; [done|]. split; [done|]. by field.
Qed.

Lemma normalized_score_inverse_witness :
  exists ref_min ref_max,
    example_ref_min !! "hopper" = Some ref_min
    /\ example_ref_max !! "hopper" = Some ref_max
    /\ (1607 == ref_min + ((1607 - (-20)) / (3234 - (-20))) * (ref_max - ref_min))%Q.
Proof.
  apply (normalized_score_inverse example_ref_min example_ref_max "hopper"
           (PyNumber 1607)).
  reflexivity.
Defined.

(** X5.  Normalization keeps the order of scores when the reference maximum
    is above the reference minimum, and reverses it when it is below. *)
Theorem normalized_score_monotone
    (REF_MIN_SCORE REF_MAX_SCORE : gmap string Q) (env_name : string)
    (ref_min ref_max : Q) (score1 score2 : scalar) (v1 v2 : Q) :
  REF_MIN_SCORE !! env_name = Some ref_min ->
  REF_MAX_SCORE !! env_name = Some ref_max ->
  get_d4rl_normalized_score REF_MIN_SCORE REF_MAX_SCORE score1 env_name = Ok (Finite v1) ->
  get_d4rl_normalized_score REF_MIN_SCORE REF_MAX_SCORE score2 env_name = Ok (Finite v2) ->
  (scalar_value score1 <= scalar_value score2)%Q ->
  ((ref_min < ref_max)%Q -> (v1 <= v2)%Q)
  /\ ((ref_max < ref_min)%Q -> (v2 <= v1)%Q).
Proof.
  intros Hmin Hmax H1 H2 Hle.
  apply normalized_score_Ok in H1 as (m1 & M1 & Hm1 & HM1 & -> & Hne).
  apply normalized_score_Ok in H2 as (m2 & M2 & Hm2 & HM2 & -> & _).
  assert (m1 = ref_min) as -> by congruence.
  assert (M1 = ref_max) as -> by congruence.
  assert (m2 = ref_min) as -> by congruence.
  assert (M2 = ref_max) as -> by congruence.
  split; intros Hlt.
  - assert (Hd : (0 < ref_max - ref_min)%Q).
    { rewrite <- (Qplus_opp_r ref_min). apply Qplus_lt_le_compat; [done|apply Qle_refl]. }
    unfold Qdiv. apply Qmult_le_compat_r.
    + apply Qplus_le_compat; [done|apply Qle_refl].
    + apply Qlt_le_weak, Qinv_lt_0_compat, Hd.
  - assert (Hd : (0 < ref_min - ref_max)%Q).
    { rewrite <- (Qplus_opp_r ref_max). apply Qplus_lt_le_compat; [done|apply Qle_refl]. }
    assert (E : forall s, ((s - ref_min) / (ref_max - ref_min)
                           == (ref_min - s) / (ref_min - ref_max))%Q).
    { intros s. field. split.
      - intros H. apply Qminus_zero_eq in H. rewrite H in Hlt. by apply Qlt_irrefl in Hlt.
      - done. }
    rewrite !E. unfold Qdiv. apply Qmult_le_compat_r.
    + apply Qplus_le_compat; [apply Qle_refl|]. by apply Qopp_le_compat.
    + apply Qlt_le_weak, Qinv_lt_0_compat, Hd.
Qed.

Lemma normalized_score_monotone_witness :
  ((-20 < 3234)%Q ->
     ((100 - (-20)) / (3234 - (-20)) <= (200 - (-20)) / (3234 - (-20)))%Q)
  /\ ((3234 < -20)%Q ->
     ((200 - (-20)) / (3234 - (-20)) <= (100 - (-20)) / (3234 - (-20)))%Q).
Proof.
  apply (normalized_score_monotone example_ref_min example_ref_max "hopper"
           (-20)%Q 3234%Q (PyNumber 100) (NpNumber 200)).
  - apply lookup_singleton_eq.
  - apply lookup_singleton_eq.
  - reflexivity.
  - reflexivity.
  - discriminate.
Defined.

(** ** __init__, further *)

Lemma init_returns_readable rtg_scale trajs min_len states :
  Forall readable trajs ->
  exists out_trajs out_min raws,
    init_returns rtg_scale trajs min_len states
      = Ok (out_trajs, out_min, states ++ raws)
    /\ Forall2 (fun traj obs => observations traj = Some obs) trajs raws.
Proof.
  intros Hall. revert min_len states.
  induction Hall as [|traj rest [[obs Ho] (rews & Hr & Hne)] _ IH];
    intros min_len states.
  - exists [], min_len, []. rewrite app_nil_r. by split; [|constructor].
  - simpl. rewrite Ho, Hr. simpl.
    destruct (discount_cumsum_scanned rews 1 Hne) as (disc & -> & _). simpl.
    destruct (IH (Z.min min_len (Z.of_nat (length obs))) (states ++ [obs]))
      as (r & m & raws & E & Hraws).
    rewrite E. simpl.
    exists (set_returns_to_go traj (array_div_scalar disc rtg_scale) :: r), m,
      (obs :: raws).
    split; [by rewrite <- app_assoc|]. by constructor.
Qed.

Lemma Forall2_observations_inj trajs raws1 raws2 :
  Forall2 (fun traj obs => observations traj = Some obs) trajs raws1 ->
  Forall2 (fun traj obs => observations traj = Some obs) trajs raws2 ->
  raws1 = raws2.
Proof.
  intros H1. revert raws2. induction H1 as [|traj obs rest raws Ho _ IH]; intros raws2 H2.
  - by apply Forall2_nil_inv_l in H2.
  - apply Forall2_cons_inv_l in H2 as (obs' & raws' & Ho' & H2 & ->).
    f_equal; [congruence | by apply IH].
Qed.

Lemma init_returns_first_failure rtg_scale good tail e :
  Forall readable good ->
  (forall min_len states, init_returns rtg_scale tail min_len states = Raise e) ->
  forall min_len states,
    init_returns rtg_scale (good ++ tail) min_len states = Raise e.
Proof.
  intros Hall Htail.
  induction Hall as [|traj good' [[obs Ho] (rews & Hr & Hne)] _ IH];
    intros min_len states.
  - apply Htail.
  - simpl. rewrite Ho, Hr. simpl.
    destruct (discount_cumsum_scanned rews 1 Hne) as (disc & -> & _). simpl.
    by rewrite IH.
Qed.

Section StoreFurther.
Variables np_mean np_std : list (list Q) -> list Q.

(** X6.  [__init__] raises [ValueError], from [np.concatenate], when the
    collection is empty, and when every record can be read but the
    observation rows of the collection differ in width. *)
Theorem init_value_error
    (pickled : list trajectory) (raws : list (list (list Q)))
    (ctx : nat) (rtg_scale : Q) (discrete : bool) :
  Forall readable pickled ->
  Forall2 (fun traj obs => observations traj = Some obs) pickled raws ->
  pickled = [] \/ row_widths_agree raws = false ->
  __init__ np_mean np_std pickled ctx rtg_scale discrete = Raise ValueError.
Proof.
  intros Hall Hraws Hbad. unfold __init__.
  destruct (init_returns_readable rtg_scale pickled (10 ^ 6)%Z [] Hall)
    as (trajs & m & raws' & -> & Hraws').
  assert (raws' = raws) as -> by (by eapply Forall2_observations_inj).
  simpl. unfold np_concatenate.
  destruct Hbad as [-> | ->].
  - by apply Forall2_nil_inv_l in Hraws as ->.
  - by destruct raws.
Qed.

(** X7.  The first record that cannot be read decides the exception of
    [__init__]: [KeyError] for ['observations'] when that key is missing,
    [KeyError] for ['rewards'] when only that key is missing, [IndexError]
    when its rewards are empty; the records after it are not looked at. *)
Theorem init_first_unreadable_record
    (good : list trajectory) (bad : trajectory) (rest : list trajectory)
    (ctx : nat) (rtg_scale : Q) (discrete : bool) :
  Forall readable good ->
  (observations bad = None ->
     __init__ np_mean np_std (good ++ bad :: rest) ctx rtg_scale discrete
       = Raise (KeyError "observations"))
  /\ (is_Some (observations bad) -> rewards bad = None ->
     __init__ np_mean np_std (good ++ bad :: rest) ctx rtg_scale discrete
       = Raise (KeyError "rewards"))
  /\ (is_Some (observations bad) -> rewards bad = Some [] ->
     __init__ np_mean np_std (good ++ bad :: rest) ctx rtg_scale discrete
       = Raise IndexError).
Proof.
  intros Hall. unfold __init__.
  split; [|split].
  - intros Ho.
    rewrite (init_returns_first_failure rtg_scale good (bad :: rest)
               (KeyError "observations") Hall); [done|].
    intros min_len states. simpl. by rewrite Ho.
  - intros [obs Ho] Hr.
    rewrite (init_returns_first_failure rtg_scale good (bad :: rest)
               (KeyError "rewards") Hall); [done|].
    intros min_len states. simpl. by rewrite Ho, Hr.
  - intros [obs Ho] Hr.
    rewrite (init_returns_first_failure rtg_scale good (bad :: rest)
               IndexError Hall); [done|].
    intros min_len states. simpl. by rewrite Ho, Hr.
Qed.

(** X8.  A store that [__init__] has built holds one record for every
    pickled record, in the same order ([__len__] is the size of the
    collection); each keeps its actions and its rewards, its observations
    keep their number of rows, and it has one return-to-go per reward. *)
Theorem init_keeps_records
    (pickled : list trajectory) (ctx : nat) (rtg_scale : Q) (discrete : bool)
    (self : D4RLTrajectoryDataset) :
  __init__ np_mean np_std pickled ctx rtg_scale discrete = Ok self ->
  __len__ self = length pickled
  /\ forall i traj0, pickled !! i = Some traj0 ->
       exists traj obs0 obs rews rtg,
         trajectories self !! i = Some traj
         /\ actions traj = actions traj0
         /\ rewards traj = rewards traj0
         /\ observations traj0 = Some obs0
         /\ observations traj = Some obs
         /\ length obs = length obs0
         /\ rewards traj0 = Some rews
         /\ returns_to_go traj = Some rtg
         /\ length rtg = length rews.
Proof.
  intros H. apply init_stored in H as (raws & _ & _ & _ & Hst & _ & _).
  split.
  - unfold __len__. symmetry. by eapply Forall2_length.
  - intros i traj0 Hi.
    destruct (Forall2_lookup_l _ _ _ _ _ Hst Hi)
      as (traj & Htraj & obs & rews & disc & Ho & Hr & Hd & ->).
    exists {| observations := Some (normalize_observations (state_mean self) (state_std self) obs);
              actions := actions traj0; rewards := Some rews;
              returns_to_go := Some (array_div_scalar disc rtg_scale) |},
      obs, (normalize_observations (state_mean self) (state_std self) obs), rews,
      (array_div_scalar disc rtg_scale).
    simpl. repeat split; try done.
    + unfold normalize_observations. by rewrite length_fmap.
    + unfold array_div_scalar. rewrite length_fmap.
      by eapply discount_cumsum_length.
Qed.

End StoreFurther.

Lemma init_value_error_witness :
  __init__ np_mean_exact np_std_exact ragged_pickled 2 1 false = Raise ValueError.
Proof.
  apply (init_value_error np_mean_exact np_std_exact ragged_pickled [[[1]; [3]]; [[3; 4]]]%Q).
  - repeat constructor; simpl; eauto.
  - repeat constructor.
  - right. reflexivity.
Defined.

Lemma init_first_unreadable_record_witness :
  (observations empty_record = None ->
     __init__ np_mean_exact np_std_exact (example_pickled ++ empty_record :: [malformed_record])
       2 1 false = Raise (KeyError "observations"))
  /\ (is_Some (observations empty_record) -> rewards empty_record = None ->
     __init__ np_mean_exact np_std_exact (example_pickled ++ empty_record :: [malformed_record])
       2 1 false = Raise (KeyError "rewards"))
  /\ (is_Some (observations empty_record) -> rewards empty_record = Some [] ->
     __init__ np_mean_exact np_std_exact (example_pickled ++ empty_record :: [malformed_record])
       2 1 false = Raise IndexError).
Proof.
  apply (init_first_unreadable_record np_mean_exact np_std_exact example_pickled empty_record [malformed_record]).
  repeat constructor; simpl; eauto.
Defined.

Lemma init_keeps_records_witness :
  __len__ example_store = 2
  /\ forall i traj0, example_pickled !! i = Some traj0 ->
       exists traj obs0 obs rews rtg,
         trajectories example_store !! i = Some traj
         /\ actions traj = actions traj0
         /\ rewards traj = rewards traj0
         /\ observations traj0 = Some obs0
         /\ observations traj = Some obs
         /\ length obs = length obs0
         /\ rewards traj0 = Some rews
         /\ returns_to_go traj = Some rtg
         /\ length rtg = length rews.
Proof.
  apply (init_keeps_records np_mean_exact np_std_exact example_pickled 2 1 false
           example_store example_store_init).
Defined.

Lemma init_returns_same_data rtg_scale trajs trajs' :
  Forall2 same_data trajs trajs' ->
  forall min_len states,
    init_returns rtg_scale trajs' min_len states
    = init_returns rtg_scale trajs min_len states.
Proof.
  induction 1 as [|traj traj' rest rest' (Ho & Ha & Hr) _ IH]; intros min_len states.
  - done.
  - simpl. unfold set_returns_to_go. rewrite <- Ho, <- Ha, <- Hr.
    destruct (observations traj) as [obs|]; [|done]. simpl.
    destruct (rewards traj) as [rews|]; [|done]. simpl.
    destruct (discount_cumsum rews 1) as [disc|]; [|done]. simpl.
    by rewrite IH.
Qed.

(** X20.  [__init__] does not read a ['returns_to_go'] that the records
    already carry, and neither the data it builds nor the exception it
    raises depends on [context_len] or [discrete_action], which are only
    stored. *)
Theorem init_ignores_returns_to_go_and_context
    (np_mean np_std : list (list Q) -> list Q)
    (pickled pickled' : list trajectory) (ctx ctx' : nat) (rtg_scale : Q)
    (discrete discrete' : bool) :
  Forall2 same_data pickled pickled' ->
  __init__ np_mean np_std pickled' ctx' rtg_scale discrete'
  = match __init__ np_mean np_std pickled ctx rtg_scale discrete with
    | Ok self =>
        Ok {| context_len := ctx'; discrete_action := discrete';
              trajectories := trajectories self;
              state_mean := state_mean self; state_std := state_std self |}
    | Raise e => Raise e
    end.
Proof.
  intros Hsame. unfold __init__.
  rewrite (init_returns_same_data rtg_scale pickled pickled' Hsame).
  destruct (init_returns rtg_scale pickled _ _) as [[[trajs m] states]|]; [|done].
  simpl. destruct (np_concatenate states) as [cat|]; [|done]. simpl.
  by destruct (init_normalize _ _ trajs).
Qed.

Lemma init_ignores_returns_to_go_and_context_witness :
  __init__ np_mean_exact np_std_exact
    [ {| observations := Some [[1]; [3]; [1]]%Q; actions := Some [[0]; [1]; [0]]%Q;
         rewards := Some [1; 1; 1]%Q; returns_to_go := Some [9; 9; 9]%Q |};
      {| observations := Some [[3]]%Q; actions := Some [[1]]%Q;
         rewards := Some [1]%Q; returns_to_go := Some [9]%Q |} ]
    5 1 true
  = match __init__ np_mean_exact np_std_exact example_pickled 2 1 false with
    | Ok self =>
        Ok {| context_len := 5; discrete_action := true;
              trajectories := trajectories self;
              state_mean := state_mean self; state_std := state_std self |}
    | Raise e => Raise e
    end.
Proof.
  apply (init_ignores_returns_to_go_and_context np_mean_exact np_std_exact
           example_pickled).
  repeat constructor.
Defined.

(** ** __len__ and __getitem__, further *)

Lemma py_getitem_in_range {A : Type} (a : list A) (idx : Z) :
  (- Z.of_nat (length a) <= idx < Z.of_nat (length a))%Z ->
  exists p v, py_index (length a) idx = Ok p /\ a !! p = Some v
              /\ py_getitem a idx = Ok v.
Proof.
  intros Hidx. unfold py_getitem, py_index.
  destruct (decide (0 <= idx < Z.of_nat (length a))%Z) as [H|H].
  - destruct (lookup_lt_is_Some_2 a (Z.to_nat idx) ltac:(lia)) as [v Hv].
    exists (Z.to_nat idx), v. simpl. by rewrite Hv.
  - rewrite decide_True by lia.
    destruct (lookup_lt_is_Some_2 a (Z.to_nat (idx + Z.of_nat (length a))) ltac:(lia))
      as [v Hv].
    exists (Z.to_nat (idx + Z.of_nat (length a))), v. simpl. by rewrite Hv.
Qed.

Lemma py_getitem_out_of_range {A : Type} (a : list A) (idx : Z) :
  (idx < - Z.of_nat (length a) \/ Z.of_nat (length a) <= idx)%Z ->
  py_getitem a idx = Raise IndexError.
Proof.
  intros Hidx. unfold py_getitem, py_index.
  rewrite decide_False by lia. by rewrite decide_False by lia.
Qed.

Lemma py_getitem_negative {A : Type} (a : list A) (idx : Z) :
  (- Z.of_nat (length a) <= idx < 0)%Z ->
  py_getitem a idx = py_getitem a (idx + Z.of_nat (length a)).
Proof.
  intros Hidx. unfold py_getitem, py_index.
  rewrite decide_False by lia. rewrite decide_True by lia.
  by rewrite (decide_True (P := (0 <= idx + _ < _)%Z)) by lia.
Qed.

(** X9.  [__getitem__] accepts the indices [-len(self) .. len(self) - 1]:
    an index outside this range raises [IndexError], and a negative index
    in it counts from the end, [self[idx]] being [self[idx + len(self)]]. *)
Theorem getitem_index_range (self : D4RLTrajectoryDataset) (idx : Z) :
  ((idx < - Z.of_nat (__len__ self) \/ Z.of_nat (__len__ self) <= idx)%Z ->
     __getitem__ self idx = [Raise IndexError])
  /\ ((- Z.of_nat (__len__ self) <= idx < 0)%Z ->
     __getitem__ self idx = __getitem__ self (idx + Z.of_nat (__len__ self)))
  /\ ((- Z.of_nat (__len__ self) <= idx < Z.of_nat (__len__ self))%Z ->
     forall outcome, outcome ∈ __getitem__ self idx -> outcome <> Raise IndexError).
Proof.
  unfold __len__. split; [|split].
  - intros Hidx. unfold __getitem__. by rewrite py_getitem_out_of_range.
  - intros Hidx. unfold __getitem__. by rewrite py_getitem_negative.
  - intros Hidx outcome Hin.
    destruct (py_getitem_in_range (trajectories self) idx Hidx) as (p & traj & _ & _ & Hget).
    destruct (observations traj) as [obs|] eqn:Ho.
    + rewrite (getitem_unfold _ _ _ _ Hget Ho) in Hin.
      destruct (decide (context_len self <= length obs)).
      * apply list_elem_of_fmap in Hin as (si & -> & _).
        unfold getitem_at. rewrite Ho. simpl.
        destruct (actions traj); [|done]. simpl.
        by destruct (returns_to_go traj).
      * apply list_elem_of_singleton in Hin as ->.
        unfold getitem_padded. rewrite Ho. simpl.
        destruct (actions traj); [|done]. simpl.
        by destruct (returns_to_go traj).
    + unfold __getitem__ in Hin. rewrite Hget, Ho in Hin.
      by apply list_elem_of_singleton in Hin as ->.
Qed.

(** X10.  For a record that has observations but no ['actions'] key,
    which [__init__] accepts, every outcome of [__getitem__] is the
    [KeyError] of ['actions']. *)
Theorem getitem_without_actions
    (self : D4RLTrajectoryDataset) (idx : Z) (traj : trajectory) :
  py_getitem (trajectories self) idx = Ok traj ->
  is_Some (observations traj) ->
  actions traj = None ->
  __getitem__ self idx <> []
  /\ forall outcome, outcome ∈ __getitem__ self idx ->
       outcome = Raise (KeyError "actions").
Proof.
  intros Hget [obs Ho] Ha.
  rewrite (getitem_unfold _ _ _ _ Hget Ho).
  destruct (decide (context_len self <= length obs)).
  - split.
    + unfold randint. by replace (S (length obs - context_len self) - 0)
        with (S (length obs - context_len self)) by lia.
    + intros outcome Hin. apply list_elem_of_fmap in Hin as (si & -> & _).
      unfold getitem_at. by rewrite Ho, Ha.
  - split; [done|]. intros outcome Hin.
    apply list_elem_of_singleton in Hin as ->.
    unfold getitem_padded. by rewrite Ho, Ha.
Qed.

Lemma getitem_without_actions_witness :
  __getitem__ malformed_store 0 <> []
  /\ forall outcome, outcome ∈ __getitem__ malformed_store 0 ->
       outcome = Raise (KeyError "actions").
Proof.
  apply (getitem_without_actions malformed_store 0
           {| observations := Some [[-2000000 # 2000002]; [2000000 # 2000002]]%Q;
              actions := None; rewards := Some [1; 1; 1]%Q;
              returns_to_go := Some [3; 2; 1]%Q |}).
  - reflexivity.
  - simpl. eauto.
  - reflexivity.
Defined.

Section StoreAccess.
Variables np_mean np_std : list (list Q) -> list Q.

(** X11.  On a store that [__init__] has built from records whose
    observations, actions and rewards have one entry per time step,
    [__getitem__] succeeds for every index in range and every start offset
    it can draw: there are [max(L - context_len, 0) + 1] equally likely
    outcomes for a trajectory of length [L], each is a window whose five
    sequences have the length [context_len], and its mask sums to
    [min(L, context_len)]. *)
Theorem getitem_after_init
    (pickled : list trajectory) (ctx : nat) (rtg_scale : Q) (discrete : bool)
    (self : D4RLTrajectoryDataset) (idx : Z) :
  __init__ np_mean np_std pickled ctx rtg_scale discrete = Ok self ->
  Forall aligned pickled ->
  (- Z.of_nat (__len__ self) <= idx < Z.of_nat (__len__ self))%Z ->
  exists traj0 obs0,
    py_getitem pickled idx = Ok traj0
    /\ observations traj0 = Some obs0
    /\ length (__getitem__ self idx) = S (length obs0 - ctx)
    /\ forall outcome, outcome ∈ __getitem__ self idx ->
         exists w, outcome = Ok w
           /\ length (w_timesteps w) = ctx
           /\ length (w_states w) = ctx
           /\ length (w_actions w) = ctx
           /\ length (w_returns_to_go w) = ctx
           /\ length (w_traj_mask w) = ctx
           /\ tensor_sum (w_traj_mask w)
              = inject_Z (Z.of_nat (length obs0 `min` ctx)).
Proof.
  intros Hinit Hal Hidx.
  apply init_stored in Hinit as (raws & _ & _ & _ & Hst & Hctx & _).
  unfold __len__ in Hidx.
  assert (Hlen : length pickled = length (trajectories self))
    by (by eapply Forall2_length).
  destruct (py_getitem_in_range (trajectories self) idx Hidx)
    as (p & traj & Hp & Htraj & Hget).
  destruct (Forall2_lookup_r _ _ _ _ _ Hst Htraj)
    as (traj0 & Htraj0 & obs & rews & disc & Ho & Hr & Hd & ->).
  rewrite Forall_lookup in Hal.
  destruct (Hal _ _ Htraj0) as (obs' & acts & rews' & Ho' & Ha & Hr' & Hla & Hlr).
  assert (obs' = obs) as -> by congruence.
  assert (rews' = rews) as -> by congruence.
  exists traj0, obs. split; [|split; [done|]].
  { unfold py_getitem. rewrite Hlen, Hp. simpl. by rewrite Htraj0. }
  rewrite (getitem_unfold _ _ _ _ Hget eq_refl).
  unfold normalize_observations. rewrite length_fmap, Hctx.
  assert (Hld : length disc = length obs).
  { rewrite <- Hlr. by eapply discount_cumsum_length. }
  destruct (decide (ctx <= length obs)) as [Hlong|Hshort].
  - split.
    { rewrite length_fmap. unfold randint. rewrite length_seq. lia. }
    intros outcome Hin. apply list_elem_of_fmap in Hin as (si & -> & Hsi).
    unfold randint in Hsi. apply elem_of_seq in Hsi.
    unfold getitem_at. simpl. rewrite Ha. simpl.
    eexists. split; [reflexivity|]. simpl.
    unfold array_div_scalar.
    rewrite !slice_length by (rewrite ?length_fmap; lia).
    rewrite length_seq, length_replicate.
    repeat split; try lia.
    rewrite <- (app_nil_r (replicate ctx 1%Q)).
    change (@nil Q) with (replicate 0 0%Q).
    rewrite tensor_sum_mask. do 2 f_equal. lia.
  - split.
    { simpl. lia. }
    intros outcome Hin. apply list_elem_of_singleton in Hin as ->.
    unfold getitem_padded. simpl. rewrite Ha. simpl.
    eexists. split; [reflexivity|]. simpl.
    unfold zeros_like_rows, array_div_scalar.
    rewrite !length_app, !length_replicate, !length_fmap, length_seq.
    repeat split; try lia.
    rewrite tensor_sum_mask. do 2 f_equal. lia.
Qed.

End StoreAccess.

Lemma getitem_after_init_witness :
  exists traj0 obs0,
    py_getitem example_pickled (-2) = Ok traj0
    /\ observations traj0 = Some obs0
    /\ length (__getitem__ example_store (-2)) = S (length obs0 - 2)
    /\ forall outcome, outcome ∈ __getitem__ example_store (-2) ->
         exists w, outcome = Ok w
           /\ length (w_timesteps w) = 2
           /\ length (w_states w) = 2
           /\ length (w_actions w) = 2
           /\ length (w_returns_to_go w) = 2
           /\ length (w_traj_mask w) = 2
           /\ tensor_sum (w_traj_mask w)
              = inject_Z (Z.of_nat (length obs0 `min` 2)).
Proof.
  apply (getitem_after_init np_mean_exact np_std_exact example_pickled 2 1 false
           example_store (-2) example_store_init).
  - repeat constructor; simpl; by eexists _, _, _.
  - vm_compute. split; [discriminate | reflexivity].
Defined.

(** ** evaluate_on_env, further *)

(** *** Divisions by zero *)

(** X12.  With [num_eval_ep = 0], [evaluate_on_env] raises
    [ZeroDivisionError] without resetting or stepping the environment and
    without calling the policy. *)
Theorem evaluate_no_episodes
    (Env : Type) (env_reset : Env -> list Q * Env)
    (env_step : Env -> list Q -> (list Q * Q * bool * bool) * Env)
    (observation_shape action_shape : nat)
    (forward : list nat -> list (list Q) -> list (list Q) -> list Q -> list (list Q))
    (context_len : nat) (rtg_target rtg_scale : Q) (max_test_ep_len : nat)
    (state_mean state_std : option (list Q)) (discrete_action : bool)
    (w : world Env) :
  evaluate_on_env Env env_reset env_step observation_shape action_shape forward
    context_len rtg_target rtg_scale 0 max_test_ep_len
    state_mean state_std discrete_action w
  = (w, Raise ZeroDivisionError).
Proof. by rewrite evaluate_on_env_unfold. Qed.

(** X13.  With [rtg_scale = 0] and at least one episode to run,
    [evaluate_on_env] raises [ZeroDivisionError] right after the first
    [env.reset()]: the policy is not called and the environment is not
    stepped. *)
Theorem evaluate_zero_rtg_scale
    (Env : Type) (env_reset : Env -> list Q * Env)
    (env_step : Env -> list Q -> (list Q * Q * bool * bool) * Env)
    (observation_shape action_shape : nat)
    (forward : list nat -> list (list Q) -> list (list Q) -> list Q -> list (list Q))
    (context_len : nat) (rtg_target rtg_scale : Q)
    (num_eval_ep max_test_ep_len : nat)
    (state_mean state_std : option (list Q)) (discrete_action : bool)
    (w : world Env) :
  (rtg_scale == 0)%Q ->
  num_eval_ep <> 0 ->
  evaluate_on_env Env env_reset env_step observation_shape action_shape forward
    context_len rtg_target rtg_scale num_eval_ep max_test_ep_len
    state_mean state_std discrete_action w
  = ({| w_env := (env_reset (w_env w)).2;
        w_trace := w_trace w ++ [EvReset (env_reset (w_env w)).1] |},
     Raise ZeroDivisionError).
Proof.
  intros Hscale Hnum. destruct num_eval_ep as [|n]; [done|].
  rewrite evaluate_on_env_unfold, eval_episodes_S.
  unfold eval_episode, pbind, do_reset, lift.
  destruct (env_reset (w_env w)) as [state env]. simpl.
  unfold py_div. by rewrite (Qeq_eq_bool _ _ Hscale).
Qed.

Lemma evaluate_zero_rtg_scale_witness :
  evaluate_on_env nat stub_reset stub_step 1 1 stub_forward
    2 10 (0 # 5) 3 8 None None false {| w_env := 0; w_trace := [] |}
  = ({| w_env := 0; w_trace := [EvReset [0%Q]] |}, Raise ZeroDivisionError).
Proof.
  apply (evaluate_zero_rtg_scale nat stub_reset stub_step 1 1 stub_forward
           2 10 (0 # 5) 3 8 None None false {| w_env := 0; w_trace := [] |}).
  - reflexivity.
  - discriminate.
Defined.

(** *** The length of the episodes *)

Section EpisodeLength.
Variable Env : Type.
Variable env_reset : Env -> list Q * Env.
Variable env_step : Env -> list Q -> (list Q * Q * bool * bool) * Env.
Variable forward : list nat -> list (list Q) -> list (list Q) -> list Q -> list (list Q).
Variables (context_len : nat) (rtg_target rtg_scale : Q) (max_test_ep_len : nat)
  (state_mean state_std : list Q).

Lemma eval_steps_count k : forall t0 ep tot w tot',
  t0 + k <= max_test_ep_len -> episode_ok max_test_ep_len ep ->
  (eval_steps Env env_step forward context_len rtg_scale state_mean state_std
     (seq 0 max_test_ep_len) (seq t0 k) ep tot w).2 = Ok tot' ->
  total_timesteps tot + 1 `min` k <= total_timesteps tot'
  /\ total_timesteps tot' <= total_timesteps tot + k.
Proof.
  induction k as [|k IH]; intros t0 ep tot w tot' Hk Hep.
  - simpl. intros [= <-]. lia.
  - rewrite <- cons_seq, eval_steps_cons.
    destruct (eval_step_cases Env env_step forward context_len rtg_scale
                max_test_ep_len state_mean state_std t0 ep tot w ltac:(lia) Hep)
      as [(e & -> & _)|[(call & e & -> & _)
         |(call & act & state & reward & terminated & truncated & env & ep'
           & -> & _ & _ & _ & _ & Hep' & _)]]; [done|done|].
    destruct (terminated || truncated).
    + simpl. intros [= <-]. simpl. lia.
    + intros H. apply IH in H; [|lia|done]. simpl in H. lia.
Qed.

Lemma eval_episode_count act_dim state_dim tot w tot' :
  (eval_episode Env env_reset env_step forward context_len rtg_target rtg_scale
     max_test_ep_len state_mean state_std (seq 0 max_test_ep_len)
     act_dim state_dim tot w).2 = Ok tot' ->
  total_timesteps tot + 1 `min` max_test_ep_len <= total_timesteps tot'
  /\ total_timesteps tot' <= total_timesteps tot + max_test_ep_len.
Proof.
  unfold eval_episode, pbind, do_reset, lift.
  destruct (env_reset (w_env w)) as [state env]. simpl.
  destruct (py_div rtg_target rtg_scale) as [rtg|e]; [|done].
  apply eval_steps_count; [lia|].
  repeat split; simpl; by rewrite length_replicate.
Qed.

Lemma eval_episodes_count n act_dim state_dim : forall tot w tot',
  (eval_episodes Env env_reset env_step forward context_len rtg_target rtg_scale
     max_test_ep_len state_mean state_std (seq 0 max_test_ep_len)
     n act_dim state_dim tot w).2 = Ok tot' ->
  total_timesteps tot + n * (1 `min` max_test_ep_len) <= total_timesteps tot'
  /\ total_timesteps tot' <= total_timesteps tot + n * max_test_ep_len.
Proof.
  induction n as [|n IH]; intros tot w tot'.
  - simpl. intros [= <-]. lia.
  - rewrite eval_episodes_S.
    destruct (eval_episode _ _ _ _ _ _ _ _ _ _ _ _ _ tot w) as [w1 [tot1|e]] eqn:Hrun;
      [|done].
    pose proof (eval_episode_count act_dim state_dim tot w tot1) as H1.
    rewrite Hrun in H1. specialize (H1 eq_refl).
    intros H. apply IH in H. lia.
Qed.

End EpisodeLength.

(** X14.  The average episode length that [evaluate_on_env] returns is at
    most [max_test_ep_len], and at least [1] when [max_test_ep_len] is not
    zero: no episode is run for more than [max_test_ep_len] steps, and every
    episode takes a first step. *)
Theorem average_episode_length_bounds
    (Env : Type) (env_reset : Env -> list Q * Env)
    (env_step : Env -> list Q -> (list Q * Q * bool * bool) * Env)
    (observation_shape action_shape : nat)
    (forward : list nat -> list (list Q) -> list (list Q) -> list Q -> list (list Q))
    (context_len : nat) (rtg_target rtg_scale : Q)
    (num_eval_ep max_test_ep_len : nat)
    (state_mean state_std : option (list Q)) (discrete_action : bool)
    (w : world Env) (res : results) :
  (evaluate_on_env Env env_reset env_step observation_shape action_shape forward
     context_len rtg_target rtg_scale num_eval_ep max_test_ep_len
     state_mean state_std discrete_action w).2 = Ok res ->
  (avg_ep_len res <= inject_Z (Z.of_nat max_test_ep_len))%Q
  /\ (0 < max_test_ep_len -> (1 <= avg_ep_len res)%Q).
Proof.
  rewrite evaluate_on_env_unfold.
  destruct (eval_episodes _ _ _ _ _ _ _ _ _ _ _ _ _ _ _ w) as [w1 [tot|e]] eqn:Hrun;
    [|done].
  apply (f_equal snd) in Hrun. simpl in Hrun.
  apply eval_episodes_count in Hrun as Hcount.
  cbn [total_timesteps Nat.add] in Hcount.
  destruct (py_div (total_reward tot) _) as [score|e]; [|done].
  destruct (py_div (inject_Z _) _) as [len|e] eqn:Hlen; [|done].
  simpl. intros [= <-]. simpl.
  apply py_div_Ok in Hlen as [-> Hnum].
  assert (Hpos : (0 < inject_Z (Z.of_nat num_eval_ep))%Q).
  { destruct num_eval_ep as [|n]; [by destruct Hnum|].
    rewrite <- (Zlt_Qlt 0). lia. }
  split.
  - apply Qle_shift_div_r; [done|].
    rewrite <- inject_Z_mult, <- Zle_Qle, <- Nat2Z.inj_mul.
    apply Nat2Z.inj_le. lia.
  - intros Hmax. apply Qle_shift_div_l; [done|].
    rewrite Qmult_1_l, <- Zle_Qle.
    replace (1 `min` max_test_ep_len) with 1 in Hcount by lia. lia.
Qed.

Lemma average_episode_length_bounds_witness :
  (4 <= inject_Z (Z.of_nat 8))%Q /\ (0 < 8 -> (1 <= 4)%Q).
Proof.
  apply (average_episode_length_bounds nat stub_reset stub_step 1 1 stub_forward
           2 10 1 1 8 None None false {| w_env := 0; w_trace := [] |}
           {| avg_score := 4; avg_ep_len := 4 |}).
  apply stub_evaluate_on_env.
  - apply stub_forward_contract.
  - lia.
  - discriminate.
  - lia.
Defined.

(** *** The windows *)

Lemma made_call_lengths context_len max_test_ep_len state_mean state_std t call :
  made_call context_len max_test_ep_len state_mean state_std t call ->
  length (fc_timesteps call) = context_len `min` max_test_ep_len
  /\ length (fc_states call) = context_len `min` max_test_ep_len
  /\ length (fc_actions call) = context_len `min` max_test_ep_len
  /\ length (fc_rewards_to_go call) = context_len `min` max_test_ep_len.
Proof.
  intros (rs & acts & sts & rtgs & rtg & Ht & Ha & Hs & Hr & ->).
  unfold select_context. case_decide as Hlt; simpl; unfold slice;
    rewrite !length_take, !length_drop, !length_insert, length_seq; lia.
Qed.

(** X15.  Every call of the policy gets four windows of one length,
    [min(context_len, max_test_ep_len)], whatever the step. *)
Theorem policy_window_lengths
    (Env : Type) (env_reset : Env -> list Q * Env)
    (env_step : Env -> list Q -> (list Q * Q * bool * bool) * Env)
    (observation_shape action_shape : nat)
    (forward : list nat -> list (list Q) -> list (list Q) -> list Q -> list (list Q))
    (context_len : nat) (rtg_target rtg_scale : Q)
    (num_eval_ep max_test_ep_len : nat)
    (state_mean state_std : option (list Q)) (discrete_action : bool)
    (w : world Env) :
  let run :=
    evaluate_on_env Env env_reset env_step observation_shape action_shape forward
      context_len rtg_target rtg_scale num_eval_ep max_test_ep_len
      state_mean state_std discrete_action w in
  exists evs,
    w_trace run.1 = w_trace w ++ evs
    /\ forall pre call post, evs = pre ++ EvForward call :: post ->
         length (fc_timesteps call) = context_len `min` max_test_ep_len
         /\ length (fc_states call) = context_len `min` max_test_ep_len
         /\ length (fc_actions call) = context_len `min` max_test_ep_len
         /\ length (fc_rewards_to_go call) = context_len `min` max_test_ep_len.
Proof.
  intros run.
  destruct (evaluate_on_env_spec Env env_reset env_step observation_shape
              action_shape forward context_len rtg_target rtg_scale num_eval_ep
              max_test_ep_len state_mean state_std discrete_action w)
    as (evs & m & s & tail & Htr & Hc & Hd & _).
  exists (evs ++ tail). split; [done|].
  intros pre call post Heq.
  destruct (completed_calls _ _ _ _ _ _ _ _ _ _ _ Hc Hd pre call post Heq)
    as [Hmade _].
  by eapply made_call_lengths.
Qed.

(** *** The history held by the placeholders *)

Section CallsSat.
Variable P : list event -> forward_call -> Prop.

Lemma calls_sat_nil pre : calls_sat P pre [].
Proof. intros p call post Heq. by destruct p. Qed.

Lemma calls_sat_reset pre state : calls_sat P pre [EvReset state].
Proof.
  intros p call post Heq. destruct p as [|e p]; [done|].
  injection Heq as _ Heq. by destruct p.
Qed.

Lemma calls_sat_forward pre call : P pre call -> calls_sat P pre [EvForward call].
Proof.
  intros HP p c post Heq. destruct p as [|e p].
  - injection Heq as <- _. by rewrite app_nil_r.
  - injection Heq as _ Heq. by destruct p.
Qed.

Lemma calls_sat_step pre call act state reward terminated truncated :
  P pre call ->
  calls_sat P pre [EvForward call; EvStep act state reward terminated truncated].
Proof.
  intros HP p c post Heq. destruct p as [|e1 [|e2 p]].
  - injection Heq as <- _. by rewrite app_nil_r.
  - by injection Heq as _ Heq.
  - injection Heq as _ _ Heq. by destruct p.
Qed.

Lemma calls_sat_app pre evs1 evs2 :
  calls_sat P pre evs1 -> calls_sat P (pre ++ evs1) evs2 ->
  calls_sat P pre (evs1 ++ evs2).
Proof.
  intros H1 H2 p call post Heq.
  apply app_eq_app in Heq as [l [[-> Heq]|[-> Heq]]].
  - destruct l as [|e l].
    + simpl in Heq. specialize (H2 [] call post (eq_sym Heq)).
      by rewrite !app_nil_r in H2.
    + injection Heq as <- ->. by eapply H1.
  - rewrite app_assoc. by eapply H2.
Qed.

End CallsSat.

Lemma steps_since_reset_snoc n evs e :
  steps_since_reset n (evs ++ [e]) =
    match e with
    | EvReset _ => 0
    | EvForward _ => steps_since_reset n evs
    | EvStep _ _ _ _ _ => S (steps_since_reset n evs)
    end.
Proof. unfold steps_since_reset. by rewrite foldl_app. Qed.

Lemma episode_actions_snoc acc evs e :
  episode_actions acc (evs ++ [e]) =
    match e with
    | EvReset _ => []
    | EvForward _ => episode_actions acc evs
    | EvStep act _ _ _ _ => episode_actions acc evs ++ [act]
    end.
Proof. unfold episode_actions. by rewrite foldl_app. Qed.

Lemma episode_states_snoc acc evs e :
  episode_states acc (evs ++ [e]) =
    match e with
    | EvReset state => [state]
    | EvForward _ => episode_states acc evs
    | EvStep _ state _ _ _ => episode_states acc evs ++ [state]
    end.
Proof. unfold episode_states. by rewrite foldl_app. Qed.

Lemma episode_rewards_snoc acc evs e :
  episode_rewards acc (evs ++ [e]) =
    match e with
    | EvReset _ => []
    | EvForward _ => episode_rewards acc evs
    | EvStep _ _ reward _ _ => episode_rewards acc evs ++ [reward]
    end.
Proof. unfold episode_rewards. by rewrite foldl_app. Qed.

Lemma tensor_sum_snoc (l : list Q) (x : Q) :
  tensor_sum (l ++ [x]) = (tensor_sum l + x)%Q.
Proof. unfold tensor_sum. by rewrite foldl_app. Qed.

Lemma fc_rollout_select_context context_len timesteps running_state r t :
  fc_rollout (select_context context_len timesteps running_state r t) = r.
Proof. unfold select_context. by case_decide. Qed.

Section HistoryProperties.
Variable Env : Type.
Variable env_reset : Env -> list Q * Env.
Variable env_step : Env -> list Q -> (list Q * Q * bool * bool) * Env.
Variable forward : list nat -> list (list Q) -> list (list Q) -> list Q -> list (list Q).
Variables (context_len : nat) (rtg_target rtg_scale : Q) (max_test_ep_len : nat)
  (state_mean state_std : list Q) (act_dim state_dim : nat).

Abbreviation at_call :=
  (call_history rtg_target rtg_scale max_test_ep_len state_mean state_std
     act_dim state_dim).
Abbreviation at_head :=
  (loop_history rtg_target rtg_scale max_test_ep_len state_mean state_std
     act_dim state_dim).

(** The placeholders of a new episode. *)
Lemma loop_history_reset pre state rtg :
  py_div rtg_target rtg_scale = Ok rtg ->
  at_head (pre ++ [EvReset state]) 0
    {| ep_rollout :=
         {| buf_actions := replicate max_test_ep_len (replicate act_dim 0%Q);
            buf_states := replicate max_test_ep_len (replicate state_dim 0%Q);
            buf_rewards_to_go := replicate max_test_ep_len 0%Q |};
       running_state := state; running_reward := 0%Q; running_rtg := rtg |}.
Proof.
  intros Hrtg. apply py_div_Ok in Hrtg as [-> _].
  split; simpl;
    rewrite ?steps_since_reset_snoc, ?episode_actions_snoc, ?episode_states_snoc,
      ?episode_rewards_snoc; try done.
  - intros k Hk. lia.
  - intros k Hk. apply lookup_replicate_2. lia.
  - intros k Hk. lia.
  - intros k Hk. apply lookup_replicate_2. lia.
  - intros k Hk. lia.
  - intros k Hk. apply lookup_replicate_2. lia.
  - unfold remaining_return, tensor_sum, Qdiv. simpl. ring.
  - by exists pre, (EvReset state).
  - repeat split; simpl; by rewrite length_replicate.
Qed.

(** The placeholders at the call of step [t]. *)
Lemma call_history_step pre t ep scaled :
  t < max_test_ep_len -> at_head pre t ep ->
  py_div (running_reward ep) rtg_scale = Ok scaled ->
  at_call pre
    (select_context context_len (seq 0 max_test_ep_len) (running_state ep)
       {| buf_actions := buf_actions (ep_rollout ep);
          buf_states :=
            <[t := normalize_state state_mean state_std (running_state ep)]>
              (buf_states (ep_rollout ep));
          buf_rewards_to_go :=
            <[t := (running_rtg ep - scaled)%Q]> (buf_rewards_to_go (ep_rollout ep)) |}
       t).
Proof.
  intros Ht [Hstep Hacts Hrews Hsts Hst Hap Har Hsp Hsr Hrp Hrr Hrun Hprev (Hla & Hls & Hlr)]
    Hdiv.
  apply py_div_Ok in Hdiv as [-> _].
  split; rewrite ?fc_rollout_select_context, ?Hstep; simpl; try done.
  - intros k Hk. destruct (decide (k = t)) as [->|Hne].
    + rewrite list_lookup_insert_eq by lia. by rewrite Hst.
    + rewrite list_lookup_insert_ne by done. split; [|apply Hsp; lia].
      apply lookup_lt_is_Some_2. lia.
  - intros k Hk. rewrite list_lookup_insert_ne by lia. apply Hsr. lia.
  - intros k Hk. destruct (decide (k = t)) as [->|Hne].
    + rewrite list_lookup_insert_eq by lia. eexists. split; [done|].
      rewrite take_ge by lia. apply Hrun.
    + rewrite list_lookup_insert_ne by done. apply Hrp. lia.
  - intros k Hk. rewrite list_lookup_insert_ne by lia. apply Hrr. lia.
Qed.

(** The local variables after step [t], when the loop goes on. *)
Lemma loop_history_step pre t ep scaled call act state reward terminated truncated :
  t < max_test_ep_len -> at_head pre t ep ->
  py_div (running_reward ep) rtg_scale = Ok scaled ->
  terminated || truncated = false ->
  at_head (pre ++ [EvForward call; EvStep act state reward terminated truncated]) (S t)
    {| ep_rollout :=
         {| buf_actions := <[t := act]> (buf_actions (ep_rollout ep));
            buf_states :=
              <[t := normalize_state state_mean state_std (running_state ep)]>
                (buf_states (ep_rollout ep));
            buf_rewards_to_go :=
              <[t := (running_rtg ep - scaled)%Q]>
                (buf_rewards_to_go (ep_rollout ep)) |};
       running_state := state; running_reward := reward;
       running_rtg := (running_rtg ep - scaled)%Q |}.
Proof.
  intros Ht [Hstep Hacts Hrews Hsts Hst Hap Har Hsp Hsr Hrp Hrr Hrun Hprev (Hla & Hls & Hlr)]
    Hdiv Hstop.
  apply py_div_Ok in Hdiv as [-> _].
  change [EvForward call; EvStep act state reward terminated truncated]
    with ([EvForward call] ++ [EvStep act state reward terminated truncated]).
  rewrite app_assoc.
  split; simpl;
    rewrite ?steps_since_reset_snoc, ?episode_actions_snoc, ?episode_states_snoc,
      ?episode_rewards_snoc;
    rewrite ?steps_since_reset_snoc, ?episode_actions_snoc, ?episode_states_snoc,
      ?episode_rewards_snoc.
  - by rewrite Hstep.
  - rewrite length_app. simpl. lia.
  - rewrite length_app. simpl. lia.
  - rewrite length_app. simpl. lia.
  - rewrite lookup_app_r by lia. by replace (S t - _) with 0 by lia.
  - intros k Hk. destruct (decide (k = t)) as [->|Hne].
    + rewrite list_lookup_insert_eq by lia.
      rewrite lookup_app_r by lia. by replace (t - _) with 0 by lia.
    + rewrite list_lookup_insert_ne by done.
      rewrite lookup_app_l by lia. apply Hap. lia.
  - intros k Hk. rewrite list_lookup_insert_ne by lia. apply Har. lia.
  - intros k Hk. rewrite lookup_app_l by lia.
    destruct (decide (k = t)) as [->|Hne].
    + rewrite list_lookup_insert_eq by lia. by rewrite Hst.
    + rewrite list_lookup_insert_ne by done. apply Hsp. lia.
  - intros k Hk. rewrite list_lookup_insert_ne by lia. apply Hsr. lia.
  - intros k Hk. rewrite take_app_le by lia.
    destruct (decide (k = t)) as [->|Hne].
    + rewrite list_lookup_insert_eq by lia. eexists. split; [done|].
      rewrite take_ge by lia. apply Hrun.
    + rewrite list_lookup_insert_ne by done. apply Hrp. lia.
  - intros k Hk. rewrite list_lookup_insert_ne by lia. apply Hrr. lia.
  - rewrite Hrun. unfold remaining_return. rewrite tensor_sum_snoc.
    unfold Qdiv. ring.
  - exists (pre ++ [EvForward call]), (EvStep act state reward terminated truncated).
    split; [done|]. simpl. by rewrite Hstop.
  - repeat split; simpl; by rewrite length_insert.
Qed.

(** One iteration. *)
Lemma eval_step_history pre t ep tot w :
  t < max_test_ep_len -> at_head pre t ep ->
  (exists e,
     eval_step Env env_step forward context_len rtg_scale state_mean state_std
       (seq 0 max_test_ep_len) t ep tot w = (w, Raise e))
  \/ (exists call e,
        eval_step Env env_step forward context_len rtg_scale state_mean state_std
          (seq 0 max_test_ep_len) t ep tot w = (emit (EvForward call) w, Raise e)
        /\ at_call pre call)
  \/ (exists call act state reward terminated truncated env ep' tot',
        eval_step Env env_step forward context_len rtg_scale state_mean state_std
          (seq 0 max_test_ep_len) t ep tot w =
          ({| w_env := env;
              w_trace := w_trace w ++ [EvForward call;
                                       EvStep act state reward terminated truncated] |},
           Ok (ep', tot', terminated || truncated))
        /\ at_call pre call
        /\ (terminated || truncated = false ->
            at_head (pre ++ [EvForward call;
                             EvStep act state reward terminated truncated])
              (S t) ep')).
Proof.
  intros Ht Hhead. pose proof (lh_ok _ _ _ _ _ _ _ _ _ _ Hhead) as (Ha & Hs & Hr).
  unfold eval_step, pbind, lift.
  destruct (py_div (running_reward ep) rtg_scale) as [scaled|e] eqn:Hdiv.
  2:{ left. by exists e. }
  right.
  rewrite list_lookup_insert_eq by lia. simpl.
  rewrite list_insert_insert_eq.
  pose proof (call_history_step pre t ep scaled Ht Hhead Hdiv) as Hcall.
  set (call := select_context context_len (seq 0 max_test_ep_len) (running_state ep) _ t)
    in *.
  unfold do_forward.
  destruct (py_getitem _ (fc_index call)) as [act|e] eqn:Hread.
  2:{ left. by exists call, e. }
  right. unfold do_step, ret. simpl.
  destruct (env_step (w_env w) act) as [[[[state reward] terminated] truncated] env] eqn:Hstep.
  eexists call, act, state, reward, terminated, truncated, env, _, _.
  split.
  { unfold emit. simpl. rewrite <- app_assoc. reflexivity. }
  split; [done|].
  intros Hstop. by apply loop_history_step.
Qed.

(** The inner loop. *)
Lemma eval_steps_history k : forall pre t0 ep tot w,
  t0 + k <= max_test_ep_len -> at_head pre t0 ep ->
  exists evs,
    w_trace (eval_steps Env env_step forward context_len rtg_scale state_mean
               state_std (seq 0 max_test_ep_len) (seq t0 k) ep tot w).1
      = w_trace w ++ evs
    /\ calls_sat at_call pre evs.
Proof.
  induction k as [|k IH]; intros pre t0 ep tot w Hk Hhead.
  - exists []. split; [by rewrite app_nil_r|]. apply calls_sat_nil.
  - rewrite <- cons_seq, eval_steps_cons.
    destruct (eval_step_history pre t0 ep tot w ltac:(lia) Hhead)
      as [(e & ->)|[(call & e & -> & Hcall)
         |(call & act & state & reward & terminated & truncated & env & ep' & tot'
           & -> & Hcall & Hnext)]].
    + exists []. split; [by rewrite app_nil_r|]. apply calls_sat_nil.
    + exists [EvForward call]. split; [done|]. by apply calls_sat_forward.
    + destruct (terminated || truncated) eqn:Hstop.
      * exists [EvForward call; EvStep act state reward terminated truncated].
        split; [done|]. by apply calls_sat_step.
      * set (w1 := {| w_env := env; w_trace := _ |}).
        destruct (IH _ (S t0) ep' tot' w1 ltac:(lia) (Hnext eq_refl))
          as (evs & Htr & Hsat).
        exists ([EvForward call; EvStep act state reward terminated truncated] ++ evs).
        split.
        { rewrite Htr. subst w1. simpl. by rewrite <- !app_assoc. }
        apply calls_sat_app; [by apply calls_sat_step | done].
Qed.

(** One episode. *)
Lemma eval_episode_history pre tot w :
  exists evs,
    w_trace (eval_episode Env env_reset env_step forward context_len rtg_target
               rtg_scale max_test_ep_len state_mean state_std
               (seq 0 max_test_ep_len) act_dim state_dim tot w).1
      = w_trace w ++ evs
    /\ calls_sat at_call pre evs.
Proof.
  unfold eval_episode, pbind, do_reset, lift.
  destruct (env_reset (w_env w)) as [state env] eqn:Hreset. simpl.
  destruct (py_div rtg_target rtg_scale) as [rtg|e] eqn:Hdiv.
  - set (ep := {| ep_rollout := _; running_state := state;
                  running_reward := _; running_rtg := _ |}).
    set (w1 := emit (EvReset state) _).
    destruct (eval_steps_history max_test_ep_len (pre ++ [EvReset state]) 0 ep tot w1
                ltac:(lia))
      as (evs & Htr & Hsat).
    { by apply loop_history_reset. }
    exists ([EvReset state] ++ evs). split.
    { rewrite Htr. subst w1. simpl. by rewrite <- app_assoc. }
    apply calls_sat_app; [apply calls_sat_reset | done].
  - exists [EvReset state]. split; [done|]. apply calls_sat_reset.
Qed.

(** All episodes. *)
Lemma eval_episodes_history n : forall pre tot w,
  exists evs,
    w_trace (eval_episodes Env env_reset env_step forward context_len rtg_target
               rtg_scale max_test_ep_len state_mean state_std
               (seq 0 max_test_ep_len) n act_dim state_dim tot w).1
      = w_trace w ++ evs
    /\ calls_sat at_call pre evs.
Proof.
  induction n as [|n IH]; intros pre tot w.
  - exists []. split; [by rewrite app_nil_r|]. apply calls_sat_nil.
  - rewrite eval_episodes_S.
    destruct (eval_episode_history pre tot w) as (evs1 & Htr1 & Hsat1).
    destruct (eval_episode _ _ _ _ _ _ _ _ _ _ _ _ _ tot w) as [w1 [tot1|e]].
    + destruct (IH (pre ++ evs1) tot1 w1) as (evs2 & Htr2 & Hsat2).
      exists (evs1 ++ evs2). split.
      { rewrite Htr2. simpl in Htr1. rewrite Htr1. by rewrite <- app_assoc. }
      by apply calls_sat_app.
    + by exists evs1.
Qed.

End HistoryProperties.

(** The whole evaluation. *)
Lemma evaluate_on_env_history
    (Env : Type) (env_reset : Env -> list Q * Env)
    (env_step : Env -> list Q -> (list Q * Q * bool * bool) * Env)
    (observation_shape action_shape : nat)
    (forward : list nat -> list (list Q) -> list (list Q) -> list Q -> list (list Q))
    (context_len : nat) (rtg_target rtg_scale : Q)
    (num_eval_ep max_test_ep_len : nat)
    (state_mean state_std : option (list Q)) (discrete_action : bool)
    (w : world Env) :
  exists evs,
    w_trace (evaluate_on_env Env env_reset env_step observation_shape action_shape
               forward context_len rtg_target rtg_scale num_eval_ep max_test_ep_len
               state_mean state_std discrete_action w).1
      = w_trace w ++ evs
    /\ forall pre call post, evs = pre ++ EvForward call :: post ->
         call_history rtg_target rtg_scale max_test_ep_len
           (state_mean_or_zeros observation_shape state_mean)
           (state_std_or_ones observation_shape state_std)
           (if discrete_action then 1 else action_shape) observation_shape
           pre call.
Proof.
  rewrite evaluate_on_env_unfold.
  destruct (eval_episodes_history Env env_reset env_step forward context_len
              rtg_target rtg_scale max_test_ep_len
              (state_mean_or_zeros observation_shape state_mean)
              (state_std_or_ones observation_shape state_std)
              (if discrete_action then 1 else action_shape) observation_shape
              num_eval_ep [] {| total_reward := 0%Q; total_timesteps := 0 |} w)
    as (evs & Htr & Hsat).
  exists evs. split; [|by apply Hsat].
  destruct (eval_episodes _ _ _ _ _ _ _ _ _ _ _ _ _ _ _ w) as [w1 [tot|e]]; [|done].
  destruct (py_div (total_reward tot) _); [|done].
  by destruct (py_div (inject_Z _) _).
Qed.

(** X16.  At every call of the policy, the return-to-go placeholder holds,
    at each step [k] of the episode up to the current one, the target return
    less the rewards received before step [k], in units of [rtg_scale]:
    [(rtg_target - (r_0 + ... + r_(k-1))) / rtg_scale]; the later positions
    are still zero. *)
Theorem return_to_go_conditioning
    (Env : Type) (env_reset : Env -> list Q * Env)
    (env_step : Env -> list Q -> (list Q * Q * bool * bool) * Env)
    (observation_shape action_shape : nat)
    (forward : list nat -> list (list Q) -> list (list Q) -> list Q -> list (list Q))
    (context_len : nat) (rtg_target rtg_scale : Q)
    (num_eval_ep max_test_ep_len : nat)
    (state_mean state_std : option (list Q)) (discrete_action : bool)
    (w : world Env) :
  let run :=
    evaluate_on_env Env env_reset env_step observation_shape action_shape forward
      context_len rtg_target rtg_scale num_eval_ep max_test_ep_len
      state_mean state_std discrete_action w in
  exists evs,
    w_trace run.1 = w_trace w ++ evs
    /\ forall pre call post, evs = pre ++ EvForward call :: post ->
         let t := steps_since_reset 0 pre in
         let received := episode_rewards [] pre in
         length received = t
         /\ (forall k, k <= t ->
               exists v, buf_rewards_to_go (fc_rollout call) !! k = Some v
                 /\ (v == (rtg_target - tensor_sum (take k received)) / rtg_scale)%Q)
         /\ (forall k, t < k < max_test_ep_len ->
               buf_rewards_to_go (fc_rollout call) !! k = Some 0%Q).
Proof.
  intros run.
  destruct (evaluate_on_env_history Env env_reset env_step observation_shape
              action_shape forward context_len rtg_target rtg_scale num_eval_ep
              max_test_ep_len state_mean state_std discrete_action w)
    as (evs & Htr & Hsat).
  exists evs. split; [done|].
  intros pre call post Heq t received.
  destruct (Hsat pre call post Heq) as [_ Hrews _ _ _ _ _ Hpast Hrest _].
  by split_and!.
Qed.

(** X17.  At every call of the policy, the state placeholder holds the
    normalized states of the episode so far (the initial state at row [0],
    the state returned by step [k - 1] at row [k]) and the action
    placeholder holds the actions taken at the earlier steps; all later rows
    are still zero, among them the action row of the current step. *)
Theorem placeholders_hold_episode_history
    (Env : Type) (env_reset : Env -> list Q * Env)
    (env_step : Env -> list Q -> (list Q * Q * bool * bool) * Env)
    (observation_shape action_shape : nat)
    (forward : list nat -> list (list Q) -> list (list Q) -> list Q -> list (list Q))
    (context_len : nat) (rtg_target rtg_scale : Q)
    (num_eval_ep max_test_ep_len : nat)
    (state_mean state_std : option (list Q)) (discrete_action : bool)
    (w : world Env) :
  let run :=
    evaluate_on_env Env env_reset env_step observation_shape action_shape forward
      context_len rtg_target rtg_scale num_eval_ep max_test_ep_len
      state_mean state_std discrete_action w in
  let mean := state_mean_or_zeros observation_shape state_mean in
  let std := state_std_or_ones observation_shape state_std in
  let act_dim := if discrete_action then 1 else action_shape in
  exists evs,
    w_trace run.1 = w_trace w ++ evs
    /\ forall pre call post, evs = pre ++ EvForward call :: post ->
         let t := steps_since_reset 0 pre in
         let taken := episode_actions [] pre in
         let seen := episode_states [] pre in
         length taken = t /\ length seen = S t
         /\ (forall k, k < t -> buf_actions (fc_rollout call) !! k = taken !! k)
         /\ (forall k, t <= k < max_test_ep_len ->
               buf_actions (fc_rollout call) !! k = Some (replicate act_dim 0%Q))
         /\ (forall k, k <= t ->
               buf_states (fc_rollout call) !! k
               = normalize_state mean std <$> seen !! k)
         /\ (forall k, t < k < max_test_ep_len ->
               buf_states (fc_rollout call) !! k
               = Some (replicate observation_shape 0%Q)).
Proof.
  intros run mean std act_dim.
  destruct (evaluate_on_env_history Env env_reset env_step observation_shape
              action_shape forward context_len rtg_target rtg_scale num_eval_ep
              max_test_ep_len state_mean state_std discrete_action w)
    as (evs & Htr & Hsat).
  exists evs. split; [done|].
  intros pre call post Heq t taken seen.
  destruct (Hsat pre call post Heq) as [Hacts _ Hsts Hap Har Hsp Hsr _ _ _].
  split_and!; try done.
  intros k Hk. by apply Hsp.
Qed.

(** X18.  The policy is never called for an episode that is over: the event
    right before a call is [env.reset()] or an environment step that
    neither terminated nor truncated the episode; and the event right after
    a step that terminated or truncated the episode, when there is one, is
    the [env.reset()] of the next episode. *)
Theorem no_call_after_episode_end
    (Env : Type) (env_reset : Env -> list Q * Env)
    (env_step : Env -> list Q -> (list Q * Q * bool * bool) * Env)
    (observation_shape action_shape : nat)
    (forward : list nat -> list (list Q) -> list (list Q) -> list Q -> list (list Q))
    (context_len : nat) (rtg_target rtg_scale : Q)
    (num_eval_ep max_test_ep_len : nat)
    (state_mean state_std : option (list Q)) (discrete_action : bool)
    (w : world Env) :
  let run :=
    evaluate_on_env Env env_reset env_step observation_shape action_shape forward
      context_len rtg_target rtg_scale num_eval_ep max_test_ep_len
      state_mean state_std discrete_action w in
  exists evs,
    w_trace run.1 = w_trace w ++ evs
    /\ (forall pre call post, evs = pre ++ EvForward call :: post ->
          exists pre' e, pre = pre' ++ [e] /\ may_continue e = true)
    /\ (forall pre act state reward terminated truncated e post,
          evs = pre ++ EvStep act state reward terminated truncated :: e :: post ->
          terminated || truncated = true ->
          exists state', e = EvReset state').
Proof.
  intros run.
  destruct (evaluate_on_env_history Env env_reset env_step observation_shape
              action_shape forward context_len rtg_target rtg_scale num_eval_ep
              max_test_ep_len state_mean state_std discrete_action w)
    as (evs & Htr & Hsat).
  destruct (evaluate_on_env_spec Env env_reset env_step observation_shape
              action_shape forward context_len rtg_target rtg_scale num_eval_ep
              max_test_ep_len state_mean state_std discrete_action w)
    as (evs' & m & s & tail & Htr' & Hc & Hd & _).
  simpl in Htr'. fold run in Htr, Htr'.
  assert (Hevs : evs' ++ tail = evs).
  { rewrite Htr in Htr'. by apply app_inv_head in Htr'. }
  exists evs. split; [done|]. split.
  - intros pre call post Heq.
    by destruct (Hsat pre call post Heq) as [_ _ _ _ _ _ _ _ _ Hprev].
  - intros pre act state reward terminated truncated e post Heq Hstop.
    destruct e as [state'|call|act' state' reward' terminated' truncated'].
    + by exists state'.
    + destruct (Hsat (pre ++ [EvStep act state reward terminated truncated]) call post)
        as [_ _ _ _ _ _ _ _ _ (pre' & e & Hpre & He)].
      { by rewrite <- app_assoc. }
      apply app_inj_tail in Hpre as [_ <-]. simpl in He. by rewrite Hstop in He.
    + destruct (completed_steps _ _ _ _ _ _ _ _ _ _ _ Hc Hd
                  (pre ++ [EvStep act state reward terminated truncated])
                  act' state' reward' terminated' truncated' post)
        as (pre' & call & Hpre & _).
      { rewrite Hevs, Heq. by rewrite <- app_assoc. }
      by apply app_inj_tail in Hpre as [_ ?].
Qed.

(** X19.  Evaluation and training normalize alike.  When
    [evaluate_on_env] is given the statistics that [get_state_stats]
    returns for a store, a state of the episode that equals the raw
    observation of a pickled record at the same step is handed to the policy
    as the observation that the store holds for that record at that step. *)
Theorem evaluation_normalizes_as_the_store
    (np_mean np_std : list (list Q) -> list Q)
    (pickled : list trajectory) (ctx : nat) (scale : Q) (discrete : bool)
    (self : D4RLTrajectoryDataset)
    (i : nat) (traj0 : trajectory) (obs0 : list (list Q))
    (Env : Type) (env_reset : Env -> list Q * Env)
    (env_step : Env -> list Q -> (list Q * Q * bool * bool) * Env)
    (observation_shape action_shape : nat)
    (forward : list nat -> list (list Q) -> list (list Q) -> list Q -> list (list Q))
    (context_len : nat) (rtg_target rtg_scale : Q)
    (num_eval_ep max_test_ep_len : nat) (discrete_action : bool)
    (w : world Env) :
  __init__ np_mean np_std pickled ctx scale discrete = Ok self ->
  pickled !! i = Some traj0 ->
  observations traj0 = Some obs0 ->
  let run :=
    evaluate_on_env Env env_reset env_step observation_shape action_shape forward
      context_len rtg_target rtg_scale num_eval_ep max_test_ep_len
      (Some (get_state_stats self).1) (Some (get_state_stats self).2)
      discrete_action w in
  exists traj obs evs,
    trajectories self !! i = Some traj
    /\ observations traj = Some obs
    /\ w_trace run.1 = w_trace w ++ evs
    /\ forall pre call post, evs = pre ++ EvForward call :: post ->
         forall k, k <= steps_since_reset 0 pre ->
           episode_states [] pre !! k = obs0 !! k ->
           buf_states (fc_rollout call) !! k = obs !! k.
Proof.
  intros Hinit Hi Ho run.
  apply init_stored in Hinit as (raws & _ & _ & _ & Hst & _ & _).
  destruct (Forall2_lookup_l _ _ _ _ _ Hst Hi)
    as (traj & Htraj & obs & rews & disc & Ho' & _ & _ & ->).
  assert (obs = obs0) as -> by congruence.
  destruct (evaluate_on_env_history Env env_reset env_step observation_shape
              action_shape forward context_len rtg_target rtg_scale num_eval_ep
              max_test_ep_len (Some (get_state_stats self).1)
              (Some (get_state_stats self).2) discrete_action w)
    as (evs & Htr & Hsat).
  eexists _, _, evs. split; [done|]. split; [done|]. split; [done|].
  intros pre call post Heq k Hk Hsame.
  destruct (Hsat pre call post Heq) as [_ _ _ _ _ Hsp _ _ _ _].
  destruct (Hsp k Hk) as [_ ->]. rewrite Hsame.
  unfold normalize_observations. by rewrite list_lookup_fmap.
Qed.

(** A run that meets the hypothesis: the environment replays the raw
    observations of the first record, and the call of step [1] is handed
    the stored observation of that step. *)
Lemma evaluation_normalizes_as_the_store_witness :
  exists traj obs evs,
    trajectories example_store !! 0 = Some traj
    /\ observations traj = Some obs
    /\ w_trace (evaluate_on_env nat (replay_reset [[1]; [3]; [1]]%Q)
                  (replay_step [[1]; [3]; [1]]%Q) 1 1 stub_forward 2 3 1 1 8
                  (Some (get_state_stats example_store).1)
                  (Some (get_state_stats example_store).2) false
                  {| w_env := 0; w_trace := [] |}).1 = [] ++ evs
    /\ (forall pre call post, evs = pre ++ EvForward call :: post ->
         forall k, k <= steps_since_reset 0 pre ->
           episode_states [] pre !! k = [[1]; [3]; [1]]%Q !! k ->
           buf_states (fc_rollout call) !! k = obs !! k)
    /\ exists pre call post,
         evs = pre ++ EvForward call :: post
         /\ steps_since_reset 0 pre = 1
         /\ episode_states [] pre !! 0 = [[1]; [3]; [1]]%Q !! 0
         /\ episode_states [] pre !! 1 = [[1]; [3]; [1]]%Q !! 1
         /\ buf_states (fc_rollout call) !! 1 = obs !! 1.
Proof.
  destruct (evaluation_normalizes_as_the_store np_mean_exact np_std_exact
              example_pickled 2 1 false example_store 0
              {| observations := Some [[1]; [3]; [1]]%Q;
                 actions := Some [[0]; [1]; [0]]%Q;
                 rewards := Some [1; 1; 1]%Q;
                 returns_to_go := None |}
              [[1]; [3]; [1]]%Q
              nat (replay_reset [[1]; [3]; [1]]%Q) (replay_step [[1]; [3]; [1]]%Q)
              1 1 stub_forward 2 3 1 1 8 false
              {| w_env := 0; w_trace := [] |}
              example_store_init eq_refl eq_refl)
    as (traj & obs & evs & Htraj & Hobs & Htr & Hcalls).
  exists traj, obs, evs.
  split; [done|]. split; [done|]. split; [done|]. split; [done|].
  pose proof Htr as Hevs. vm_compute in Hevs.
  match type of Hevs with
  | ?e0 :: ?e1 :: ?e2 :: EvForward ?c :: ?post = _ =>
      exists [e0; e1; e2], c, post;
      assert (Hsplit : evs = [e0; e1; e2] ++ EvForward c :: post) by (by rewrite <- Hevs)
  end.
  split; [done|]. split; [reflexivity|]. split; [reflexivity|]. split; [reflexivity|].
  apply (Hcalls _ _ _ Hsplit 1); [simpl; lia | reflexivity].
Defined.

(** *** An empty context *)

Lemma eval_steps_empty_context
    (Env : Type) (env_step : Env -> list Q -> (list Q * Q * bool * bool) * Env)
    (forward : list nat -> list (list Q) -> list (list Q) -> list Q -> list (list Q))
    (rtg_scale : Q) (max_test_ep_len : nat) (state_mean state_std : list Q)
    (t0 k : nat) (ep : episode) (tot : totals) (w : world Env) :
  policy_contract forward -> ~ (rtg_scale == 0)%Q ->
  t0 + S k <= max_test_ep_len -> episode_ok max_test_ep_len ep ->
  exists call,
    eval_steps Env env_step forward 0 rtg_scale state_mean state_std
      (seq 0 max_test_ep_len) (seq t0 (S k)) ep tot w
    = (emit (EvForward call) w, Raise IndexError)
    /\ fc_timesteps call = [].
Proof.
  intros Hpol Hscale Hk Hep.
  rewrite <- cons_seq, eval_steps_cons.
  assert (Hread : forall call,
    made_call 0 max_test_ep_len state_mean state_std t0 call ->
    fc_timesteps call = []
    /\ py_getitem (predictions forward call) (fc_index call) = Raise IndexError).
  { intros call Hmade.
    destruct (made_call_context _ _ _ _ _ _ Hmade) as (_ & _ & _ & Hge).
    destruct (Hge ltac:(lia)) as (_ & _ & _ & _ & -> & Hlen & _).
    apply nil_length_inv in Hlen. split; [done|].
    assert (Hpred : predictions forward call = []).
    { apply nil_length_inv. unfold predictions. by rewrite Hpol, Hlen. }
    by rewrite Hpred. }
  destruct (eval_step_cases Env env_step forward 0 rtg_scale
              max_test_ep_len state_mean state_std t0 ep tot w ltac:(lia) Hep)
    as [(e & _ & Hdiv)|[(call & e & -> & Hmade & _ & Hfail)
       |(call & act & state & reward & terminated & truncated & env & ep'
         & _ & Hmade & _ & Hact & _)]].
  - by rewrite py_div_nonzero in Hdiv.
  - destruct (Hread call Hmade) as [Hwin Hraise].
    exists call. split; [|done]. do 2 f_equal. congruence.
  - destruct (Hread call Hmade) as [_ Hraise]. congruence.
Qed.

(** X21.  With [context_len = 0] no evaluation succeeds: given a policy
    that returns one prediction per position of its window, a non-zero
    [rtg_scale], an episode to run and a step to take, [evaluate_on_env]
    resets the environment, calls the policy once, on empty windows, and
    raises [IndexError] when it reads the prediction. *)
Theorem evaluate_empty_context
    (Env : Type) (env_reset : Env -> list Q * Env)
    (env_step : Env -> list Q -> (list Q * Q * bool * bool) * Env)
    (observation_shape action_shape : nat)
    (forward : list nat -> list (list Q) -> list (list Q) -> list Q -> list (list Q))
    (rtg_target rtg_scale : Q) (num_eval_ep max_test_ep_len : nat)
    (state_mean state_std : option (list Q)) (discrete_action : bool)
    (w : world Env) :
  policy_contract forward -> ~ (rtg_scale == 0)%Q ->
  num_eval_ep <> 0 -> 0 < max_test_ep_len ->
  exists call,
    evaluate_on_env Env env_reset env_step observation_shape action_shape forward
      0 rtg_target rtg_scale num_eval_ep max_test_ep_len
      state_mean state_std discrete_action w
    = ({| w_env := (env_reset (w_env w)).2;
          w_trace := w_trace w ++ [EvReset (env_reset (w_env w)).1; EvForward call] |},
       Raise IndexError)
    /\ fc_timesteps call = [].
Proof.
  intros Hpol Hscale Hnum Hmax. destruct num_eval_ep as [|n]; [done|].
  rewrite evaluate_on_env_unfold, eval_episodes_S.
  unfold eval_episode, pbind, do_reset, lift.
  destruct (env_reset (w_env w)) as [state env]. cbn [fst snd].
  rewrite (py_div_nonzero _ _ Hscale).
  destruct max_test_ep_len as [|m]; [lia|].
  match goal with
  | |- context [eval_steps _ _ _ _ _ ?mean ?std _ _ ?ep ?tot ?w0] =>
      destruct (eval_steps_empty_context Env env_step forward rtg_scale (S m)
                  mean std 0 m ep tot w0 Hpol Hscale ltac:(lia))
        as (call & Hrun & Hwin)
  end.
  { repeat split; simpl; by rewrite length_replicate. }
  exists call. rewrite Hrun. split; [|done].
  unfold emit. simpl. by rewrite <- app_assoc.
Qed.

Lemma evaluate_empty_context_witness :
  exists call,
    evaluate_on_env nat stub_reset stub_step 1 1 stub_forward
      0 10 1 1 8 None None false {| w_env := 0; w_trace := [] |}
    = ({| w_env := (stub_reset 0).2;
          w_trace := [] ++ [EvReset (stub_reset 0).1; EvForward call] |},
       Raise IndexError)
    /\ fc_timesteps call = [].
Proof.
  apply (evaluate_empty_context nat stub_reset stub_step 1 1 stub_forward
           10 1 1 8 None None false {| w_env := 0; w_trace := [] |}).
  - apply stub_forward_contract.
  - discriminate.
  - discriminate.
  - lia.
Defined.

(** *** Returns-to-go in training and in evaluation *)

Lemma tensor_sum_app (a b : list Q) :
  (tensor_sum (a ++ b) == tensor_sum a + tensor_sum b)%Q.
Proof.
  unfold tensor_sum at 1. rewrite foldl_app. fold (tensor_sum a).
  apply foldl_Qplus_acc.
Qed.

(** X22.  The return-to-go that evaluation conditions on continues the
    returns-to-go of the training data.  For a store and an evaluation with
    one [rtg_scale]: when the target return is the total reward of a pickled
    record and the episode has so far received the rewards of that record,
    the return-to-go written for the current step equals the return-to-go
    that the store holds for the record at that step. *)
Theorem evaluation_return_to_go_matches_store
    (np_mean np_std : list (list Q) -> list Q)
    (pickled : list trajectory) (ctx : nat) (discrete : bool)
    (self : D4RLTrajectoryDataset)
    (i : nat) (traj0 : trajectory) (rews : list Q)
    (Env : Type) (env_reset : Env -> list Q * Env)
    (env_step : Env -> list Q -> (list Q * Q * bool * bool) * Env)
    (observation_shape action_shape : nat)
    (forward : list nat -> list (list Q) -> list (list Q) -> list Q -> list (list Q))
    (context_len : nat) (rtg_target rtg_scale : Q)
    (num_eval_ep max_test_ep_len : nat)
    (state_mean state_std : option (list Q)) (discrete_action : bool)
    (w : world Env) :
  __init__ np_mean np_std pickled ctx rtg_scale discrete = Ok self ->
  pickled !! i = Some traj0 ->
  rewards traj0 = Some rews ->
  (rtg_target == tensor_sum rews)%Q ->
  let run :=
    evaluate_on_env Env env_reset env_step observation_shape action_shape forward
      context_len rtg_target rtg_scale num_eval_ep max_test_ep_len
      state_mean state_std discrete_action w in
  exists traj rtg evs,
    trajectories self !! i = Some traj
    /\ returns_to_go traj = Some rtg
    /\ w_trace run.1 = w_trace w ++ evs
    /\ forall pre call post, evs = pre ++ EvForward call :: post ->
         let t := steps_since_reset 0 pre in
         t < length rews ->
         episode_rewards [] pre = take t rews ->
         exists v v',
           buf_rewards_to_go (fc_rollout call) !! t = Some v
           /\ rtg !! t = Some v'
           /\ (v == v')%Q.
Proof.
  intros Hinit Hi Hr Htarget run.
  apply init_stored in Hinit as (raws & _ & _ & _ & Hst & _ & _).
  destruct (Forall2_lookup_l _ _ _ _ _ Hst Hi)
    as (traj & Htraj & obs & rews' & disc & _ & Hr' & Hdisc & ->).
  assert (rews' = rews) as -> by congruence.
  destruct (evaluate_on_env_history Env env_reset env_step observation_shape
              action_shape forward context_len rtg_target rtg_scale num_eval_ep
              max_test_ep_len state_mean state_std discrete_action w)
    as (evs & Htr & Hsat).
  eexists _, _, evs. split; [done|]. split; [done|]. split; [done|].
  intros pre call post Heq t Ht Hsame.
  destruct (Hsat pre call post Heq) as [_ Hlen _ _ _ _ _ Hpast _ _].
  destruct (Hpast t ltac:(done)) as (v & Hv & Hval).
  destruct (lookup_lt_is_Some_2 disc t) as [d Hd].
  { by rewrite (discount_cumsum_length _ _ _ Hdisc). }
  exists v, (d / rtg_scale)%Q. split; [done|]. split.
  { unfold array_div_scalar. by rewrite list_lookup_fmap, Hd. }
  rewrite Hval. unfold remaining_return.
  rewrite (discount_cumsum_suffix_sum _ _ _ _ Hdisc Hd).
  rewrite take_ge by (fold t; lia). rewrite Hsame, Htarget.
  rewrite <- (take_drop t rews) at 1. rewrite tensor_sum_app.
  unfold Qdiv. ring.
Qed.

Lemma evaluation_return_to_go_matches_store_witness :
  exists traj rtg evs,
    trajectories example_store !! 0 = Some traj
    /\ returns_to_go traj = Some rtg
    /\ w_trace (evaluate_on_env nat stub_reset stub_step 1 1 stub_forward 2 3 1 1 8
                  None None false {| w_env := 0; w_trace := [] |}).1 = [] ++ evs
    /\ forall pre call post, evs = pre ++ EvForward call :: post ->
         let t := steps_since_reset 0 pre in
         t < length [1; 1; 1]%Q ->
         episode_rewards [] pre = take t [1; 1; 1]%Q ->
         exists v v',
           buf_rewards_to_go (fc_rollout call) !! t = Some v
           /\ rtg !! t = Some v'
           /\ (v == v')%Q.
Proof.
  apply (evaluation_return_to_go_matches_store np_mean_exact np_std_exact
           example_pickled 2 false example_store 0
           {| observations := Some [[1]; [3]; [1]]%Q;
              actions := Some [[0]; [1]; [0]]%Q;
              rewards := Some [1; 1; 1]%Q;
              returns_to_go := None |}
           [1; 1; 1]%Q
           nat stub_reset stub_step 1 1 stub_forward 2 3 1 1 8 None None false
           {| w_env := 0; w_trace := [] |}).
  - exact example_store_init.
  - reflexivity.
  - reflexivity.
  - reflexivity.
Defined.

(** ** The calls of the policy *)


Section ShapeProperties.
Variable Env : Type.
Variable env_reset : Env -> list Q * Env.
Variable env_step : Env -> list Q -> (list Q * Q * bool * bool) * Env.
Variable forward : list nat -> list (list Q) -> list (list Q) -> list Q -> list (list Q).
Variables (context_len : nat) (rtg_target rtg_scale : Q) (max_test_ep_len : nat)
  (state_mean state_std : list Q).




End ShapeProperties.


